(** * Ingestion and reconciliation pipeline of VehicleTracker-backend

    A shallow embedding of the Python sources:
    - [samsara_normalizer.py]: [_category_rank], [dedupe_normalized_locations],
      [_extract_location_common], [_extract_location_from_v1_asset],
      [normalize_location_record];
    - [cat_client.py]: [normalize_cat_position], [fetch_cat_positions];
    - [samsara_client.py]: [fetch_all_location_payloads];
    - [vehicles_to_supabase_sync.py]: [is_position_fresh], [run_sync_once];
    - [supabase_db.py]: [upsert_vehicle], [insert_position];
    - [samsara_to_supabase_sync.py]: [find_nearest_job];
    - [app.py]: [assign_to_jobs].

    Python values that come from JSON are [JVal]; a Python dict is an
    association list (insertion order kept, keys unique, [get] returns the
    first binding).  A raised exception is [None] of an [option].  Python
    floats are modelled by exact rationals [Q]. *)

From Stdlib Require Import String Ascii List ZArith QArith Qabs Bool Lia.
From Stdlib Require Import DecimalString.
Import ListNotations.
#[local] Set Warnings "-register-all".
Local Open Scope string_scope.
Local Open Scope Z_scope.

(* ------------------------------------------------------------------ *)
(** ** JSON values and Python dicts *)

Inductive JVal : Type :=
| JNull
| JBool (b : bool)
| JInt (z : Z)
| JFloat (q : Q)
| JStr (s : string)
| JArr (xs : list JVal)
| JObj (fields : list (string * JVal)).

Definition dict := list (string * JVal).

(** [d.get(k)] as an optional binding. *)
Fixpoint dict_lookup (d : dict) (k : string) : option JVal :=
  match d with
  | [] => None
  | (k', v) :: d' => if String.eqb k k' then Some v else dict_lookup d' k
  end.

(** [d.get(k, default)] *)
Definition py_get_default (d : dict) (k : string) (default : JVal) : JVal :=
  match dict_lookup d k with Some v => v | None => default end.

(** [d.get(k)]: a missing key reads as [None]. *)
Definition py_get (d : dict) (k : string) : JVal := py_get_default d k JNull.

(** Python truthiness. *)
Definition truthy (v : JVal) : bool :=
  match v with
  | JNull => false
  | JBool b => b
  | JInt z => negb (Z.eqb z 0)
  | JFloat q => negb (Qeq_bool q 0%Q)
  | JStr s => negb (String.eqb s "")
  | JArr xs => match xs with [] => false | _ => true end
  | JObj fs => match fs with [] => false | _ => true end
  end.

(** [a < b] on floats. *)
Definition Qlt_bool (a b : Q) : bool := negb (Qle_bool b a).

(** [a or b] *)
Definition py_or (a b : JVal) : JVal := if truthy a then a else b.

Definition is_none (v : JVal) : bool :=
  match v with JNull => true | _ => false end.

Notation "x <- c ;; k" := (match c with Some x => k | None => None end)
  (at level 61, c at next level, right associativity).

(** The parts of the Python runtime whose exact behaviour no property here
    depends on: the text of [repr] of a float and of [str] of a list or dict,
    [float(s)] of a string ([None] when it raises ValueError) and
    [dateutil.parser.parse] ([None] when it raises).  Every theorem holds for
    any instance. *)
Record datetime : Type := mk_datetime {
  dt_wall : Z;              (* wall-clock microseconds since 0001-01-01T00:00 *)
  dt_offset : option Z      (* UTC offset in microseconds; [None] when naive *)
}.

Class PyRuntime : Type := {
  float_repr : Q -> string;
  container_str : JVal -> string;
  float_of_string : string -> option Q;
  dateutil_parse : string -> option datetime
}.

(** How a call [float(v)] ends: [FloatCaught] is a TypeError or a
    ValueError, the exceptions the [except (TypeError, ValueError)] handlers
    of the normalizers catch; [FloatOverflow] is the OverflowError that
    [float(int)] raises when the int rounds past the largest double. *)
Inductive FloatResult : Type :=
| FloatOk (q : Q)
| FloatCaught
| FloatOverflow.

(** [float(z)] raises OverflowError exactly when [|z|] rounds (half to even)
    past [(2^53 - 1) * 2^971], the largest double: from [2^1024 - 2^970] up. *)
Definition FLOAT_INT_LIMIT : Z := 2 ^ 1024 - 2 ^ 970.

Section Builtins.
Context `{PyRuntime}.

(** [str(v)] *)
Definition py_str (v : JVal) : string :=
  match v with
  | JNull => "None"
  | JBool true => "True"
  | JBool false => "False"
  | JInt z => NilZero.string_of_int (Z.to_int z)
  | JFloat q => float_repr q
  | JStr s => s
  | JArr _ | JObj _ => container_str v
  end.

(** [float(v)]: its value, or the exception it raises: TypeError or
    ValueError, or OverflowError for an int too large for a double. *)
Definition py_float_res (v : JVal) : FloatResult :=
  match v with
  | JBool b => FloatOk (if b then 1%Q else 0%Q)
  | JInt z => if FLOAT_INT_LIMIT <=? Z.abs z then FloatOverflow else FloatOk (inject_Z z)
  | JFloat q => FloatOk q
  | JStr s => match float_of_string s with Some q => FloatOk q | None => FloatCaught end
  | JNull | JArr _ | JObj _ => FloatCaught
  end.

(** [float(v)] where no handler is around it; [None] when it raises. *)
Definition py_float (v : JVal) : option Q :=
  match py_float_res v with FloatOk q => Some q | _ => None end.

End Builtins.

(* ------------------------------------------------------------------ *)
(** ** [round(x, 5)] *)

(** Round-half-even of [n / d] for [n >= 0], [d > 0]. *)
Definition round_half_even (n d : Z) : Z :=
  let q := n / d in
  let r := n mod d in
  if 2 * r <? d then q
  else if d <? 2 * r then q + 1
  else if Z.even q then q else q + 1.

(** A Python float that is a multiple of [10^-5]: its sign bit and its
    magnitude in units of [10^-5].  [round] keeps the sign of its argument,
    so a small negative number rounds to [-0.0], whose [repr] is ["-0.0"]. *)
Record pyfloat5 : Type := mk_pyfloat5 { pf_neg : bool; pf_mag : Z }.

(** [round(x, 5)], rounding the exact value of [x] half to even. *)
Definition py_round5 (x : Q) : pyfloat5 :=
  {| pf_neg := Qnum x <? 0;
     pf_mag := round_half_even (Z.abs (Qnum x) * 100000) (Zpos (Qden x)) |}.

(** The numeric value of such a float ([-0.0] and [0.0] are both [0]). *)
Definition pf_value (p : pyfloat5) : Q :=
  if pf_neg p then (- (pf_mag p # 100000))%Q else (pf_mag p # 100000)%Q.

(* ------------------------------------------------------------------ *)
(** ** [dedupe_normalized_locations] (samsara_normalizer.py) *)

(** The dedup key.  The source builds the f-strings ["id:{ext_id}"],
    ["name-only:{name}"] and ["name_lat_lon:{name}|{lat}|{lon}"]; the three
    prefixes differ, and the [repr] of a float contains no ['|'] and is
    injective on floats ([-0.0] and [0.0] have different reprs), so two source
    keys are equal exactly when the tagged keys below are equal. *)
Inductive dkey : Type :=
| KId (ext : string)
| KNameOnly (name : string)
| KNameLatLon (name : string) (lat lon : pyfloat5).

Definition dkey_eq_dec (a b : dkey) : {a = b} + {a <> b}.
Proof. repeat decide equality. Defined.

Section Dedupe.
Context `{PyRuntime}.

Definition _category_rank (cat : JVal) : option Z :=
  match cat with
  | JStr s =>
      if String.eqb s "vehicles_v2" then Some 0
      else if String.eqb s "equipment_v2" then Some 1
      else if String.eqb s "assets_v1" then Some 2
      else Some 99
  | JArr _ | JObj _ => None   (* unhashable: [order.get] raises TypeError *)
  | _ => Some 99
  end.

(** [_category_rank(rec.get("source_category", ""))] *)
Definition rank_of (r : dict) : option Z :=
  _category_rank (py_get_default r "source_category" (JStr "")).

(** The key computed for one record inside the loop. *)
Definition dedup_key (rec : dict) : option dkey :=
  let ext_id := py_get rec "external_id" in
  let lat := py_get rec "latitude" in
  let lon := py_get rec "longitude" in
  let name := py_or (py_get rec "name") (JStr "") in
  if truthy ext_id then Some (KId (py_str ext_id))
  else if is_none lat || is_none lon then Some (KNameOnly (py_str name))
  else
    flat <- py_float lat ;;
    flon <- py_float lon ;;
    Some (KNameLatLon (py_str name) (py_round5 flat) (py_round5 flon)).

(** The dict [by_key]: an association list in insertion order. *)
Fixpoint bk_lookup (k : dkey) (m : list (dkey * dict)) : option dict :=
  match m with
  | [] => None
  | (k', v) :: m' => if dkey_eq_dec k k' then Some v else bk_lookup k m'
  end.

(** [by_key[k] = v]: overwrite in place, or append a new key at the end. *)
Fixpoint bk_set (k : dkey) (v : dict) (m : list (dkey * dict)) : list (dkey * dict) :=
  match m with
  | [] => [(k, v)]
  | (k', v') :: m' => if dkey_eq_dec k k' then (k', v) :: m' else (k', v') :: bk_set k v m'
  end.

(** One iteration of the [for rec in records] loop. *)
Definition dedupe_step (by_key : list (dkey * dict)) (rec : dict)
  : option (list (dkey * dict)) :=
  key <- dedup_key rec ;;
  let existing := match bk_lookup key by_key with Some e => JObj e | None => JNull end in
  if negb (truthy existing) then Some (bk_set key rec by_key)
  else
    match existing with
    | JObj e =>
        old_rank <- rank_of e ;;
        new_rank <- rank_of rec ;;
        if new_rank <? old_rank then Some (bk_set key rec by_key) else Some by_key
    | _ => Some by_key
    end.

Fixpoint dedupe_loop (by_key : list (dkey * dict)) (records : list dict)
  : option (list (dkey * dict)) :=
  match records with
  | [] => Some by_key
  | rec :: rest => bk <- dedupe_step by_key rec ;; dedupe_loop bk rest
  end.

(** [return list(by_key.values())] *)
Definition dedupe_normalized_locations (records : list dict) : option (list dict) :=
  bk <- dedupe_loop [] records ;; Some (map snd bk).

End Dedupe.

(* ------------------------------------------------------------------ *)
(** ** Samsara normalization (samsara_normalizer.py) *)

(** The dict returned by the two location extractors. *)
Record LocInfo : Type := mk_locinfo {
  li_latitude : JVal;
  li_longitude : JVal;
  li_timestamp_utc : JVal;
  li_speed_kph : JVal
}.

(** The mph to km/h factor [1.60934]. *)
Definition MPH_TO_KPH : Q := 160934 # 100000.

Section SamsaraNormalizer.
Context `{PyRuntime}.

(** The two extractors and [normalize_location_record] return
    [Some None] where the source returns [None], and [None] when an
    exception escapes them. *)
Definition _extract_location_common (raw : dict) : option (option LocInfo) :=
  let loc := py_or (py_get raw "location") (py_get raw "lastKnownLocation") in
  match loc with
  | JObj loc =>
      let lat := py_get loc "latitude" in
      let lon := py_get loc "longitude" in
      let ts := py_or (py_get loc "time") (py_or (py_get loc "timeMs") (py_get loc "updatedAt")) in
      if is_none lat || is_none lon || is_none ts then Some None
      else
        let speed := py_or (py_get loc "speedKph")
                       (py_or (py_get loc "speed") (py_get loc "speedMilesPerHour")) in
        let speed := match speed with JObj w => py_get w "value" | _ => speed end in
        speed <-
          match dict_lookup loc "speedMilesPerHour" with
          | Some v =>
              match py_float_res v with
              | FloatOk mph => Some (JFloat (mph * MPH_TO_KPH)%Q)
              | FloatCaught => Some speed    (* except (TypeError, ValueError): pass *)
              | FloatOverflow => None        (* OverflowError is not caught *)
              end
          | None => Some speed
          end ;;
        Some (Some (mk_locinfo lat lon ts speed))
  | _ => Some None
  end.

Definition _extract_location_from_v1_asset (raw : dict) : option (option LocInfo) :=
  match py_get_default raw "location" (JArr []) with
  | JArr (JObj loc :: _) =>
      let lat := py_get loc "latitude" in
      let lon := py_get loc "longitude" in
      let ts := py_or (py_get loc "time") (py_get loc "timeMs") in
      if is_none lat || is_none lon || is_none ts then Some None
      else
        let speed := py_get loc "speedMilesPerHour" in
        speed_kph <-
          (if is_none speed then Some JNull
           else match py_float_res speed with
                | FloatOk mph => Some (JFloat (mph * MPH_TO_KPH)%Q)
                | FloatCaught => Some JNull    (* except (TypeError, ValueError) *)
                | FloatOverflow => None        (* OverflowError is not caught *)
                end) ;;
        Some (Some (mk_locinfo lat lon ts speed_kph))
  | _ => Some None  (* not a non-empty list, or its first element is not a dict *)
  end.

Definition normalize_location_record (raw : dict) (category : string) : option (option dict) :=
  let external_id :=
    py_or (py_get raw "id") (py_or (py_get raw "assetId") (py_get raw "assetSerialNumber")) in
  if is_none external_id then Some None
  else
    let external_id := py_str external_id in
    let name := py_or (py_get raw "name") (JStr external_id) in
    let vtype := py_or (py_get raw "vehicleType") (py_or (py_get raw "assetType") (py_get raw "type")) in
    let loc_info :=
      if String.eqb category "vehicles_v2" || String.eqb category "equipment_v2"
      then _extract_location_common raw
      else if String.eqb category "assets_v1" then _extract_location_from_v1_asset raw
      else Some None in
    loc_info <- loc_info ;;
    match loc_info with
    | None => Some None
    | Some li =>
    Some (Some [("external_id", JStr external_id);
          ("source_system", JStr "samsara");
          ("source_category", JStr category);
          ("name", name);
          ("vehicle_type", vtype);
          ("latitude", li_latitude li);
          ("longitude", li_longitude li);
          ("speed_kph", li_speed_kph li);
          ("timestamp_utc", li_timestamp_utc li);
          ("raw", JObj raw)])
    end.

End SamsaraNormalizer.

(* ------------------------------------------------------------------ *)
(** ** CAT normalization (cat_client.py) *)

Section CatNormalizer.
Context `{PyRuntime}.

(** [raw.get(k, {}) or {}] followed by a [.get] on the result: a truthy
    value that is not a dict raises AttributeError. *)
Definition sub_dict (raw : dict) (k : string) : option dict :=
  match py_or (py_get_default raw k (JObj [])) (JObj []) with
  | JObj d => Some d
  | _ => None
  end.

Definition normalize_cat_position (raw : dict) : option dict :=
  header <- sub_dict raw "EquipmentHeader" ;;
  loc <- sub_dict raw "Location" ;;
  dist <- sub_dict raw "Distance" ;;
  let equipment_id := py_get header "EquipmentID" in
  let serial := py_get header "SerialNumber" in
  let model := py_get header "Model" in
  let external_id := py_str (py_or equipment_id (py_or serial (JStr "unknown"))) in
  let name :=
    if truthy equipment_id then equipment_id
    else if truthy serial then serial
    else if truthy model then model
    else JStr ("CAT asset " ++ external_id) in
  let vtype := model in
  let lat := py_get loc "Latitude" in
  let lon := py_get loc "Longitude" in
  let odometer_km := py_get dist "Odometer" in
  let ts := py_or (py_get loc "datetime") (py_or (py_get dist "datetime") (py_get raw "SnapshotTime")) in
  Some [("external_id", JStr external_id);
        ("source_system", JStr "cat");
        ("name", name);
        ("vehicle_type", vtype);
        ("latitude", lat);
        ("longitude", lon);
        ("heading", JNull);
        ("speed_kph", JNull);
        ("odometer_km", odometer_km);
        ("timestamp_utc", ts);
        ("raw", JObj raw)].

End CatNormalizer.

(* ------------------------------------------------------------------ *)
(** ** [is_position_fresh] (vehicles_to_supabase_sync.py) *)

Definition POSITION_FRESHNESS_HOURS : Z := 336.

Definition MICROS_PER_HOUR : Z := 3600000000.

(** [datetime.max] is 9999-12-31T23:59:59.999999, day ordinal 3652059. *)
Definition DATETIME_MAX_WALL : Z := 3652059 * 86400000000 - 1.

(** [timedelta.max.days] *)
Definition TIMEDELTA_MAX_DAYS : Z := 999999999.

(** The Python value passed as [timestamp_utc]. *)
Inductive PyTs : Type :=
| TsNone
| TsStr (s : string)
| TsDatetime (d : datetime)
| TsOther (v : JVal).    (* a value with no [tzinfo] attribute: int, float, list, dict *)

(** [rec.get("timestamp_utc")] of a record read from JSON. *)
Definition ts_of_json (v : JVal) : PyTs :=
  match v with
  | JNull => TsNone
  | JStr s => TsStr s
  | _ => TsOther v
  end.

(** [datetime.now(timezone.utc) - timedelta(hours=max_age_hours)], as a UTC
    wall clock; [None] when [timedelta] or the subtraction raises
    OverflowError. *)
Definition cutoff_of (now_utc max_age_hours : Z) : option Z :=
  if Z.abs (max_age_hours / 24) >? TIMEDELTA_MAX_DAYS then None
  else
    let c := now_utc - max_age_hours * MICROS_PER_HOUR in
    if (c <? 0) || (DATETIME_MAX_WALL <? c) then None else Some c.

(** The UTC instant of an aware datetime. *)
Definition utc_instant (d : datetime) : Z :=
  match dt_offset d with Some off => dt_wall d - off | None => dt_wall d end.

Section Freshness.
Context `{PyRuntime}.

(** [is_position_fresh(timestamp_utc, max_age_hours)] evaluated at the
    instant [now_utc]; every exception is caught and yields [false]. *)
Definition is_position_fresh (now_utc : Z) (timestamp_utc : PyTs) (max_age_hours : Z) : bool :=
  match timestamp_utc with
  | TsNone => false
  | _ =>
      let parsed :=
        match timestamp_utc with
        | TsStr s => dateutil_parse s
        | TsDatetime d => Some d
        | _ => None                  (* [ts.tzinfo] raises AttributeError *)
        end in
      match parsed with
      | None => false
      | Some ts =>
          let ts := match dt_offset ts with
                    | None => mk_datetime (dt_wall ts) (Some 0)
                    | Some _ => ts
                    end in
          match cutoff_of now_utc max_age_hours with
          | None => false
          | Some cutoff => utc_instant ts >=? cutoff
          end
      end
  end.

End Freshness.

(* ------------------------------------------------------------------ *)
(** ** The store (supabase_db.py) *)

(** Structural equality of JSON values, as the database compares them. *)
Fixpoint jval_eqb (a b : JVal) {struct a} : bool :=
  match a, b with
  | JNull, JNull => true
  | JBool x, JBool y => Bool.eqb x y
  | JInt x, JInt y => Z.eqb x y
  | JFloat x, JFloat y => Qeq_bool x y
  | JStr x, JStr y => String.eqb x y
  | JArr xs, JArr ys =>
      (fix go (xs ys : list JVal) : bool :=
         match xs, ys with
         | [], [] => true
         | x :: xs', y :: ys' => jval_eqb x y && go xs' ys'
         | _, _ => false
         end) xs ys
  | JObj fs, JObj gs =>
      (fix go (fs gs : list (string * JVal)) : bool :=
         match fs, gs with
         | [], [] => true
         | (k, x) :: fs', (k', y) :: gs' => String.eqb k k' && jval_eqb x y && go fs' gs'
         | _, _ => false
         end) fs gs
  | _, _ => false
  end.

(** The unique key [(organization_id, external_id, source_system)]. *)
Definition identity : Type := (string * JVal * JVal)%type.

Definition identity_eqb (a b : identity) : bool :=
  match a, b with
  | (o, e, s), (o', e', s') => String.eqb o o' && jval_eqb e e' && jval_eqb s s'
  end.

Record VehicleRow : Type := mk_vehicle_row {
  vr_id : nat;
  vr_is_deleted : bool;
  vr_name : JVal;
  vr_type : JVal;
  vr_last_seen_at : Z
}.

Record PositionRow : Type := mk_position_row {
  pos_organization_id : string;
  pos_latitude : JVal;
  pos_longitude : JVal;
  pos_speed_kph : JVal;
  pos_timestamp_utc : JVal;   (* the value handed to [_ensure_datetime_utc] *)
  pos_source_raw : JVal
}.

Record Store : Type := mk_store {
  st_vehicles : list (identity * VehicleRow);
  st_next_id : nat;                        (* the id the database assigns next *)
  st_positions : list (nat * PositionRow)  (* one row per vehicle_id *)
}.

Fixpoint vehicle_lookup (i : identity) (vs : list (identity * VehicleRow)) : option VehicleRow :=
  match vs with
  | [] => None
  | (i', r) :: vs' => if identity_eqb i i' then Some r else vehicle_lookup i vs'
  end.

Fixpoint vehicle_put (i : identity) (r : VehicleRow) (vs : list (identity * VehicleRow))
  : list (identity * VehicleRow) :=
  match vs with
  | [] => [(i, r)]
  | (i', r') :: vs' => if identity_eqb i i' then (i', r) :: vs' else (i', r') :: vehicle_put i r vs'
  end.

(** [upsert_vehicle]: [None] when the existing row is soft-deleted; otherwise
    the upsert on [(organization_id, external_id, source_system)], where
    [None] values are dropped from the written data (the column keeps its
    value, [is_deleted] is never written), and the row's id. *)
Definition upsert_vehicle (now : Z) (st : Store) (organization_id : string)
    (external_id source_system name vtype : JVal) : option nat * Store :=
  let i := (organization_id, external_id, source_system) in
  match vehicle_lookup i (st_vehicles st) with
  | Some row =>
      if vr_is_deleted row then (None, st)
      else
        let row' := mk_vehicle_row (vr_id row) (vr_is_deleted row)
                      (if is_none name then vr_name row else name)
                      (if is_none vtype then vr_type row else vtype) now in
        (Some (vr_id row),
         mk_store (vehicle_put i row' (st_vehicles st)) (st_next_id st) (st_positions st))
  | None =>
      let row := mk_vehicle_row (st_next_id st) false name vtype now in
      (Some (st_next_id st),
       mk_store (vehicle_put i row (st_vehicles st)) (S (st_next_id st)) (st_positions st))
  end.

Fixpoint position_put (vid : nat) (p : PositionRow) (ps : list (nat * PositionRow))
  : list (nat * PositionRow) :=
  match ps with
  | [] => [(vid, p)]
  | (v, p') :: ps' => if Nat.eqb vid v then (v, p) :: ps' else (v, p') :: position_put vid p ps'
  end.

(** [insert_position]: upsert on the unique [vehicle_id]. *)
Definition insert_position (st : Store) (organization_id : string) (vehicle_id : nat)
    (lat lon speed_kph timestamp_utc source_raw : JVal) : Store :=
  mk_store (st_vehicles st) (st_next_id st)
    (position_put vehicle_id
       (mk_position_row organization_id lat lon speed_kph timestamp_utc source_raw)
       (st_positions st)).

(* ------------------------------------------------------------------ *)
(** ** One sync pass ([run_sync_once], vehicles_to_supabase_sync.py) *)

(** [ORGANIZATION_ID] *)
Definition ORGANIZATION_ID : string := "04d92433-6958-4b6c-a0fb-68d59fca8104".

(** What the provider adapters return during the pass: the raw items of each
    paginated fetch, or [None] when the fetch raises (HTTP error status,
    timeout, missing token, unexpected payload: [SamsaraError],
    [CatAuthError], [CatApiError], [requests] exceptions).  [env_cat] holds
    the raw [Equipment] items of all CAT pages.  [env_now] is the instant of
    [datetime.now(timezone.utc)] during the pass. *)
Record SyncEnv : Type := mk_env {
  env_vehicles : option (list dict);    (* fetch_vehicle_locations() *)
  env_equipment : option (list dict);   (* fetch_equipment_locations() *)
  env_assets_v1 : option (list dict);   (* fetch_assets_locations_v1() *)
  env_cat : option (list dict);         (* the CAT pages of fetch_cat_positions() *)
  env_now : Z
}.

(** The counters the pass prints. *)
Record SyncReport : Type := mk_report {
  rep_skipped_normalize : nat;
  rep_normalized : nat;
  rep_deduped : nat;
  rep_stale : nat;
  rep_inserted_positions : nat;
  rep_skipped_deleted : nat
}.

Section Sync.
Context `{PyRuntime}.

Fixpoint mapM {A B : Type} (f : A -> option B) (xs : list A) : option (list B) :=
  match xs with
  | [] => Some []
  | x :: xs' => y <- f x ;; ys <- mapM f xs' ;; Some (y :: ys)
  end.

(** [fetch_all_location_payloads()]: the three fetches in order; the first
    one that raises propagates. *)
Definition fetch_all_location_payloads (env : SyncEnv)
  : option (list dict * list dict * list dict) :=
  vehicles <- env_vehicles env ;;
  equipment <- env_equipment env ;;
  assets_v1 <- env_assets_v1 env ;;
  Some (vehicles, equipment, assets_v1).

(** [fetch_cat_positions()]: every page's items normalized as they arrive. *)
Definition fetch_cat_positions (env : SyncEnv) : option (list dict) :=
  items <- env_cat env ;; mapM normalize_cat_position items.

(** One normalization loop: the records kept and the number skipped, or
    [None] when [normalize_location_record] raises on an item. *)
Fixpoint normalize_all (category : string) (items : list dict) : option (list dict * nat) :=
  match items with
  | [] => Some ([], 0%nat)
  | item :: rest =>
      match normalize_location_record item category with
      | None => None
      | Some rec =>
          match normalize_all category rest with
          | None => None
          | Some (recs, skipped) =>
              match rec with
              | Some rec => if truthy (JObj rec) then Some (rec :: recs, skipped)
                            else Some (recs, S skipped)
              | None => Some (recs, S skipped)
              end
          end
      end
  end.

(** The [for rec in fresh_records] loop; the store is returned also when a
    [rec[...]] lookup raises KeyError part-way. *)
Fixpoint persist_records (now : Z) (st : Store) (recs : list dict) (inserted skipped : nat)
  : Store * option (nat * nat) :=
  match recs with
  | [] => (st, Some (inserted, skipped))
  | rec :: rest =>
      match dict_lookup rec "external_id", dict_lookup rec "source_system",
            dict_lookup rec "name" with
      | Some ext, Some src, Some name =>
          let '(vehicle_id, st1) :=
            upsert_vehicle now st ORGANIZATION_ID ext src name (py_get rec "vehicle_type") in
          match vehicle_id with
          | None => persist_records now st1 rest inserted (S skipped)
          | Some vid =>
              match dict_lookup rec "latitude", dict_lookup rec "longitude",
                    dict_lookup rec "speed_kph", dict_lookup rec "timestamp_utc",
                    dict_lookup rec "raw" with
              | Some lat, Some lon, Some speed, Some ts, Some raw =>
                  persist_records now
                    (insert_position st1 ORGANIZATION_ID vid lat lon speed ts raw)
                    rest (S inserted) skipped
              | _, _, _, _, _ => (st1, None)
              end
          end
      | _, _, _ => (st, None)
      end
  end.

Definition is_fresh_record (now : Z) (rec : dict) : bool :=
  is_position_fresh now (ts_of_json (py_get rec "timestamp_utc")) POSITION_FRESHNESS_HOURS.

(** [run_sync_once()]: the report, or [None] when an exception escapes the
    pass, together with the store afterwards. *)
Definition run_sync_once (env : SyncEnv) (st : Store) : option SyncReport * Store :=
  match fetch_all_location_payloads env with
  | None => (None, st)
  | Some (vehicles_raw, equipment_raw, assets_v1_raw) =>
      match normalize_all "vehicles_v2" vehicles_raw, normalize_all "equipment_v2" equipment_raw,
            normalize_all "assets_v1" assets_v1_raw with
      | None, _, _ | _, None, _ | _, _, None => (None, st)
      | Some (v_recs, v_skip), Some (e_recs, e_skip), Some (a_recs, a_skip) =>
      match fetch_cat_positions env with
      | None => (None, st)
      | Some cat_records =>
          let normalized := (v_recs ++ e_recs ++ a_recs ++ cat_records)%list in
          match dedupe_normalized_locations normalized with
          | None => (None, st)
          | Some deduped =>
              let fresh_records := filter (is_fresh_record (env_now env)) deduped in
              let stale_records := filter (fun r => negb (is_fresh_record (env_now env) r)) deduped in
              (* the stale report prints [rec['name']] *)
              if negb (forallb (fun r => match dict_lookup r "name" with
                                         | Some _ => true | None => false end) stale_records)
              then (None, st)
              else
                let '(st', counts) := persist_records (env_now env) st fresh_records 0 0 in
                match counts with
                | None => (None, st')
                | Some (inserted, skipped_deleted) =>
                    (Some (mk_report (v_skip + e_skip + a_skip)
                             (length normalized) (length deduped) (length stale_records)
                             inserted skipped_deleted), st')
                end
          end
      end
      end
  end.

End Sync.

(* ------------------------------------------------------------------ *)
(** ** Nearest job site *)

(** [find_nearest_job] (samsara_to_supabase_sync.py).  The great-circle
    formula [haversine_km] is evaluated in floating point with [sin], [cos]
    and [atan2]; the model takes it as a parameter, and the scan does not
    depend on how it computes. *)
Section FindNearestJob.
Context `{PyRuntime}.
Variable haversine_km : Q -> Q -> Q -> Q -> Q.

(** The [for job in jobs] loop over [(best_job, best_distance)]. *)
Fixpoint nearest_scan (vehicle_lat vehicle_lon : Q) (best : option (dict * Q)) (jobs : list dict)
  : option (option (dict * Q)) :=
  match jobs with
  | [] => Some best
  | job :: rest =>
      let jlat := py_get job "latitude" in
      let jlon := py_get job "longitude" in
      if is_none jlat || is_none jlon then nearest_scan vehicle_lat vehicle_lon best rest
      else
        flat <- py_float jlat ;;
        flon <- py_float jlon ;;
        let d := haversine_km vehicle_lat vehicle_lon flat flon in
        match best with
        | Some (_, best_distance) =>
            if Qlt_bool d best_distance
            then nearest_scan vehicle_lat vehicle_lon (Some (job, d)) rest
            else nearest_scan vehicle_lat vehicle_lon best rest
        | None => nearest_scan vehicle_lat vehicle_lon (Some (job, d)) rest
        end
  end.

(** The nearest job, [None] inside when there is none within
    [max_distance_km]; [None] outside when [float] raises. *)
Definition find_nearest_job (vehicle_lat vehicle_lon : Q) (jobs : list dict)
    (max_distance_km : Q) : option (option dict) :=
  best <- nearest_scan vehicle_lat vehicle_lon None jobs ;;
  match best with
  | Some (best_job, best_distance) =>
      if Qle_bool best_distance max_distance_km then Some (Some best_job) else Some None
  | None => Some None
  end.

End FindNearestJob.

(** [assign_to_jobs] (app.py), for the rows of the vehicles frame.  The job
    frame's columns [job_id], [job_name], [latitude], [longitude]. *)
Record JobRow : Type := mk_job_row {
  jr_job_id : string;
  jr_job_name : string;
  jr_latitude : Q;
  jr_longitude : Q
}.

(** The columns [assign_to_jobs] adds to a vehicle row. *)
Record Assignment : Type := mk_assignment {
  nearest_job_id : string;
  nearest_job_name : string;
  nearest_distance_mi : Q;
  assigned_bucket : string
}.

(** [np.argmin]: the first index of the minimum; ValueError on an empty array. *)
Fixpoint argmin_from (i best_i : nat) (best : Q) (ds : list Q) : nat :=
  match ds with
  | [] => best_i
  | d :: ds' => if Qlt_bool d best then argmin_from (S i) i d ds' else argmin_from (S i) best_i best ds'
  end.

Definition np_argmin (ds : list Q) : option nat :=
  match ds with
  | [] => None
  | d :: ds' => Some (argmin_from 1 0 d ds')
  end.

(** [np.round(x, 3)]: round half to even at three decimals. *)
Definition np_round3 (x : Q) : Q :=
  let m := round_half_even (Z.abs (Qnum x) * 1000) (Zpos (Qden x)) in
  if Qnum x <? 0 then (- (m # 1000))%Q else (m # 1000)%Q.

Section AssignToJobs.
Variable haversine_miles : Q -> Q -> Q -> Q -> Q.

(** One row of the [for _, row in v.iterrows()] loop followed by the
    [np.round] and [np.where] columns. *)
Definition assign_row (threshold_miles : Q) (jobs : list JobRow) (row : Q * Q) : option Assignment :=
  let '(lat, lon) := row in
  let dists := map (fun j => haversine_miles lat lon (jr_latitude j) (jr_longitude j)) jobs in
  idx <- np_argmin dists ;;
  j <- nth_error jobs idx ;;
  d <- nth_error dists idx ;;
  let dist_rounded := np_round3 d in
  Some (mk_assignment (jr_job_id j) (jr_job_name j) dist_rounded
          (if Qle_bool dist_rounded threshold_miles then jr_job_name j else "Other")).

Definition assign_to_jobs (vehicles_latest : list (Q * Q)) (jobs : list JobRow)
    (threshold_miles : Q) : option (list Assignment) :=
  mapM (assign_row threshold_miles jobs) vehicles_latest.

End AssignToJobs.

(* ------------------------------------------------------------------ *)
(** ** [normalize_vehicle_record] (samsara_client.py) *)

Section VehicleStats.
Context `{PyRuntime}.

(** One record of [/fleet/vehicles/stats?types=gps] as the flat dict of the
    old sync; [Some None] where the source returns [None], [None] when an
    exception escapes. *)
Definition normalize_vehicle_record (raw : dict) : option (option dict) :=
  let external_id := py_get raw "id" in
  if is_none external_id then Some None
  else
    let external_id := py_str external_id in
    let name := py_or (py_get raw "name") (JStr external_id) in
    let vtype := py_or (py_get raw "vehicleType") (py_get raw "type") in
    let gps := py_or (py_get raw "gps") (py_get raw "gpsLocation") in
    if negb (truthy gps) then Some None
    else
      match gps with
      | JObj gps =>
          let lat := py_get gps "latitude" in
          let lon := py_get gps "longitude" in
          let ts := py_or (py_get gps "time") (py_get gps "receivedAt") in
          if is_none lat || is_none lon || is_none ts then Some None
          else
            let speed := py_get gps "speed" in
            let speed := match speed with JObj s => py_get s "value" | _ => speed end in
            let heading := py_or (py_get gps "heading") (py_get gps "bearing") in
            let odo := py_or (py_get raw "obdOdometerMeters") (py_get raw "gpsOdometerMeters") in
            let meters := match odo with JObj o => py_get o "value" | _ => odo end in
            odometer_km <-
              (if is_none meters then Some JNull
               else match py_float_res meters with
                    | FloatOk m => Some (JFloat (m / 1000)%Q)
                    | FloatCaught => Some JNull    (* except (TypeError, ValueError) *)
                    | FloatOverflow => None        (* OverflowError is not caught *)
                    end) ;;
            Some (Some [("external_id", JStr external_id);
                  ("source_system", JStr "samsara");
                  ("name", name);
                  ("vehicle_type", vtype);
                  ("latitude", lat);
                  ("longitude", lon);
                  ("heading", heading);
                  ("speed_kph", speed);
                  ("odometer_km", odometer_km);
                  ("timestamp_utc", ts);
                  ("raw", JObj raw)])
      | _ => Some None             (* [not isinstance(gps, dict)] *)
      end.

End VehicleStats.

(* ------------------------------------------------------------------ *)
(** ** [_fetch_paginated] (samsara_client.py) *)

Definition SAMSARA_BASE_URL : string := "https://api.samsara.com".

(** [d[k] = v] on a Python dict: overwrite in place or append. *)
Fixpoint dict_set (d : dict) (k : string) (v : JVal) : dict :=
  match d with
  | [] => [(k, v)]
  | (k', v') :: d' => if String.eqb k k' then (k', v) :: d' else (k', v') :: dict_set d' k v
  end.

(** [d.setdefault(k, v)] *)
Definition dict_setdefault (d : dict) (k : string) (v : JVal) : dict :=
  match dict_lookup d k with Some _ => d | None => dict_set d k v end.

(** How the [while True] loop ends: with the items, with an exception
    ([SamsaraError], a [requests] error, an AttributeError on an unexpected
    payload), or not within the pages the fuel allows. *)
Inductive PageRun : Type :=
| PagesDone (items : list JVal)
| PagesRaised
| PagesPending.

Section FetchPaginated.
(** [requests.get(url, params=params)]: [None] when it raises, otherwise the
    status code and the body's JSON ([None] when [resp.json()] raises). *)
Variable http_get : string -> dict -> option (Z * option JVal).

Fixpoint paginate_loop (fuel : nat) (url data_key : string) (params : dict)
    (next_cursor : JVal) (all_items : list JVal) : PageRun :=
  match fuel with
  | O => PagesPending
  | S fuel' =>
      let params := if truthy next_cursor then dict_set params "after" next_cursor else params in
      match http_get url params with
      | None => PagesRaised
      | Some (status, body) =>
          if negb (status =? 200) then PagesRaised
          else
            match body with
            | Some (JObj payload) =>
                match py_get_default payload data_key (JArr []) with
                | JArr items =>
                    let all_items := (all_items ++ items)%list in
                    match py_or (py_get payload "pagination") (JObj []) with
                    | JObj pagination =>
                        let next_cursor :=
                          py_or (py_get pagination "after") (py_get pagination "endCursor") in
                        let has_next :=
                          py_get_default pagination "hasNextPage" (JBool (truthy next_cursor)) in
                        if negb (truthy next_cursor) || negb (truthy has_next)
                        then PagesDone all_items
                        else paginate_loop fuel' url data_key params next_cursor all_items
                    | _ => PagesRaised          (* [.get] on a non-dict *)
                    end
                | _ => PagesRaised              (* SamsaraError: not a list *)
                end
            | _ => PagesRaised                  (* [.json()] fails or [.get] on a non-dict *)
            end
      end
  end.

(** [_fetch_paginated(path, data_key, params, limit)] with the token
    [SAMSARA_API_TOKEN]. *)
Definition _fetch_paginated (fuel : nat) (api_token : option string)
    (path data_key : string) (params : option dict) (limit : Z) : PageRun :=
  let params := match params with Some p => p | None => [] end in
  let url := (SAMSARA_BASE_URL ++ path)%string in
  match api_token with
  | Some tok =>
      if String.eqb tok "" then PagesRaised      (* _get_headers: SamsaraError *)
      else paginate_loop fuel url data_key (dict_setdefault params "limit" (JInt limit)) JNull []
  | None => PagesRaised
  end.

End FetchPaginated.

(* ------------------------------------------------------------------ *)
(** ** CAT paging (cat_client.py) *)

(** [s.lower() == "next"]: [lower] maps no character other than an ASCII
    capital to an ASCII letter, so lowering the ASCII capitals decides it. *)
Definition ascii_lower (c : Ascii.ascii) : Ascii.ascii :=
  let n := Ascii.nat_of_ascii c in
  if (65 <=? n)%nat && (n <=? 90)%nat then Ascii.ascii_of_nat (n + 32) else c.

Fixpoint string_lower_ascii (s : string) : string :=
  match s with
  | EmptyString => EmptyString
  | String c s' => String (ascii_lower c) (string_lower_ascii s')
  end.

(** [s.rstrip(c)] for one character [c]. *)
Fixpoint rstrip_char (c : Ascii.ascii) (s : string) : string :=
  match s with
  | EmptyString => EmptyString
  | String c' s' =>
      match rstrip_char c s' with
      | EmptyString => if Ascii.eqb c c' then EmptyString else String c' EmptyString
      | r => String c' r
      end
  end.

(** The text after the last [sep], if [s] contains one. *)
Fixpoint after_last_sep (sep : Ascii.ascii) (s : string) : option string :=
  match s with
  | EmptyString => None
  | String c s' =>
      match after_last_sep sep s' with
      | Some r => Some r
      | None => if Ascii.eqb c sep then Some s' else None
      end
  end.

(** [s.split(sep)[-1]] *)
Definition split_last (sep : Ascii.ascii) (s : string) : string :=
  match after_last_sep sep s with Some r => r | None => s end.

Section CatPaging.
Context `{PyRuntime}.

Definition _extract_items_from_fleet_json (data : JVal) : list JVal :=
  match data with
  | JObj d =>
      match py_get d "Equipment" with
      | JArr xs => xs
      | _ =>
          (fix fallback (keys : list string) : list JVal :=
             match keys with
             | [] => []
             | k :: ks => match dict_lookup d k with Some (JArr xs) => xs | _ => fallback ks end
             end) ["assets"; "items"; "fleet"; "machines"; "data"]
      end
  | JArr xs => xs
  | _ => []
  end.

(** [urlparse(href).path] and [int(s)], [None] when they raise. *)
Variable url_path : string -> option string.
Variable int_of_string : string -> option Z.

(** The [for link in links] loop of [_get_next_page_number]; the outer
    [None] is the AttributeError of [link.get] on a non-dict, which is
    outside the [try]. *)
Fixpoint next_page_from_links (links : list JVal) : option (option Z) :=
  match links with
  | [] => Some None
  | JObj link :: rest =>
      let rel := string_lower_ascii (py_str (py_get_default link "Rel" (JStr ""))) in
      match py_get link "Href" with
      | JStr href =>
          if String.eqb rel "next" then
            Some (path <- url_path href ;;
                  int_of_string (split_last "/"%char (rstrip_char "/"%char path)))
          else next_page_from_links rest
      | _ => next_page_from_links rest
      end
  | _ :: _ => None
  end.

Definition _get_next_page_number (data : JVal) : option (option Z) :=
  match data with
  | JObj d =>
      match py_get d "Links" with
      | JArr links => next_page_from_links links
      | _ => Some None
      end
  | _ => Some None
  end.

(** [normalize_cat_position(item)] on an item of the page. *)
Definition normalize_cat_item (item : JVal) : option dict :=
  match item with JObj raw => normalize_cat_position raw | _ => None end.

(** [fetch_cat_raw_fleet_page(n)]: the page's JSON, [None] when it raises. *)
Variable fetch_page : Z -> option JVal.

(** The [for _ in range(max_pages)] loop. *)
Fixpoint cat_pages (n : nat) (current_page : Z) (all_items : list dict) : option (list dict) :=
  match n with
  | O => Some all_items
  | S n' =>
      raw_data <- fetch_page current_page ;;
      items <- mapM normalize_cat_item (_extract_items_from_fleet_json raw_data) ;;
      let all_items := (all_items ++ items)%list in
      next_page <- _get_next_page_number raw_data ;;
      match next_page with
      | None => Some all_items
      | Some p => if p =? 0 then Some all_items else cat_pages n' p all_items
      end
  end.

Definition fetch_cat_positions_paged (start_page max_pages : Z) : option (list dict) :=
  cat_pages (Z.to_nat max_pages) start_page [].

End CatPaging.

(* ------------------------------------------------------------------ *)
(** ** [_ensure_datetime_utc] (supabase_db.py) *)

(** 1970-01-01T00:00 as a wall clock. *)
Definition EPOCH_WALL : Z := 719162 * 86400000000.

(** [str.isspace] on the characters 0-255. *)
Definition is_py_space (c : Ascii.ascii) : bool :=
  let n := Ascii.nat_of_ascii c in
  ((9 <=? n) && (n <=? 13))%nat || ((28 <=? n) && (n <=? 32))%nat
  || (n =? 133)%nat || (n =? 160)%nat.

Fixpoint lstrip_ws (s : string) : string :=
  match s with
  | EmptyString => EmptyString
  | String c s' => if is_py_space c then lstrip_ws s' else s
  end.

Fixpoint rstrip_ws (s : string) : string :=
  match s with
  | EmptyString => EmptyString
  | String c s' =>
      match rstrip_ws s' with
      | EmptyString => if is_py_space c then EmptyString else String c EmptyString
      | r => String c r
      end
  end.

(** [s.strip()] *)
Definition py_strip (s : string) : string := rstrip_ws (lstrip_ws s).

(** [s.endswith("Z")] *)
Fixpoint ends_with_Z (s : string) : bool :=
  match s with
  | EmptyString => false
  | String c EmptyString => Ascii.eqb c "Z"%char
  | String _ s' => ends_with_Z s'
  end.

(** [s[:-1]] *)
Fixpoint drop_last (s : string) : string :=
  match s with
  | EmptyString => EmptyString
  | String _ EmptyString => EmptyString
  | String c s' => String c (drop_last s')
  end.

(** [x * 10^6] rounded half to even, with its sign. *)
Definition round_micros (x : Q) : Z :=
  let m := round_half_even (Z.abs (Qnum x) * 1000000) (Zpos (Qden x)) in
  if Qnum x <? 0 then - m else m.

(** [datetime.fromtimestamp(value, tz=timezone.utc)]; [None] when the year
    falls outside 1..9999 (ValueError, OverflowError). *)
Definition fromtimestamp_utc (value : Q) : option datetime :=
  let wall := EPOCH_WALL + round_micros value in
  if (wall <? 0) || (DATETIME_MAX_WALL <? wall) then None else Some (mk_datetime wall (Some 0)).

(** [if value > 1e12: value = value / 1000.0] *)
Definition epoch_seconds (value : Q) : Q :=
  if Qlt_bool (inject_Z (10 ^ 12)) value then (value / 1000)%Q else value.

(** [dt.astimezone(timezone.utc)] of an aware datetime. *)
Definition astimezone_utc (d : datetime) : option datetime :=
  let u := utc_instant d in
  if (u <? 0) || (DATETIME_MAX_WALL <? u) then None else Some (mk_datetime u (Some 0)).

Section EnsureDatetime.
Context `{PyRuntime}.
(** [datetime.fromisoformat(s)], [None] when it raises. *)
Variable fromisoformat : string -> option datetime.

(** The [isinstance(ts, str)] branch: every exception is caught, and the
    last resort is [now]. *)
Definition ensure_from_str (now_utc : Z) (ts : string) : datetime :=
  let s := py_strip ts in
  let s := if ends_with_Z s then (drop_last s ++ "+00:00")%string else s in
  let parsed :=
    dt <- fromisoformat s ;;
    let dt := match dt_offset dt with None => mk_datetime (dt_wall dt) (Some 0) | Some _ => dt end in
    astimezone_utc dt in
  match parsed with
  | Some dt => dt
  | None =>
      match (value <- float_of_string s ;; fromtimestamp_utc (epoch_seconds value)) with
      | Some dt => dt
      | None => mk_datetime now_utc (Some 0)
      end
  end.

(** [_ensure_datetime_utc(ts)] at the instant [now_utc]; [None] when it
    raises. *)
Definition _ensure_datetime_utc (now_utc : Z) (ts : PyTs) : option datetime :=
  match ts with
  | TsDatetime d =>
      match dt_offset d with
      | None => Some (mk_datetime (dt_wall d) (Some 0))
      | Some _ => astimezone_utc d
      end
  | TsStr s | TsOther (JStr s) => Some (ensure_from_str now_utc s)
  | TsOther ((JBool _ | JInt _ | JFloat _) as v) =>     (* bool is an int *)
      value <- py_float v ;; fromtimestamp_utc (epoch_seconds value)
  | _ => Some (mk_datetime now_utc (Some 0))
  end.

End EnsureDatetime.

(* ------------------------------------------------------------------ *)
(** ** Vehicle maintenance (supabase_db.py) *)

(** Python truthiness of an optional string argument. *)
Definition opt_truthy (o : option string) : bool :=
  match o with Some s => negb (String.eqb s "") | None => false end.

Definition opt_jstr (o : option string) : JVal :=
  match o with Some s => JStr s | None => JNull end.

(** The two [ValueError] checks of [delete_vehicle], [soft_delete_vehicle]
    and [restore_vehicle]; a [vehicle_id] is a non-empty uuid. *)
Definition selector_valid (vehicle_id : option nat) (external_id name source_system : option string)
  : bool :=
  (match vehicle_id with Some _ => true | None => false end
   || opt_truthy external_id || opt_truthy name)
  && negb (opt_truthy external_id && negb (opt_truthy source_system)).

(** The filters the query builds after [organization_id]. *)
Definition selector_matches (organization_id : string) (vehicle_id : option nat)
    (external_id name source_system : option string) (e : identity * VehicleRow) : bool :=
  let '((org, ext, src), row) := e in
  String.eqb org organization_id &&
  match vehicle_id with
  | Some vid => Nat.eqb (vr_id row) vid
  | None =>
      if opt_truthy external_id
      then jval_eqb ext (opt_jstr external_id) && jval_eqb src (opt_jstr source_system)
      else jval_eqb (vr_name row) (opt_jstr name) &&
           (if opt_truthy source_system then jval_eqb src (opt_jstr source_system) else true)
  end.

Definition with_is_deleted (flag : bool) (row : VehicleRow) : VehicleRow :=
  mk_vehicle_row (vr_id row) flag (vr_name row) (vr_type row) (vr_last_seen_at row).

(** [update({"is_deleted": to, ...}).eq("is_deleted", from)] with the
    selector: the number of rows updated and the store. *)
Definition update_is_deleted (from to : bool) (st : Store) (organization_id : string)
    (vehicle_id : option nat) (external_id name source_system : option string)
  : option (nat * Store) :=
  if negb (selector_valid vehicle_id external_id name source_system) then None
  else
    let hit (e : identity * VehicleRow) :=
      Bool.eqb (vr_is_deleted (snd e)) from &&
      selector_matches organization_id vehicle_id external_id name source_system e in
    Some (length (filter hit (st_vehicles st)),
          mk_store (map (fun e => if hit e then (fst e, with_is_deleted to (snd e)) else e)
                      (st_vehicles st))
                   (st_next_id st) (st_positions st)).

(** [soft_delete_vehicle]: [None] when it raises ValueError. *)
Definition soft_delete_vehicle := update_is_deleted false true.

(** [restore_vehicle] *)
Definition restore_vehicle := update_is_deleted true false.

(** The rows gone, and their positions (ON DELETE CASCADE). *)
Definition delete_rows (gone : identity * VehicleRow -> bool) (st : Store) : Store :=
  let ids := map (fun e => vr_id (snd e)) (filter gone (st_vehicles st)) in
  mk_store (filter (fun e => negb (gone e)) (st_vehicles st)) (st_next_id st)
           (filter (fun p => negb (existsb (Nat.eqb (fst p)) ids)) (st_positions st)).

(** [delete_vehicle]: whether a row was deleted. *)
Definition delete_vehicle (st : Store) (organization_id : string) (vehicle_id : option nat)
    (external_id name source_system : option string) : option (bool * Store) :=
  if negb (selector_valid vehicle_id external_id name source_system) then None
  else
    let hit := selector_matches organization_id vehicle_id external_id name source_system in
    Some (negb (Nat.eqb (length (filter hit (st_vehicles st))) 0), delete_rows hit st).

Definition MICROS_PER_DAY : Z := 86400000000.

(** [delete_stale_vehicles(organization_id, stale_days)] at the instant
    [now]: the count and the store; [None] when computing the cutoff raises
    OverflowError. *)
Definition delete_stale_vehicles (now : Z) (st : Store) (organization_id : string)
    (stale_days : Z) : option (nat * Store) :=
  if Z.abs stale_days >? TIMEDELTA_MAX_DAYS then None
  else
    let cutoff := now - stale_days * MICROS_PER_DAY in
    if (cutoff <? 0) || (DATETIME_MAX_WALL <? cutoff) then None
    else
      let stale (e : identity * VehicleRow) :=
        let '((org, _, _), row) := e in
        String.eqb org organization_id && (vr_last_seen_at row <? cutoff) in
      let n := length (filter stale (st_vehicles st)) in
      Some (n, if Nat.eqb n 0 then st else delete_rows stale st).

(* ------------------------------------------------------------------ *)
(** ** Reference descriptions used by the statements *)

Section DedupeSpec.
Context `{PyRuntime}.

(** Each record paired with its dedup key; [None] when a key raises. *)
Definition keyed (l : list dict) : option (list (dkey * dict)) :=
  mapM (fun r => k <- dedup_key r ;; Some (k, r)) l.

(** The distinct keys, in the order of their first appearance. *)
Definition first_keys (kl : list (dkey * dict)) : list dkey :=
  rev (nodup dkey_eq_dec (rev (map fst kl))).

(** The records that carry key [k], in input order. *)
Definition group (k : dkey) (kl : list (dkey * dict)) : list dict :=
  map snd (filter (fun p => if dkey_eq_dec (fst p) k then true else false) kl).

Definition rank_total (r : dict) : Z :=
  match rank_of r with Some z => z | None => 99 end.

(** [o] is the first record of [g] of best (lowest) rank. *)
Definition first_min_rank (o : dict) (g : list dict) : Prop :=
  exists pre suf, g = (pre ++ o :: suf)%list
    /\ Forall (fun r => rank_total o < rank_total r) pre
    /\ Forall (fun r => rank_total o <= rank_total r) suf.

(** A normalized record: a non-empty dict whose category has a rank. *)
Definition wf_record (r : dict) : Prop := r <> [] /\ rank_of r <> None.

End DedupeSpec.

(** [v] is the number held by the JSON number [j]. *)
Definition json_number (j : JVal) (v : Q) : Prop :=
  j = JFloat v \/ exists z, j = JInt z /\ v = inject_Z z.

(** A runtime instance used to evaluate the definitions on concrete inputs:
    its [dateutil_parse] reads the one string the examples use. *)
Definition NOW_2026_10_14 : Z := 739902 * 86400000000.

#[local] Instance sample_runtime : PyRuntime := {|
  float_repr := fun _ => "<float>"%string;
  container_str := fun _ => "<container>"%string;
  float_of_string := fun _ => None;
  dateutil_parse := fun s =>
    if String.eqb s "2026-10-14T00:00:00+00:00" then Some (mk_datetime NOW_2026_10_14 (Some 0))
    else None
|}.

(** A Samsara v2 vehicle item whose position is stamped at [NOW_2026_10_14]. *)
Definition sample_raw_v2 : dict :=
  [("id", JStr "281"); ("name", JStr "Truck 7");
   ("location", JObj [("latitude", JFloat (46 # 1)); ("longitude", JFloat ((-119) # 1));
                      ("time", JStr "2026-10-14T00:00:00+00:00");
                      ("speedMilesPerHour", JInt 10)])].

(** A pass where every fetch succeeds, and the same pass with CAT down. *)
Definition sample_env_ok : SyncEnv :=
  mk_env (Some [sample_raw_v2]) (Some []) (Some []) (Some []) NOW_2026_10_14.

Definition sample_env_cat_down : SyncEnv :=
  mk_env (Some [sample_raw_v2]) (Some []) (Some []) None NOW_2026_10_14.

Definition empty_store : Store := mk_store [] 0 [].

(** A store where the vehicle [281] of Samsara is soft-deleted. *)
Definition blocked_row : VehicleRow := mk_vehicle_row 0 true (JStr "Truck 7") JNull 0.

Definition blocked_store : Store :=
  mk_store [((ORGANIZATION_ID, JStr "281", JStr "samsara"), blocked_row)] 1 [].

Definition sample_rec : dict :=
  [("external_id", JStr "281"); ("source_system", JStr "samsara"); ("name", JStr "Truck 7")].

(** The distance Python's [haversine_miles(0.02895, 0, 0, 0)] returns,
    2.0002544796311224. *)
Definition sample_haversine_miles (_ _ _ _ : Q) : Q := 20002544796311224 # 10000000000000000.

(** The distance [find_nearest_job] computes for one job: [None] when the
    job has no coordinates or [float] fails on them. *)
Definition job_distance `{PyRuntime} (haversine_km : Q -> Q -> Q -> Q -> Q)
    (vehicle_lat vehicle_lon : Q) (job : dict) : option Q :=
  let jlat := py_get job "latitude" in
  let jlon := py_get job "longitude" in
  if is_none jlat || is_none jlon then None
  else
    flat <- py_float jlat ;;
    flon <- py_float jlon ;;
    Some (haversine_km vehicle_lat vehicle_lon flat flon).

(** A store with two live vehicles, one of them seen at [NOW_2026_10_14],
    and a position for each. *)
Definition sample_position : PositionRow :=
  mk_position_row ORGANIZATION_ID (JFloat 0) (JFloat 0) JNull (JStr "2026-10-14T00:00:00+00:00") (JObj []).

Definition live_store : Store :=
  mk_store [((ORGANIZATION_ID, JStr "281", JStr "samsara"), mk_vehicle_row 0 false (JStr "Truck 7") JNull 0);
            ((ORGANIZATION_ID, JStr "77", JStr "cat"), mk_vehicle_row 1 false (JStr "Dozer") JNull NOW_2026_10_14)]
           2 [(0%nat, sample_position); (1%nat, sample_position)].


(** A [datetime.fromisoformat] that reads the one string the examples use
    and raises on every other. *)
Definition sample_fromisoformat (s : string) : option datetime :=
  if String.eqb s "2026-10-14T00:00:00+00:00" then Some (mk_datetime NOW_2026_10_14 (Some 0)) else None.


(** A Samsara page of [items] whose pagination names the cursor [next] of
    the page after it, [None] on the last page. *)
Definition cursor_page (data_key : string) (items : list JVal) (next : option string) : JVal :=
  JObj [(data_key, JArr items);
        ("pagination", JObj [("endCursor", match next with Some c => JStr c | None => JNull end);
                             ("hasNextPage", JBool match next with Some _ => true | None => false end)])].

(** The page reached with cursor [c] in a chain of [(cursor, items)] pages,
    and the cursor of the page after it. *)
Fixpoint chain_lookup (c : string) (rest : list (string * list JVal))
  : option (list JVal * option string) :=
  match rest with
  | [] => None
  | (c', items) :: rest' =>
      if String.eqb c c' then Some (items, option_map fst (hd_error rest')) else chain_lookup c rest'
  end.

(** An endpoint serving the page [first] to a request without [after], and
    the chain [rest] by cursor; any other request gets a 404. *)
Definition chain_server (data_key : string) (first : list JVal) (rest : list (string * list JVal))
    (_url : string) (params : dict) : option (Z * option JVal) :=
  match dict_lookup params "after" with
  | None => Some (200, Some (cursor_page data_key first (option_map fst (hd_error rest))))
  | Some (JStr c) =>
      match chain_lookup c rest with
      | Some (items, next) => Some (200, Some (cursor_page data_key items next))
      | None => Some (404, None)
      end
  | Some _ => Some (404, None)
  end.


(** A CAT fleet page with one machine whose [Next] link points back to
    page 1, and the URL parsing and [int] it needs. *)
Definition sample_cat_item : JVal :=
  JObj [("EquipmentHeader", JObj [("EquipmentID", JStr "D6-01"); ("Model", JStr "D6")]);
        ("Location", JObj [("Latitude", JFloat 1); ("Longitude", JFloat 2);
                           ("datetime", JStr "2026-10-14T00:00:00Z")])].

Definition sample_cat_page : JVal :=
  JObj [("Equipment", JArr [sample_cat_item]);
        ("Links", JArr [JObj [("Rel", JStr "Next");
                              ("Href", JStr "https://api.cat.com/telematics/iso15143/fleet/1")]])].

Definition sample_url_path (href : string) : option string :=
  if String.eqb href "https://api.cat.com/telematics/iso15143/fleet/1"
  then Some "/telematics/iso15143/fleet/1" else None.

Definition sample_int_of_string (s : string) : option Z :=
  if String.eqb s "1" then Some 1 else None.

(** A CAT machine whose header has neither an EquipmentID nor a serial. *)
Definition sample_cat_anonymous (model : JVal) : dict :=
  [("EquipmentHeader", JObj [("EquipmentID", JNull); ("SerialNumber", JStr ""); ("Model", model)]);
   ("Location", JObj [("Latitude", JFloat 1); ("Longitude", JFloat 2)])].


(** A v1 asset whose first location is stamped with [timeMs], the epoch
    milliseconds of [NOW_2026_10_14]. *)
Definition sample_v1_asset_now : dict :=
  [("id", JStr "A1"); ("name", JStr "Trailer 3");
   ("location", JArr [JObj [("latitude", JFloat 46); ("longitude", JFloat (-119));
                            ("timeMs", JInt 1791936000000)]])].

(* ================================================================== *)
(** * Properties *)

Section DedupeProofs.
Context `{PyRuntime}.

Lemma keyed_cons r rs :
  keyed (r :: rs) = (k <- dedup_key r ;; kl <- keyed rs ;; Some ((k, r) :: kl)).
Proof. unfold keyed. simpl. destruct (dedup_key r); reflexivity. Qed.

Lemma bk_lookup_in k bk e : bk_lookup k bk = Some e -> In (k, e) bk.
Proof.
  induction bk as [|[k' v] bk IH]; simpl; [discriminate|].
  destruct (dkey_eq_dec k k'); [intros [= <-]; subst; auto | auto].
Qed.

Lemma bk_lookup_none k bk : bk_lookup k bk = None -> ~ In k (map fst bk).
Proof.
  induction bk as [|[k' v] bk IH]; simpl; [auto|].
  destruct (dkey_eq_dec k k'); [discriminate|].
  intros Hn [E|Hin]; [congruence | exact (IH Hn Hin)].
Qed.

Lemma bk_lookup_some_in k bk e : bk_lookup k bk = Some e -> In k (map fst bk).
Proof. intros Hl. apply bk_lookup_in in Hl. apply (in_map fst) in Hl. exact Hl. Qed.

Lemma bk_set_keys_present k v bk :
  In k (map fst bk) -> map fst (bk_set k v bk) = map fst bk.
Proof.
  induction bk as [|[k1 v1] bk IH]; simpl; [intros []|].
  intros I. destruct (dkey_eq_dec k k1) as [E|NE]; simpl; [reflexivity|].
  rewrite IH; [reflexivity|]. destruct I as [E|I]; [congruence | exact I].
Qed.

Lemma bk_set_append k v bk : ~ In k (map fst bk) -> bk_set k v bk = (bk ++ [(k, v)])%list.
Proof.
  induction bk as [|[k1 v1] bk IH]; simpl; [reflexivity|].
  intros Hn. destruct (dkey_eq_dec k k1) as [E|NE].
  - exfalso. apply Hn. left. symmetry. exact E.
  - rewrite IH; [reflexivity|]. intros I. apply Hn. right. exact I.
Qed.

Lemma bk_set_keys k v bk :
  map fst (bk_set k v bk) =
  if in_dec dkey_eq_dec k (map fst bk) then map fst bk else (map fst bk ++ [k])%list.
Proof.
  destruct (in_dec dkey_eq_dec k (map fst bk)) as [I|NI].
  - exact (bk_set_keys_present k v bk I).
  - rewrite (bk_set_append k v bk NI), map_app. reflexivity.
Qed.

Lemma bk_set_in k v bk k' o :
  In (k', o) (bk_set k v bk) -> (k' = k /\ o = v) \/ In (k', o) bk.
Proof.
  induction bk as [|[k1 v1] bk IH]; simpl.
  - intros [E|[]]. inversion E; subst. left. split; reflexivity.
  - destruct (dkey_eq_dec k k1) as [E|NE].
    + subst. intros [E|I]; [inversion E; subst; left; split; reflexivity | right; right; exact I].
    + intros [E|I]; [right; left; exact E|].
      destruct (IH I) as [A|B]; [left; exact A | right; right; exact B].
Qed.

Lemma bk_set_in_new k v bk : In (k, v) (bk_set k v bk).
Proof.
  induction bk as [|[k1 v1] bk IH]; simpl; [left; reflexivity|].
  destruct (dkey_eq_dec k k1) as [E|NE]; [subst; left; reflexivity | right; exact IH].
Qed.

Lemma bk_set_in_same k v bk o :
  NoDup (map fst bk) -> In (k, o) (bk_set k v bk) -> o = v.
Proof.
  induction bk as [|[k1 v1] bk IH]; simpl; intros ND.
  - intros [E|[]]. inversion E; reflexivity.
  - inversion ND as [|? ? Hn ND']; subst.
    destruct (dkey_eq_dec k k1) as [E|NE].
    + subst. intros [E|I]; [inversion E; reflexivity|].
      exfalso. apply Hn. apply (in_map fst) in I. exact I.
    + intros [E|I]; [inversion E; congruence | exact (IH ND' I)].
Qed.

Lemma first_keys_snoc kl k r :
  first_keys (kl ++ [(k, r)])%list =
  if in_dec dkey_eq_dec k (map fst kl) then first_keys kl else (first_keys kl ++ [k])%list.
Proof.
  unfold first_keys. rewrite map_app, rev_app_distr. simpl.
  destruct (in_dec dkey_eq_dec k (rev (map fst kl))) as [I|NI];
  destruct (in_dec dkey_eq_dec k (map fst kl)) as [I'|NI']; simpl.
  - reflexivity.
  - exfalso. apply NI'. apply in_rev. exact I.
  - exfalso. apply NI. apply -> in_rev. exact I'.
  - reflexivity.
Qed.

Lemma first_keys_in kl k : In k (first_keys kl) <-> In k (map fst kl).
Proof.
  unfold first_keys. rewrite <- in_rev, nodup_In. split; intros I.
  - apply in_rev. exact I.
  - apply -> in_rev. exact I.
Qed.

Lemma first_keys_nodup kl : NoDup (first_keys kl).
Proof. unfold first_keys. apply NoDup_rev. apply NoDup_nodup. Qed.

Lemma group_snoc kl k r k' :
  group k' (kl ++ [(k, r)])%list =
  (group k' kl ++ (if dkey_eq_dec k k' then [r] else []))%list.
Proof.
  unfold group. rewrite filter_app, map_app. simpl.
  destruct (dkey_eq_dec k k'); reflexivity.
Qed.

Lemma group_absent kl k : ~ In k (map fst kl) -> group k kl = [].
Proof.
  unfold group. induction kl as [|[k1 v1] kl IH]; simpl; [reflexivity|].
  intros Hn. destruct (dkey_eq_dec k1 k) as [E|NE].
  - exfalso. apply Hn. left. exact E.
  - apply IH. intros I. apply Hn. right. exact I.
Qed.

Lemma fmr_single r : first_min_rank r [r].
Proof. exists [], []. repeat split; constructor. Qed.

Lemma fmr_snoc_better o g r :
  first_min_rank o g -> rank_total r < rank_total o -> first_min_rank r (g ++ [r])%list.
Proof.
  intros (pre & suf & -> & Hpre & Hsuf) Hlt. exists (pre ++ o :: suf)%list, [].
  split; [rewrite <- app_assoc; reflexivity|]. split; [|constructor].
  apply Forall_app. split.
  - eapply Forall_impl; [|exact Hpre]. simpl. intros x Hx. lia.
  - constructor; [exact Hlt|]. eapply Forall_impl; [|exact Hsuf]. simpl. intros x Hx. lia.
Qed.

Lemma fmr_snoc_keep o g r :
  first_min_rank o g -> ~ rank_total r < rank_total o -> first_min_rank o (g ++ [r])%list.
Proof.
  intros (pre & suf & -> & Hpre & Hsuf) Hge. exists pre, (suf ++ [r])%list.
  split; [rewrite <- app_assoc; reflexivity|]. split; [exact Hpre|].
  apply Forall_app. split; [exact Hsuf|]. constructor; [lia|constructor].
Qed.

(** The invariant of [by_key] after a processed prefix [kp]. *)
Definition bk_inv (kp bk : list (dkey * dict)) : Prop :=
  map fst bk = first_keys kp /\
  forall k o, In (k, o) bk -> first_min_rank o (group k kp) /\ wf_record o.

Lemma bk_inv_nil : bk_inv [] [].
Proof. split; [reflexivity | intros k o []]. Qed.

Lemma dedupe_step_inv kp bk r k :
  bk_inv kp bk -> wf_record r -> dedup_key r = Some k ->
  exists bk', dedupe_step bk r = Some bk' /\ bk_inv (kp ++ [(k, r)])%list bk'.
Proof.
  intros [Hkeys Hall] Hwf Hk. unfold dedupe_step. rewrite Hk.
  assert (ND : NoDup (map fst bk)) by (rewrite Hkeys; apply first_keys_nodup).
  destruct (bk_lookup k bk) as [e|] eqn:Hl.
  - (* the key is already present *)
    assert (Hin : In (k, e) bk) by (apply bk_lookup_in; exact Hl).
    destruct (Hall k e Hin) as [Hfe [Hne Hre]].
    assert (Hkp : In k (map fst kp)).
    { apply first_keys_in. rewrite <- Hkeys. apply (in_map fst) in Hin. exact Hin. }
    destruct e as [|f e]; [congruence|]. simpl.
    destruct (rank_of (f :: e)) as [oe|] eqn:Hoe; [|congruence].
    destruct Hwf as [Hrne Hrr].
    destruct (rank_of r) as [nr|] eqn:Hnr; [|congruence].
    assert (Ho : rank_total (f :: e) = oe) by (unfold rank_total; rewrite Hoe; reflexivity).
    assert (Hn : rank_total r = nr) by (unfold rank_total; rewrite Hnr; reflexivity).
    destruct (nr <? oe) eqn:Hlt.
    + eexists; split; [reflexivity|]. split.
      * rewrite bk_set_keys, first_keys_snoc.
        destruct (in_dec dkey_eq_dec k (map fst bk)) as [_|NI];
        [| exfalso; apply NI; apply (in_map fst) in Hin; exact Hin].
        destruct (in_dec dkey_eq_dec k (map fst kp)); [exact Hkeys | contradiction].
      * intros k' o Ho'. rewrite group_snoc.
        destruct (dkey_eq_dec k k') as [E|NE].
        -- subst k'. pose proof (bk_set_in_same _ _ _ _ ND Ho') as ->.
           split; [|split; [exact Hrne | rewrite Hnr; discriminate]].
           apply (fmr_snoc_better (f :: e)); [exact Hfe|]. apply Z.ltb_lt in Hlt. lia.
        -- destruct (bk_set_in _ _ _ _ _ Ho') as [[E _]|I]; [congruence|].
           rewrite app_nil_r. exact (Hall k' o I).
    + eexists; split; [reflexivity|]. split.
      * rewrite first_keys_snoc.
        destruct (in_dec dkey_eq_dec k (map fst kp)); [exact Hkeys | contradiction].
      * intros k' o Ho'. rewrite group_snoc.
        destruct (dkey_eq_dec k k') as [E|NE].
        -- subst k'.
           assert (o = f :: e).
           { clear -ND Ho' Hin. induction bk as [|[k1 v1] bk IH]; [destruct Hin|].
             inversion ND as [|? ? Hn' ND']; subst.
             destruct Ho' as [E1|I1]; destruct Hin as [E2|I2].
             - inversion E1; inversion E2; subst; reflexivity.
             - inversion E1; subst. exfalso. apply Hn'. apply (in_map fst) in I2. exact I2.
             - inversion E2; subst. exfalso. apply Hn'. apply (in_map fst) in I1. exact I1.
             - exact (IH ND' I2 I1). }
           subst o. split; [|split; [discriminate | congruence]].
           apply fmr_snoc_keep; [exact Hfe|]. apply Z.ltb_ge in Hlt. lia.
        -- rewrite app_nil_r. exact (Hall k' o Ho').
  - (* a new key *)
    pose proof (bk_lookup_none _ _ Hl) as Hnin.
    assert (Hkp : ~ In k (map fst kp)) by (rewrite <- first_keys_in, <- Hkeys; exact Hnin).
    simpl. eexists; split; [reflexivity|]. split.
    + rewrite bk_set_keys, first_keys_snoc.
      destruct (in_dec dkey_eq_dec k (map fst bk)); [contradiction|].
      destruct (in_dec dkey_eq_dec k (map fst kp)); [contradiction|]. rewrite Hkeys. reflexivity.
    + intros k' o Ho'. rewrite group_snoc.
      destruct (bk_set_in _ _ _ _ _ Ho') as [[-> ->]|I].
      * destruct (dkey_eq_dec k k); [|congruence]. rewrite group_absent by exact Hkp.
        split; [apply fmr_single | exact Hwf].
      * destruct (dkey_eq_dec k k') as [E|NE].
        -- subst k'. exfalso. apply Hnin. apply (in_map fst) in I. exact I.
        -- rewrite app_nil_r. exact (Hall k' o I).
Qed.

Lemma dedupe_loop_inv rs : forall kp bk krs,
  bk_inv kp bk -> Forall wf_record rs -> keyed rs = Some krs ->
  exists bk', dedupe_loop bk rs = Some bk' /\ bk_inv (kp ++ krs)%list bk'.
Proof.
  induction rs as [|r rs IH]; intros kp bk krs Hinv Hwf Hk.
  - simpl in Hk. inversion Hk; subst. exists bk. rewrite app_nil_r. split; [reflexivity | exact Hinv].
  - rewrite keyed_cons in Hk. inversion Hwf as [|? ? Hr Hrs]; subst.
    destruct (dedup_key r) as [k|] eqn:Hkr; [|discriminate].
    destruct (keyed rs) as [krs'|] eqn:Hks; [|discriminate]. inversion Hk; subst.
    destruct (dedupe_step_inv kp bk r k Hinv Hr Hkr) as (bk1 & Hs & Hinv1).
    destruct (IH _ _ _ Hinv1 Hrs eq_refl) as (bk2 & Hl & Hinv2).
    exists bk2. simpl. rewrite Hs. split; [exact Hl|].
    rewrite <- app_assoc in Hinv2. exact Hinv2.
Qed.

Lemma bk_inv_forall2 kl bk :
  bk_inv kl bk -> Forall2 (fun k o => first_min_rank o (group k kl)) (first_keys kl) (map snd bk).
Proof.
  intros [Hkeys Hall]. rewrite <- Hkeys. clear Hkeys.
  induction bk as [|[k o] bk IH]; simpl; constructor.
  - apply (Hall k o). left. reflexivity.
  - apply IH. intros k' o' I. apply Hall. right. exact I.
Qed.

(** Keys already distinct: the loop appends every record. *)
Lemma dedupe_loop_distinct rs : forall bk krs,
  keyed rs = Some krs -> NoDup (map fst bk ++ map fst krs)%list ->
  dedupe_loop bk rs = Some (bk ++ krs)%list.
Proof.
  induction rs as [|r rs IH]; intros bk krs Hk ND.
  - simpl in Hk. inversion Hk; subst. rewrite app_nil_r. reflexivity.
  - rewrite keyed_cons in Hk. destruct (dedup_key r) as [k|] eqn:Hkr; [|discriminate].
    destruct (keyed rs) as [krs'|] eqn:Hks; [|discriminate]. inversion Hk; subst.
    simpl in ND. simpl. unfold dedupe_step. rewrite Hkr.
    assert (Hn : ~ In k (map fst bk)).
    { intros I. apply NoDup_remove_2 in ND. apply ND. apply in_or_app. left. exact I. }
    destruct (bk_lookup k bk) as [e|] eqn:Hl.
    + exfalso. apply Hn. exact (bk_lookup_some_in _ _ _ Hl).
    + simpl. rewrite bk_set_append by exact Hn.
      rewrite (IH _ _ eq_refl); [rewrite <- app_assoc; reflexivity|].
      rewrite map_app, <- app_assoc. simpl. exact ND.
Qed.

(** Every binding of [by_key] is the key of its record, and keys are distinct. *)
Definition bk_keyed (bk : list (dkey * dict)) : Prop :=
  NoDup (map fst bk) /\ forall k o, In (k, o) bk -> dedup_key o = Some k.

Lemma dedupe_loop_keyed rs : forall bk bk',
  bk_keyed bk -> dedupe_loop bk rs = Some bk' -> bk_keyed bk'.
Proof.
  induction rs as [|r rs IH]; intros bk bk' Hb Hl; simpl in Hl.
  - inversion Hl; subst; exact Hb.
  - destruct (dedupe_step bk r) as [bk1|] eqn:Hs; [|discriminate].
    apply (IH bk1); [|exact Hl]. clear IH Hl.
    destruct Hb as [ND Hall]. unfold dedupe_step in Hs.
    destruct (dedup_key r) as [k|] eqn:Hk; [|discriminate].
    assert (Hset : bk_keyed (bk_set k r bk)).
    { split.
      - rewrite bk_set_keys. destruct (in_dec dkey_eq_dec k (map fst bk)) as [_|NI]; [exact ND|].
        apply NoDup_app; [exact ND | constructor; [intros []|constructor] |].
        intros x I1 [E|[]]. subst. contradiction.
      - intros k' o I. destruct (bk_set_in _ _ _ _ _ I) as [[-> ->]|I']; [exact Hk | exact (Hall _ _ I')]. }
    destruct (bk_lookup k bk) as [e|]; simpl in Hs.
    + destruct e as [|f e]; simpl in Hs.
      * inversion Hs; subst; exact Hset.
      * destruct (rank_of (f :: e)); [|discriminate]. destruct (rank_of r); [|discriminate].
        destruct (_ <? _); inversion Hs; subst; [exact Hset | split; assumption].
    + inversion Hs; subst; exact Hset.
Qed.

Lemma keyed_of_bk bk :
  (forall k o, In (k, o) bk -> dedup_key o = Some k) -> keyed (map snd bk) = Some bk.
Proof.
  induction bk as [|[k o] bk IH]; intros Hall; [reflexivity|].
  cbn [map snd]. rewrite keyed_cons, (Hall k o (or_introl eq_refl)).
  rewrite IH; [reflexivity|]. intros k' o' I. apply Hall. right. exact I.
Qed.

End DedupeProofs.

Section DedupeClaims.
Context `{PyRuntime}.

Lemma keyed_snd l kl : keyed l = Some kl -> map snd kl = l.
Proof.
  revert kl. induction l as [|r l IH]; intros kl Hk.
  - inversion Hk; reflexivity.
  - rewrite keyed_cons in Hk. destruct (dedup_key r); [|discriminate].
    destruct (keyed l) as [kl'|]; [|discriminate]. inversion Hk; subst. simpl. f_equal. apply IH. reflexivity.
Qed.

(** Two records with one key: the second replaces the first only when its
    rank is strictly better. *)
Lemma dedupe_pair a b k ra rb :
  dedup_key a = Some k -> dedup_key b = Some k -> a <> [] ->
  rank_of a = Some ra -> rank_of b = Some rb ->
  dedupe_normalized_locations [a; b] = Some [if rb <? ra then b else a].
Proof.
  intros Ha Hb Hne Hra Hrb. unfold dedupe_normalized_locations. simpl.
  unfold dedupe_step. rewrite Ha. simpl. rewrite Hb. simpl.
  destruct (dkey_eq_dec k k) as [_|NE]; [|congruence].
  destruct a as [|f a]; [congruence|]. simpl. rewrite Hra, Hrb.
  destruct (rb <? ra); simpl; [destruct (dkey_eq_dec k k); [reflexivity|congruence] | reflexivity].
Qed.

Lemma dedup_key_ext r e :
  dict_lookup r "external_id" = Some (JStr e) -> e <> "" -> dedup_key r = Some (KId e).
Proof.
  intros He Hne. unfold dedup_key, py_get, py_get_default. rewrite He. simpl.
  destruct (String.eqb e "") eqn:E; [apply String.eqb_eq in E; congruence | reflexivity].
Qed.

Lemma py_float_not_none v x : py_float v = Some x -> is_none v = false.
Proof. destruct v; reflexivity || (unfold py_float; simpl; congruence). Qed.

Lemma dedup_key_latlon r x y :
  truthy (py_get r "external_id") = false ->
  py_float (py_get r "latitude") = Some x -> py_float (py_get r "longitude") = Some y ->
  dedup_key r = Some (KNameLatLon (py_str (py_or (py_get r "name") (JStr ""))) (py_round5 x) (py_round5 y)).
Proof.
  intros He Hx Hy. unfold dedup_key. rewrite He.
  rewrite (py_float_not_none _ _ Hx), (py_float_not_none _ _ Hy). simpl. rewrite Hx, Hy. reflexivity.
Qed.

Lemma lookup_nonempty (r : dict) k v : dict_lookup r k = Some v -> r <> [].
Proof. destruct r; simpl; congruence. Qed.

(** C1: on a key collision the record of better category rank is kept, the
    first one on equal rank; in order, the output holds for each distinct key
    the first record of lowest rank among those with that key.  The ranks are
    vehicles_v2 (0), equipment_v2 (1), assets_v1 (2), anything else (99); an
    assets_v1 record and a vehicles_v2 record with one external_id dedupe to
    the vehicles_v2 one in either order. *)
Theorem dedupe_keeps_highest_priority :
  (forall l kl, Forall wf_record l -> keyed l = Some kl ->
     exists out, dedupe_normalized_locations l = Some out /\
       Forall2 (fun k o => first_min_rank o (group k kl)) (first_keys kl) out) /\
  (_category_rank (JStr "vehicles_v2") = Some 0 /\
   _category_rank (JStr "equipment_v2") = Some 1 /\
   _category_rank (JStr "assets_v1") = Some 2 /\
   forall s, ~ In s ["vehicles_v2"; "equipment_v2"; "assets_v1"] -> _category_rank (JStr s) = Some 99) /\
  (forall a v e,
     dict_lookup a "external_id" = Some (JStr e) -> dict_lookup v "external_id" = Some (JStr e) ->
     e <> "" ->
     dict_lookup a "source_category" = Some (JStr "assets_v1") ->
     dict_lookup v "source_category" = Some (JStr "vehicles_v2") ->
     dedupe_normalized_locations [a; v] = Some [v] /\ dedupe_normalized_locations [v; a] = Some [v]).
Proof.
  split; [|split].
  - intros l kl Hwf Hk.
    destruct (dedupe_loop_inv l [] [] kl bk_inv_nil Hwf Hk) as (bk & Hl & Hinv).
    exists (map snd bk). unfold dedupe_normalized_locations. rewrite Hl. split; [reflexivity|].
    apply bk_inv_forall2. exact Hinv.
  - repeat split; [].
    intros s Hs. simpl.
    destruct (String.eqb s "vehicles_v2") eqn:E1; [apply String.eqb_eq in E1; subst; exfalso; apply Hs; left; reflexivity|].
    destruct (String.eqb s "equipment_v2") eqn:E2; [apply String.eqb_eq in E2; subst; exfalso; apply Hs; right; left; reflexivity|].
    destruct (String.eqb s "assets_v1") eqn:E3; [apply String.eqb_eq in E3; subst; exfalso; apply Hs; right; right; left; reflexivity|].
    reflexivity.
  - intros a v e Ha Hv Hne Hca Hcv.
    assert (Rka : rank_of a = Some 2) by (unfold rank_of, py_get_default; rewrite Hca; reflexivity).
    assert (Rkv : rank_of v = Some 0) by (unfold rank_of, py_get_default; rewrite Hcv; reflexivity).
    split.
    + rewrite (dedupe_pair a v (KId e) 2 0); [reflexivity | apply dedup_key_ext; assumption
        | apply dedup_key_ext; assumption | exact (lookup_nonempty _ _ _ Ha) | exact Rka | exact Rkv].
    + rewrite (dedupe_pair v a (KId e) 0 2); [reflexivity | apply dedup_key_ext; assumption
        | apply dedup_key_ext; assumption | exact (lookup_nonempty _ _ _ Hv) | exact Rkv | exact Rka].
Qed.

(** C9: a list whose keys are already pairwise distinct is returned as it is,
    in order, and deduping twice is deduping once. *)
Theorem dedupe_idempotent :
  (forall l kl, keyed l = Some kl -> NoDup (map fst kl) -> dedupe_normalized_locations l = Some l) /\
  (forall l, (out <- dedupe_normalized_locations l ;; dedupe_normalized_locations out)
             = dedupe_normalized_locations l).
Proof.
  assert (P1 : forall l kl, keyed l = Some kl -> NoDup (map fst kl) ->
                 dedupe_normalized_locations l = Some l).
  { intros l kl Hk ND. unfold dedupe_normalized_locations.
    rewrite (dedupe_loop_distinct l [] kl Hk ND). simpl. f_equal. exact (keyed_snd l kl Hk). }
  split; [exact P1|].
  intros l. destruct (dedupe_normalized_locations l) as [out|] eqn:Hd; [|reflexivity].
  unfold dedupe_normalized_locations in Hd.
  destruct (dedupe_loop [] l) as [bk|] eqn:Hl; [|discriminate]. inversion Hd; subst out.
  assert (Hb : bk_keyed bk).
  { apply (dedupe_loop_keyed l [] bk); [split; [constructor | intros k o []] | exact Hl]. }
  destruct Hb as [ND Hall].
  exact (P1 (map snd bk) bk (keyed_of_bk bk Hall) ND).
Qed.

(** C4 (the code merges them): two different records with neither an
    external_id nor coordinates but one name get the key ["name-only:X"]
    and dedupe to the first one. *)
Theorem dedupe_merges_same_name_without_id :
  dedupe_normalized_locations
    [ [("name", JStr "X"); ("timestamp_utc", JStr "2026-10-13T08:00:00Z")];
      [("name", JStr "X"); ("timestamp_utc", JStr "2026-10-14T08:00:00Z")] ]
  = Some [ [("name", JStr "X"); ("timestamp_utc", JStr "2026-10-13T08:00:00Z")] ].
Proof. reflexivity. Qed.

(** Two records without an external_id, one name, and coordinates that
    [round(_, 5)] maps to the same Python floats. *)
Lemma dedupe_same_rounded_pair a b x_a y_a x_b y_b :
  wf_record a -> wf_record b ->
  truthy (py_get a "external_id") = false -> truthy (py_get b "external_id") = false ->
  py_get a "name" = py_get b "name" ->
  py_float (py_get a "latitude") = Some x_a -> py_float (py_get a "longitude") = Some y_a ->
  py_float (py_get b "latitude") = Some x_b -> py_float (py_get b "longitude") = Some y_b ->
  py_round5 x_a = py_round5 x_b -> py_round5 y_a = py_round5 y_b ->
  exists o, dedupe_normalized_locations [a; b] = Some [o] /\ (o = a \/ o = b).
Proof.
  intros [Hna Hra] [Hnb Hrb] Hea Heb Hname Hxa Hya Hxb Hyb Rx Ry.
  destruct (rank_of a) as [ra|] eqn:Ea; [|congruence].
  destruct (rank_of b) as [rb|] eqn:Eb; [|congruence].
  pose proof (dedup_key_latlon a _ _ Hea Hxa Hya) as Ka.
  pose proof (dedup_key_latlon b _ _ Heb Hxb Hyb) as Kb.
  rewrite <- Hname, <- Rx, <- Ry in Kb.
  rewrite (dedupe_pair a b _ ra rb Ka Kb Hna Ea Eb).
  eexists; split; [reflexivity|]. destruct (rb <? ra); [right|left]; reflexivity.
Qed.

(** Two records without an external_id, with one name and with latitudes
    and longitudes that [round(_, 5)] maps to the same Python floats (the
    key holds their reprs, so the sign of zero counts) collapse to one of
    them; the two "Truck 7" records at (46.200051, -119.150001) and
    (46.200049, -119.149999) collapse to the first. *)
Theorem dedupe_collapses_same_rounded_position :
  (forall a b x_a y_a x_b y_b,
     wf_record a -> wf_record b ->
     truthy (py_get a "external_id") = false -> truthy (py_get b "external_id") = false ->
     py_get a "name" = py_get b "name" ->
     py_float (py_get a "latitude") = Some x_a -> py_float (py_get a "longitude") = Some y_a ->
     py_float (py_get b "latitude") = Some x_b -> py_float (py_get b "longitude") = Some y_b ->
     py_round5 x_a = py_round5 x_b -> py_round5 y_a = py_round5 y_b ->
     exists o, dedupe_normalized_locations [a; b] = Some [o] /\ (o = a \/ o = b)) /\
  dedupe_normalized_locations
    [ [("name", JStr "Truck 7"); ("latitude", JFloat (46200051 # 1000000));
       ("longitude", JFloat (-119150001 # 1000000))];
      [("name", JStr "Truck 7"); ("latitude", JFloat (46200049 # 1000000));
       ("longitude", JFloat (-119149999 # 1000000))] ]
  = Some [ [("name", JStr "Truck 7"); ("latitude", JFloat (46200051 # 1000000));
            ("longitude", JFloat (-119150001 # 1000000))] ].
Proof.
  split; [exact dedupe_same_rounded_pair | vm_compute; reflexivity].
Qed.

(** C10: a CAT record has no source_category, so it ranks 99; on a key
    collision with a vehicles_v2, equipment_v2 or assets_v1 record the latter
    is kept in either order, and of two CAT records the first is kept. *)
Theorem cat_records_rank_lowest :
  (forall raw c, normalize_cat_position raw = Some c ->
     dict_lookup c "source_category" = None /\ rank_of c = Some 99) /\
  (forall raw c s cat k,
     normalize_cat_position raw = Some c ->
     dict_lookup s "source_category" = Some (JStr cat) ->
     In cat ["vehicles_v2"; "equipment_v2"; "assets_v1"] ->
     dedup_key c = Some k -> dedup_key s = Some k ->
     dedupe_normalized_locations [c; s] = Some [s] /\ dedupe_normalized_locations [s; c] = Some [s]) /\
  (forall raw1 raw2 c1 c2 k,
     normalize_cat_position raw1 = Some c1 -> normalize_cat_position raw2 = Some c2 ->
     dedup_key c1 = Some k -> dedup_key c2 = Some k ->
     dedupe_normalized_locations [c1; c2] = Some [c1]).
Proof.
  assert (Hcat : forall raw c, normalize_cat_position raw = Some c ->
            dict_lookup c "source_category" = None /\ rank_of c = Some 99 /\ c <> []).
  { intros raw c Hc. unfold normalize_cat_position in Hc.
    destruct (sub_dict raw "EquipmentHeader"); [|discriminate].
    destruct (sub_dict raw "Location"); [|discriminate].
    destruct (sub_dict raw "Distance"); [|discriminate].
    inversion Hc; subst. split; [reflexivity | split; [reflexivity | discriminate]]. }
  split; [|split].
  - intros raw c Hc. destruct (Hcat raw c Hc) as [A [B _]]. split; assumption.
  - intros raw c s cat k Hc Hs Hin Kc Ks.
    destruct (Hcat raw c Hc) as [_ [Rc Nc]].
    assert (Rs : exists z, rank_of s = Some z /\ z < 99).
    { unfold rank_of, py_get_default. rewrite Hs.
      destruct Hin as [<-|[<-|[<-|[]]]]; eexists; split; try reflexivity; lia. }
    destruct Rs as [z [Rs Hz]].
    split.
    + rewrite (dedupe_pair c s k 99 z Kc Ks Nc Rc Rs).
      destruct (z <? 99) eqn:E; [reflexivity | apply Z.ltb_ge in E; lia].
    + rewrite (dedupe_pair s c k z 99 Ks Kc (lookup_nonempty _ _ _ Hs) Rs Rc).
      destruct (99 <? z) eqn:E; [apply Z.ltb_lt in E; lia | reflexivity].
  - intros raw1 raw2 c1 c2 k H1 H2 K1 K2.
    destruct (Hcat raw1 c1 H1) as [_ [R1 N1]]. destruct (Hcat raw2 c2 H2) as [_ [R2 _]].
    rewrite (dedupe_pair c1 c2 k 99 99 K1 K2 N1 R1 R2). reflexivity.
Qed.

End DedupeClaims.

(** C8 (the code keeps them apart): latitudes 0.000001 and -0.000001 both
    round to 5 decimals to zero, and [0.0 == -0.0] in Python, but [round]
    gives [0.0] and [-0.0], whose reprs differ in the f-string key, so the
    two "T" records at the same rounded position stay apart. *)
Lemma dedupe_signed_zero_not_collapsed :
  pf_value (py_round5 (1 # 1000000)) == pf_value (py_round5 (-1 # 1000000)) /\
  py_round5 (1 # 1000000) <> py_round5 (-1 # 1000000) /\
  dedupe_normalized_locations
    [ [("name", JStr "T"); ("latitude", JFloat (1 # 1000000)); ("longitude", JFloat 0)];
      [("name", JStr "T"); ("latitude", JFloat (-1 # 1000000)); ("longitude", JFloat 0)] ]
  = Some [ [("name", JStr "T"); ("latitude", JFloat (1 # 1000000)); ("longitude", JFloat 0)];
           [("name", JStr "T"); ("latitude", JFloat (-1 # 1000000)); ("longitude", JFloat 0)] ].
Proof.
  split; [vm_compute; reflexivity|]. split; [|vm_compute; reflexivity].
  intros E. apply (f_equal pf_neg) in E. vm_compute in E. discriminate E.
Qed.

Section NormalizerClaims.
Context `{PyRuntime}.

(** A JSON number converts to itself, unless it is an int too large for a
    double, where [float] raises OverflowError. *)
Lemma json_number_float j v :
  json_number j v -> py_float_res j = FloatOk v \/ py_float_res j = FloatOverflow.
Proof.
  intros [-> | [z [-> ->]]]; [left; reflexivity|]. cbn [py_float_res].
  destruct (FLOAT_INT_LIMIT <=? Z.abs z); [right | left]; reflexivity.
Qed.

Lemma extract_common_mph raw loc j v li :
  py_or (py_get raw "location") (py_get raw "lastKnownLocation") = JObj loc ->
  dict_lookup loc "speedMilesPerHour" = Some j -> json_number j v ->
  _extract_location_common raw = Some (Some li) -> li_speed_kph li = JFloat (v * MPH_TO_KPH)%Q.
Proof.
  intros Hl Hj Hv He. unfold _extract_location_common in He. rewrite Hl in He.
  cbv beta iota zeta in He.
  destruct (is_none (py_get loc "latitude") || is_none (py_get loc "longitude") || _);
    [discriminate|].
  rewrite Hj in He.
  destruct (json_number_float j v Hv) as [E | E]; rewrite E in He; [|discriminate].
  inversion He; subst li. reflexivity.
Qed.

Lemma extract_v1_mph raw loc rest j v li :
  py_get_default raw "location" (JArr []) = JArr (JObj loc :: rest) ->
  dict_lookup loc "speedMilesPerHour" = Some j -> json_number j v ->
  _extract_location_from_v1_asset raw = Some (Some li) -> li_speed_kph li = JFloat (v * MPH_TO_KPH)%Q.
Proof.
  intros Hl Hj Hv He. unfold _extract_location_from_v1_asset in He. rewrite Hl in He.
  cbv beta iota zeta in He.
  destruct (is_none (py_get loc "latitude") || is_none (py_get loc "longitude") || _);
    [discriminate|].
  unfold py_get, py_get_default in He. rewrite Hj in He.
  assert (Hn : is_none j = false) by (destruct Hv as [-> | [z [-> _]]]; reflexivity).
  rewrite Hn in He.
  destruct (json_number_float j v Hv) as [E | E]; rewrite E in He; [|discriminate].
  inversion He; subst li. reflexivity.
Qed.

(** [normalize_location_record] copies the extractor's speed. *)
Lemma normalize_speed raw cat r :
  normalize_location_record raw cat = Some (Some r) ->
  exists li, (if String.eqb cat "vehicles_v2" || String.eqb cat "equipment_v2"
              then _extract_location_common raw
              else if String.eqb cat "assets_v1" then _extract_location_from_v1_asset raw
              else Some None) = Some (Some li)
          /\ py_get r "speed_kph" = li_speed_kph li.
Proof.
  intros Hn. unfold normalize_location_record in Hn. cbv zeta in Hn.
  destruct (is_none _); [discriminate|].
  destruct (if String.eqb cat "vehicles_v2" || String.eqb cat "equipment_v2" then _ else _)
    as [[li|]|] eqn:E; [|discriminate|discriminate].
  exists li. split; [reflexivity|]. inversion Hn; subst r. reflexivity.
Qed.

(** C7: a speed field tagged [speedMilesPerHour] holding the number [v]
    normalizes to [speed_kph = v * 1.60934], on the vehicles_v2 and
    equipment_v2 path and on the assets_v1 path; for [v = 10] that is within
    1e-3 of 16.0934. *)
Theorem mph_speed_converted :
  (forall raw cat loc j v r,
     (cat = "vehicles_v2" \/ cat = "equipment_v2") ->
     py_or (py_get raw "location") (py_get raw "lastKnownLocation") = JObj loc ->
     dict_lookup loc "speedMilesPerHour" = Some j -> json_number j v ->
     normalize_location_record raw cat = Some (Some r) ->
     py_get r "speed_kph" = JFloat (v * MPH_TO_KPH)%Q) /\
  (forall raw loc rest j v r,
     py_get_default raw "location" (JArr []) = JArr (JObj loc :: rest) ->
     dict_lookup loc "speedMilesPerHour" = Some j -> json_number j v ->
     normalize_location_record raw "assets_v1" = Some (Some r) ->
     py_get r "speed_kph" = JFloat (v * MPH_TO_KPH)%Q) /\
  (Qabs (inject_Z 10 * MPH_TO_KPH - (160934 # 10000)) <= 1 # 1000)%Q.
Proof.
  split; [|split].
  - intros raw cat loc j v r Hcat Hl Hj Hv Hn.
    destruct (normalize_speed raw cat r Hn) as [li [E ->]].
    destruct Hcat as [-> | ->]; simpl in E; exact (extract_common_mph raw loc j v li Hl Hj Hv E).
  - intros raw loc rest j v r Hl Hj Hv Hn.
    destruct (normalize_speed raw "assets_v1" r Hn) as [li [E ->]].
    simpl in E. exact (extract_v1_mph raw loc rest j v li Hl Hj Hv E).
  - vm_compute. discriminate.
Qed.

End NormalizerClaims.

Section FreshnessClaims.
Context `{PyRuntime}.

Lemma cutoff_in_range now h :
  0 <= now <= DATETIME_MAX_WALL ->
  0 <= now - h * MICROS_PER_HOUR <= DATETIME_MAX_WALL ->
  cutoff_of now h = Some (now - h * MICROS_PER_HOUR).
Proof.
  unfold cutoff_of, DATETIME_MAX_WALL, MICROS_PER_HOUR, TIMEDELTA_MAX_DAYS. intros Hn Hc.
  destruct (Z.abs (h / 24) >? 999999999) eqn:E.
  - apply Z.gtb_lt in E. exfalso.
    destruct (Z.abs_spec (h / 24)) as [[_ Ha] | [_ Ha]]; rewrite Ha in E;
      Z.div_mod_to_equations; lia.
  - replace ((now - h * 3600000000 <? 0) || (3652059 * 86400000000 - 1 <? now - h * 3600000000))
      with false; [reflexivity|].
    symmetry. apply orb_false_iff. split; apply Z.ltb_ge; lia.
Qed.

Lemma cutoff_out_of_range now h :
  (now - h * MICROS_PER_HOUR < 0 \/ DATETIME_MAX_WALL < now - h * MICROS_PER_HOUR) ->
  cutoff_of now h = None.
Proof.
  unfold cutoff_of. intros Hc. destruct (_ >? _); [reflexivity|].
  cbv zeta. replace ((now - h * MICROS_PER_HOUR <? 0) || (DATETIME_MAX_WALL <? now - h * MICROS_PER_HOUR))
    with true; [reflexivity|].
  symmetry. apply orb_true_iff. destruct Hc; [left | right]; apply Z.ltb_lt; assumption.
Qed.

(** The value of the check once [ts] is a datetime. *)
Lemma fresh_datetime now d h :
  is_position_fresh now (TsDatetime d) h =
  match cutoff_of now h with None => false | Some c => utc_instant d >=? c end.
Proof.
  unfold is_position_fresh. destruct d as [w [off|]]; cbn [dt_offset dt_wall]; [reflexivity|].
  destruct (cutoff_of now h); [|reflexivity]. unfold utc_instant; cbn. now rewrite Z.sub_0_r.
Qed.

Lemma fresh_str now s h :
  is_position_fresh now (TsStr s) h =
  match dateutil_parse s with None => false | Some d => is_position_fresh now (TsDatetime d) h end.
Proof. reflexivity. Qed.

Lemma geb_true_iff a b : (a >=? b) = true <-> b <= a.
Proof. rewrite Z.geb_le. reflexivity. Qed.

(** [is_position_fresh] never raises: [None], an unparseable string and a
    value that is neither a string nor a datetime give [false]; for a
    datetime or a parsed string,
    when [now - max_age_hours] is a representable datetime the result is
    [true] exactly when the UTC instant (a naive value read as UTC) is at or
    after it, so a timestamp at the cutoff is fresh and one microsecond older
    is stale; when the cutoff is not representable the result is [false]; the
    default age is 336 hours. *)
Theorem position_freshness_threshold :
  (forall now h, is_position_fresh now TsNone h = false) /\
  (forall now s h, dateutil_parse s = None -> is_position_fresh now (TsStr s) h = false) /\
  (forall now v h, is_position_fresh now (TsOther v) h = false) /\
  (forall now h d,
     0 <= now <= DATETIME_MAX_WALL ->
     0 <= now - h * MICROS_PER_HOUR <= DATETIME_MAX_WALL ->
     (is_position_fresh now (TsDatetime d) h = true <-> now - h * MICROS_PER_HOUR <= utc_instant d)) /\
  (forall now h s d,
     0 <= now <= DATETIME_MAX_WALL ->
     0 <= now - h * MICROS_PER_HOUR <= DATETIME_MAX_WALL ->
     dateutil_parse s = Some d ->
     (is_position_fresh now (TsStr s) h = true <-> now - h * MICROS_PER_HOUR <= utc_instant d)) /\
  (forall now h w off,
     0 <= now <= DATETIME_MAX_WALL ->
     0 <= now - h * MICROS_PER_HOUR <= DATETIME_MAX_WALL ->
     utc_instant (mk_datetime w off) = now - h * MICROS_PER_HOUR ->
     is_position_fresh now (TsDatetime (mk_datetime w off)) h = true /\
     is_position_fresh now (TsDatetime (mk_datetime (w - 1) off)) h = false) /\
  (forall now h ts,
     (now - h * MICROS_PER_HOUR < 0 \/ DATETIME_MAX_WALL < now - h * MICROS_PER_HOUR) ->
     is_position_fresh now ts h = false) /\
  POSITION_FRESHNESS_HOURS = 336.
Proof.
  split; [reflexivity|]. split.
  { intros now s h Hp. rewrite fresh_str, Hp. reflexivity. }
  split; [reflexivity|]. split.
  { intros now h d Hn Hc. rewrite fresh_datetime, (cutoff_in_range now h Hn Hc). apply geb_true_iff. }
  split.
  { intros now h s d Hn Hc Hp. rewrite fresh_str, Hp, fresh_datetime, (cutoff_in_range now h Hn Hc).
    apply geb_true_iff. }
  split.
  { intros now h w off Hn Hc Hu. rewrite !fresh_datetime, (cutoff_in_range now h Hn Hc).
    unfold utc_instant in *; cbn [dt_offset dt_wall] in *.
    rewrite !Z.geb_leb. split; [apply Z.leb_le | apply Z.leb_gt]; destruct off; lia. }
  split; [|reflexivity].
  intros now h ts Hc. pose proof (cutoff_out_of_range now h Hc) as Hnone.
  destruct ts as [|s|d|v]; try reflexivity.
  - rewrite fresh_str. destruct (dateutil_parse s); [|reflexivity].
    rewrite fresh_datetime, Hnone. reflexivity.
  - rewrite fresh_datetime, Hnone. reflexivity.
Qed.

End FreshnessClaims.

(** C2 (the code reports fresh positions as stale): an int timestamp has no
    [tzinfo], so [ts.tzinfo] raises AttributeError, which is caught, and
    every int timestamp is stale.  The v1 asset normalizer emits its
    [timeMs] int as [timestamp_utc]: a v1 asset stamped at [now]
    (2026-10-14T00:00Z in epoch milliseconds), which [_ensure_datetime_utc]
    reads as exactly [now], is dropped as stale.  And with
    [max_age_hours = 10^8] the cutoff falls before year 1, the subtraction
    raises OverflowError, which is caught, so a position stamped at [now],
    after [now - max_age_hours], is stale too. *)
Theorem freshness_int_epoch_and_huge_max_age_stale `{PyRuntime} fromisoformat :
  (forall now z h, is_position_fresh now (TsOther (JInt z)) h = false) /\
  (exists rec,
     normalize_location_record sample_v1_asset_now "assets_v1" = Some (Some rec) /\
     py_get rec "timestamp_utc" = JInt 1791936000000 /\
     _ensure_datetime_utc fromisoformat NOW_2026_10_14 (TsOther (JInt 1791936000000)) =
       Some (mk_datetime NOW_2026_10_14 (Some 0)) /\
     is_fresh_record NOW_2026_10_14 rec = false) /\
  (NOW_2026_10_14 - 100000000 * MICROS_PER_HOUR <= utc_instant (mk_datetime NOW_2026_10_14 (Some 0)) /\
   is_position_fresh NOW_2026_10_14 (TsDatetime (mk_datetime NOW_2026_10_14 (Some 0))) 100000000 = false).
Proof.
  split; [reflexivity|]. split.
  - eexists. split; [reflexivity|]. split; [reflexivity|]. split; [vm_compute; reflexivity | reflexivity].
  - vm_compute. split; [discriminate | reflexivity].
Qed.

Section SyncClaims.
Context `{PyRuntime}.

(** C3 (amended): the pass has no exception handling around the fetches, so
    when any of the three Samsara fetches or the CAT fetch fails the whole
    pass raises and nothing is written: the store is left as it was. *)
Theorem fetch_failure_aborts_pass env st :
  (env_vehicles env = None \/ env_equipment env = None \/
   env_assets_v1 env = None \/ env_cat env = None) ->
  run_sync_once env st = (None, st).
Proof.
  destruct env as [v e a c now]; cbn [env_vehicles env_equipment env_assets_v1 env_cat].
  intros Hf. unfold run_sync_once, fetch_all_location_payloads; cbn [env_vehicles env_equipment env_assets_v1 env_cat].
  destruct v as [v|]; [|reflexivity]. destruct e as [e|]; [|reflexivity].
  destruct a as [a|]; [|reflexivity].
  destruct Hf as [Hf | [Hf | [Hf | Hf]]]; try discriminate. subst c.
  destruct (normalize_all "vehicles_v2" v) as [[]|], (normalize_all "equipment_v2" e) as [[]|],
    (normalize_all "assets_v1" a) as [[]|]; reflexivity.
Qed.

(** C6: a record whose identity [(ORGANIZATION_ID, external_id,
    source_system)] resolves to a soft-deleted vehicle leaves the store
    untouched (no position upsert), adds exactly one to the skipped counter,
    and the loop goes on with the remaining records. *)
Theorem blocklisted_record_skipped now st rec rest inserted skipped ext src name row :
  dict_lookup rec "external_id" = Some ext ->
  dict_lookup rec "source_system" = Some src ->
  dict_lookup rec "name" = Some name ->
  vehicle_lookup (ORGANIZATION_ID, ext, src) (st_vehicles st) = Some row ->
  vr_is_deleted row = true ->
  persist_records now st (rec :: rest) inserted skipped =
  persist_records now st rest inserted (S skipped).
Proof.
  intros He Hs Hn Hl Hd. cbn [persist_records]. rewrite He, Hs, Hn.
  unfold upsert_vehicle. rewrite Hl, Hd. reflexivity.
Qed.

End SyncClaims.

Lemma fetch_failure_aborts_pass_witness :
  env_cat sample_env_cat_down = None /\
  run_sync_once sample_env_cat_down empty_store = (None, empty_store).
Proof.
  split; [reflexivity|].
  apply fetch_failure_aborts_pass. right; right; right; reflexivity.
Defined.

Lemma blocklisted_record_skipped_witness :
  vr_is_deleted blocked_row = true /\
  persist_records NOW_2026_10_14 blocked_store [sample_rec] 0 0 = (blocked_store, Some (0%nat, 1%nat)).
Proof.
  split; [reflexivity|].
  rewrite (blocklisted_record_skipped NOW_2026_10_14 blocked_store sample_rec [] 0 0
             (JStr "281") (JStr "samsara") (JStr "Truck 7") blocked_row);
    reflexivity.
Defined.

(** C3 counterexample: with every fetch up, the Samsara vehicle is
    normalized and its position written; with only the CAT fetch down the
    same Samsara record is not persisted, the pass raises and writes
    nothing. *)
Lemma cat_outage_blocks_samsara_records :
  fst (run_sync_once sample_env_ok empty_store) = Some (mk_report 0 1 1 0 1 0) /\
  length (st_positions (snd (run_sync_once sample_env_ok empty_store))) = 1%nat /\
  run_sync_once sample_env_cat_down empty_store = (None, empty_store).
Proof. vm_compute. split; [reflexivity | split; reflexivity]. Qed.

(** The soft-deleted vehicle in a whole pass: no position, one skip. *)
Lemma blocked_vehicle_pass :
  run_sync_once sample_env_ok blocked_store = (Some (mk_report 0 1 1 0 0 1), blocked_store).
Proof. vm_compute. reflexivity. Qed.

Section AssignClaims.

Lemma np_round3_near_2 d : (2 < d)%Q -> (d < 20005 # 10000)%Q -> (np_round3 d == 2)%Q.
Proof.
  destruct d as [n den]. unfold Qlt; cbn [Qnum Qden]. intros Hlo Hhi.
  unfold np_round3, round_half_even; cbn [Qnum Qden].
  assert (Hq : Z.abs n * 1000 / Z.pos den = 2000).
  { rewrite Z.abs_eq by lia. symmetry.
    apply Z.div_unique with (n * 1000 - 2000 * Z.pos den); [left |]; lia. }
  assert (Hr : Z.abs n * 1000 mod Z.pos den = n * 1000 - 2000 * Z.pos den).
  { rewrite Z.abs_eq by lia. symmetry.
    apply Z.mod_unique with 2000; [left |]; lia. }
  rewrite Hq, Hr.
  replace (2 * (n * 1000 - 2000 * Z.pos den) <? Z.pos den) with true
    by (symmetry; apply Z.ltb_lt; lia).
  replace (n <? 0) with false by (symmetry; apply Z.ltb_ge; lia).
  reflexivity.
Qed.

(** C5: [assign_to_jobs] compares the distance rounded to three decimals
    with the threshold, so a vehicle whose only job is at a distance [d]
    with [2 < d < 2.0005] miles, beyond the default threshold of 2 miles, is
    bucketed to that job and not to ["Other"]. *)
Theorem assign_to_jobs_rounds_before_threshold (hav : Q -> Q -> Q -> Q -> Q) job_id job_name d :
  hav (2895 # 100000) 0%Q 0%Q 0%Q = d -> (2 < d)%Q -> (d < 20005 # 10000)%Q ->
  assign_to_jobs hav [((2895 # 100000)%Q, 0%Q)] [mk_job_row job_id job_name 0 0] 2 =
  Some [mk_assignment job_id job_name (np_round3 d) job_name] /\
  (np_round3 d == 2)%Q.
Proof.
  intros Hd Hlo Hhi. pose proof (np_round3_near_2 d Hlo Hhi) as Hr. split; [|exact Hr].
  unfold assign_to_jobs. cbn [mapM assign_row map np_argmin argmin_from nth_error
                              jr_latitude jr_longitude jr_job_id jr_job_name].
  rewrite Hd.
  replace (Qle_bool (np_round3 d) 2) with true
    by (symmetry; apply Qle_bool_iff; rewrite Hr; apply Qle_refl).
  reflexivity.
Qed.

End AssignClaims.

Lemma assign_to_jobs_rounds_before_threshold_witness :
  (2 < 20002544796311224 # 10000000000000000)%Q /\
  assign_to_jobs sample_haversine_miles [((2895 # 100000)%Q, 0%Q)]
    [mk_job_row "J1" "Site A" 0 0] 2 =
  Some [mk_assignment "J1" "Site A" (np_round3 (20002544796311224 # 10000000000000000)) "Site A"].
Proof.
  split; [reflexivity|].
  apply (assign_to_jobs_rounds_before_threshold sample_haversine_miles "J1" "Site A"
           (20002544796311224 # 10000000000000000)); reflexivity.
Defined.

(* ================================================================== *)
(** * Further properties of the modelled code *)

Section DedupeMore.
Context `{PyRuntime}.

Lemma dedupe_step_cases bk r bk' :
  dedupe_step bk r = Some bk' -> bk' = bk \/ exists k, bk' = bk_set k r bk.
Proof.
  unfold dedupe_step. destruct (dedup_key r) as [k|]; [|discriminate]. cbv zeta.
  destruct (bk_lookup k bk) as [e|].
  - destruct (truthy (JObj e)); simpl negb; cbv iota.
    + destruct (rank_of e); [|discriminate]. destruct (rank_of r); [|discriminate].
      destruct (_ <? _); intros Hx; inversion Hx; subst; eauto.
    + intros Hx; inversion Hx; subst; eauto.
  - simpl. intros Hx; inversion Hx; eauto.
Qed.

Lemma bk_set_length k v m : (length (bk_set k v m) <= S (length m))%nat.
Proof.
  induction m as [|[k1 v1] m IH]; simpl; [lia|].
  destruct (dkey_eq_dec k k1); simpl; lia.
Qed.

Lemma dedupe_loop_from_input rs : forall bk bk',
  dedupe_loop bk rs = Some bk' ->
  (forall k o, In (k, o) bk' -> In (k, o) bk \/ In o rs) /\
  (length bk' <= length bk + length rs)%nat.
Proof.
  induction rs as [|r rs IH]; intros bk bk' Hl; simpl in Hl.
  - inversion Hl; subst. split; [intros k o I; left; exact I | simpl; lia].
  - destruct (dedupe_step bk r) as [bk1|] eqn:Hs; [|discriminate].
    destruct (IH bk1 bk' Hl) as [Hin Hlen].
    destruct (dedupe_step_cases bk r bk1 Hs) as [-> | [k ->]].
    + split; [|simpl; lia].
      intros k o I. destruct (Hin k o I) as [J|J]; [left; exact J | right; right; exact J].
    + pose proof (bk_set_length k r bk). split; [|simpl; lia].
      intros k' o I. destruct (Hin k' o I) as [J|J]; [|right; right; exact J].
      destruct (bk_set_in k r bk k' o J) as [[_ ->] | J']; [right; left; reflexivity | left; exact J'].
Qed.

End DedupeMore.

Lemma dedupe_from_input `{PyRuntime} (l l' : list dict) :
  dedupe_normalized_locations l = Some l' ->
  (forall r, In r l' -> In r l) /\
  (length l' <= length l)%nat /\
  exists ks, Forall2 (fun r k => dedup_key r = Some k) l' ks /\ NoDup ks.
Proof.
  unfold dedupe_normalized_locations.
  destruct (dedupe_loop [] l) as [bk|] eqn:Hl; [|discriminate]. intros Hx; inversion Hx; subst l'.
  destruct (dedupe_loop_from_input l [] bk Hl) as [Hin Hlen].
  assert (Hk : bk_keyed bk).
  { apply (dedupe_loop_keyed l [] bk); [split; [constructor | intros k o []] | exact Hl]. }
  destruct Hk as [Hnd Hkey].
  split; [|split].
  - intros r I. apply in_map_iff in I. destruct I as [[k o] [E I]]. simpl in E; subst o.
    destruct (Hin k r I) as [[] | J]; exact J.
  - rewrite length_map. simpl in Hlen. exact Hlen.
  - exists (map fst bk). split; [|exact Hnd].
    clear Hin Hlen Hl Hnd Hx. revert Hkey.
    induction bk as [|[k o] bk IHb]; intros Hkey; simpl; constructor.
    + apply Hkey. left; reflexivity.
    + apply IHb. intros k' o' I. apply Hkey. right; exact I.
Qed.

(** [dedupe_normalized_locations] invents no record: every record it returns
    is one of its input records, it returns at most as many records as it
    gets, and the records it returns have pairwise distinct dedup keys. *)
Theorem dedupe_output_from_input `{PyRuntime} (l l' : list dict) :
  dedupe_normalized_locations l = Some l' ->
  (forall r, In r l' -> In r l) /\
  (length l' <= length l)%nat /\
  exists ks, Forall2 (fun r k => dedup_key r = Some k) l' ks /\ NoDup ks.
Proof. exact (dedupe_from_input l l').
Qed.

Lemma dedupe_output_from_input_witness :
  dedupe_normalized_locations
    [ [("name", JStr "T"); ("latitude", JFloat 0); ("longitude", JFloat 0)];
      [("name", JStr "T"); ("latitude", JFloat 0); ("longitude", JFloat 0)] ]
  = Some [ [("name", JStr "T"); ("latitude", JFloat 0); ("longitude", JFloat 0)] ] /\
  (length [ [("name", JStr "T"); ("latitude", JFloat 0); ("longitude", JFloat 0)] ] <=
   length [ [("name", JStr "T"); ("latitude", JFloat 0); ("longitude", JFloat 0)];
            [("name", JStr "T"); ("latitude", JFloat 0); ("longitude", JFloat 0)] ])%nat.
Proof.
  assert (E : dedupe_normalized_locations
    [ [("name", JStr "T"); ("latitude", JFloat 0); ("longitude", JFloat 0)];
      [("name", JStr "T"); ("latitude", JFloat 0); ("longitude", JFloat 0)] ]
  = Some [ [("name", JStr "T"); ("latitude", JFloat 0); ("longitude", JFloat 0)] ])
    by (vm_compute; reflexivity).
  split; [exact E|]. exact (proj1 (proj2 (dedupe_output_from_input _ _ E))).
Defined.

Section NearestJobMore.
Context `{PyRuntime}.
Variable hav : Q -> Q -> Q -> Q -> Q.
Variables vlat vlon : Q.

Local Abbreviation dist := (job_distance hav vlat vlon).

Lemma nearest_scan_spec jobs : forall best res,
  nearest_scan hav vlat vlon best jobs = Some res ->
  (res = None -> best = None /\ forall j d, In j jobs -> dist j <> Some d) /\
  (forall j e, res = Some (j, e) ->
     (best = Some (j, e) /\ forall j' d', In j' jobs -> dist j' = Some d' -> (e <= d')%Q) \/
     (exists pre suf, jobs = (pre ++ j :: suf)%list /\ dist j = Some e /\
        (forall bj bd, best = Some (bj, bd) -> (e < bd)%Q) /\
        (forall j' d', In j' pre -> dist j' = Some d' -> (e < d')%Q) /\
        (forall j' d', In j' suf -> dist j' = Some d' -> (e <= d')%Q))).
Proof.
  induction jobs as [|job rest IH]; intros best res Hs.
  - simpl in Hs. inversion Hs; subst res. split.
    + intros ->. split; [reflexivity | intros j d []].
    + intros j e ->. left. split; [reflexivity | intros j' d' []].
  - cbn [nearest_scan] in Hs.
    destruct (is_none (py_get job "latitude") || is_none (py_get job "longitude")) eqn:Hc.
    + (* a job without coordinates is skipped *)
      assert (Hd : dist job = None) by (unfold job_distance; cbv zeta; rewrite Hc; reflexivity).
      destruct (IH best res Hs) as [Hn Hsm]. split.
      * intros Hr. destruct (Hn Hr) as [Hb Hall]. split; [exact Hb|].
        intros j d [<-|I]; [rewrite Hd; discriminate | exact (Hall j d I)].
      * intros j e Hr. destruct (Hsm j e Hr) as [[Hb Hall] | [pre [suf [Hj [Hdj [Hb [Hpre Hsuf]]]]]]].
        -- left. split; [exact Hb|]. intros j' d' [<-|I] Hd'; [rewrite Hd in Hd'; discriminate|].
           exact (Hall j' d' I Hd').
        -- right. exists (job :: pre), suf. rewrite Hj. split; [reflexivity|].
           split; [exact Hdj|]. split; [exact Hb|]. split; [|exact Hsuf].
           intros j' d' [<-|I] Hd'; [rewrite Hd in Hd'; discriminate | exact (Hpre j' d' I Hd')].
    + destruct (py_float (py_get job "latitude")) as [flat|] eqn:Hfa; [|discriminate].
      destruct (py_float (py_get job "longitude")) as [flon|] eqn:Hfo; [|discriminate].
      set (d := hav vlat vlon flat flon) in Hs.
      assert (Hd : dist job = Some d)
        by (unfold job_distance; cbv zeta; rewrite Hc, Hfa, Hfo; reflexivity).
      (* either [job] becomes the best so far, or the best is kept *)
      assert (Hcase : (nearest_scan hav vlat vlon (Some (job, d)) rest = Some res /\
                       forall bj bd, best = Some (bj, bd) -> (d < bd)%Q) \/
                      (exists bj bd, best = Some (bj, bd) /\ (bd <= d)%Q /\
                       nearest_scan hav vlat vlon best rest = Some res)).
      { destruct best as [[bj bd]|].
        - unfold Qlt_bool in Hs. destruct (Qle_bool bd d) eqn:Hq; simpl in Hs.
          + right. exists bj, bd. split; [reflexivity|]. split; [apply Qle_bool_iff; exact Hq | exact Hs].
          + left. split; [exact Hs|]. intros bj' bd' E. inversion E; subst.
            apply Qnot_le_lt. intros Hle. apply Qle_bool_iff in Hle. congruence.
        - left. split; [exact Hs | intros bj bd E; discriminate]. }
      destruct Hcase as [[Hs' Hbet] | [bj [bd [-> [Hle Hs']]]]].
      * destruct (IH _ _ Hs') as [Hn Hsm]. split.
        { intros Hr. destruct (Hn Hr) as [E _]. discriminate. }
        intros j e Hr. right.
        destruct (Hsm j e Hr) as [[E Hall] | [pre [suf [Hj [Hdj [Hb [Hpre Hsuf]]]]]]].
        -- inversion E; subst j e. exists [], rest. split; [reflexivity|]. split; [exact Hd|].
           split; [exact Hbet|]. split; [intros j' d' []|]. exact Hall.
        -- assert (Hed : (e < d)%Q) by exact (Hb job d eq_refl).
           exists (job :: pre), suf. rewrite Hj. split; [reflexivity|]. split; [exact Hdj|].
           split; [intros bj bd Eb; apply Qlt_trans with d; [exact Hed | exact (Hbet bj bd Eb)]|].
           split; [|exact Hsuf].
           intros j' d' [<-|I] Hd'; [rewrite Hd in Hd'; inversion Hd'; subst; exact Hed|].
           exact (Hpre j' d' I Hd').
      * destruct (IH _ _ Hs') as [Hn Hsm]. split.
        { intros Hr. destruct (Hn Hr) as [E _]. discriminate. }
        intros j e Hr. destruct (Hsm j e Hr) as [[E Hall] | [pre [suf [Hj [Hdj [Hb [Hpre Hsuf]]]]]]].
        -- left. split; [exact E|]. inversion E; subst j e.
           intros j' d' [<-|I] Hd'; [rewrite Hd in Hd'; inversion Hd'; subst; exact Hle|].
           exact (Hall j' d' I Hd').
        -- right. assert (Heb : (e < bd)%Q) by exact (Hb bj bd eq_refl).
           exists (job :: pre), suf. rewrite Hj. split; [reflexivity|]. split; [exact Hdj|].
           split; [exact Hb|]. split; [|exact Hsuf].
           intros j' d' [<-|I] Hd'.
           ++ rewrite Hd in Hd'. inversion Hd'; subst. apply Qlt_le_trans with bd; assumption.
           ++ exact (Hpre j' d' I Hd').
Qed.

End NearestJobMore.

(** [find_nearest_job] returns the nearest job within [max_distance_km]:
    the job it returns has coordinates, lies within the limit, is at least as
    close as every job with coordinates, and every job listed before it is
    strictly farther (the first nearest wins); when it returns no job, every
    job with coordinates is farther than [max_distance_km]. *)
Theorem find_nearest_job_nearest `{PyRuntime} (hav : Q -> Q -> Q -> Q -> Q) vlat vlon jobs maxd :
  (forall j, find_nearest_job hav vlat vlon jobs maxd = Some (Some j) ->
     exists pre suf e,
       jobs = (pre ++ j :: suf)%list /\ job_distance hav vlat vlon j = Some e /\ (e <= maxd)%Q /\
       (forall j' d', In j' pre -> job_distance hav vlat vlon j' = Some d' -> (e < d')%Q) /\
       (forall j' d', In j' jobs -> job_distance hav vlat vlon j' = Some d' -> (e <= d')%Q)) /\
  (find_nearest_job hav vlat vlon jobs maxd = Some None ->
     forall j' d', In j' jobs -> job_distance hav vlat vlon j' = Some d' -> (maxd < d')%Q).
Proof.
  unfold find_nearest_job.
  destruct (nearest_scan hav vlat vlon None jobs) as [res|] eqn:Hs.
  2:{ split; [intros j E; discriminate | intros E; discriminate]. }
  destruct (nearest_scan_spec hav vlat vlon jobs None res Hs) as [Hn Hsm].
  destruct res as [[bj e]|].
  - destruct (Hsm bj e eq_refl) as [[E _] | [pre [suf [Hj [Hdj [_ [Hpre Hsuf]]]]]]];
      [discriminate|].
    assert (Hall : forall j' d', In j' jobs -> job_distance hav vlat vlon j' = Some d' -> (e <= d')%Q).
    { intros j' d' I Hd'. rewrite Hj in I. apply in_app_or in I. destruct I as [I|[<-|I]].
      - apply Qlt_le_weak. exact (Hpre j' d' I Hd').
      - rewrite Hdj in Hd'. inversion Hd'; subst. apply Qle_refl.
      - exact (Hsuf j' d' I Hd'). }
    destruct (Qle_bool e maxd) eqn:Hq.
    + split.
      * intros j E. inversion E; subst j. exists pre, suf, e.
        split; [exact Hj|]. split; [exact Hdj|]. split; [apply Qle_bool_iff; exact Hq|].
        split; [exact Hpre | exact Hall].
      * intros E; discriminate.
    + split.
      * intros j E; discriminate.
      * intros _ j' d' I Hd'. apply Qlt_le_trans with e; [|exact (Hall j' d' I Hd')].
        apply Qnot_le_lt. intros Hle. apply Qle_bool_iff in Hle. congruence.
  - destruct (Hn eq_refl) as [_ Hnone]. split.
    + intros j E; discriminate.
    + intros _ j' d' I Hd'. exfalso. exact (Hnone j' d' I Hd').
Qed.

Lemma find_nearest_job_nearest_witness :
  exists pre suf e,
    [ [("latitude", JFloat 0); ("longitude", JFloat 0)] ] =
      (pre ++ [("latitude", JFloat 0); ("longitude", JFloat 0)] :: suf)%list /\
    job_distance sample_haversine_miles 0 0 [("latitude", JFloat 0); ("longitude", JFloat 0)] = Some e /\
    (e <= 3)%Q.
Proof.
  destruct (proj1 (find_nearest_job_nearest sample_haversine_miles 0 0
                     [ [("latitude", JFloat 0); ("longitude", JFloat 0)] ] 3)
              [("latitude", JFloat 0); ("longitude", JFloat 0)] ltac:(vm_compute; reflexivity))
    as [pre [suf [e [H1 [H2 [H3 _]]]]]].
  exists pre, suf, e. split; [exact H1|]. split; [exact H2 | exact H3].
Defined.

Section SyncMore.
Context `{PyRuntime}.

Lemma normalize_all_length cat items : forall recs sk,
  normalize_all cat items = Some (recs, sk) -> (length recs + sk = length items)%nat.
Proof.
  induction items as [|item rest IH]; intros recs sk Hn; cbn [normalize_all] in Hn.
  - inversion Hn; reflexivity.
  - destruct (normalize_location_record item cat) as [r|]; [|discriminate].
    destruct (normalize_all cat rest) as [[recs' sk']|]; [|discriminate].
    specialize (IH recs' sk' eq_refl).
    destruct r as [r|]; [destruct (truthy (JObj r))|]; inversion Hn; subst; cbn [length]; lia.
Qed.

Lemma mapM_length {A B : Type} (f : A -> option B) xs : forall ys,
  mapM f xs = Some ys -> length ys = length xs.
Proof.
  induction xs as [|x xs IH]; intros ys Hm; simpl in Hm.
  - inversion Hm; reflexivity.
  - destruct (f x); [|discriminate]. destruct (mapM f xs) as [ys'|] eqn:E; [|discriminate].
    inversion Hm; subst. simpl. rewrite (IH ys' eq_refl). reflexivity.
Qed.

Lemma persist_records_counts now recs : forall st ins sk st' ins' sk',
  persist_records now st recs ins sk = (st', Some (ins', sk')) ->
  (ins' + sk' = ins + sk + length recs)%nat.
Proof.
  induction recs as [|rec rest IH]; intros st ins sk st' ins' sk' Hp; cbn [persist_records] in Hp.
  - inversion Hp; subst. simpl. lia.
  - destruct (dict_lookup rec "external_id") as [ext|]; [|discriminate].
    destruct (dict_lookup rec "source_system") as [src|]; [|discriminate].
    destruct (dict_lookup rec "name") as [name|]; [|discriminate].
    destruct (upsert_vehicle now st ORGANIZATION_ID ext src name (py_get rec "vehicle_type"))
      as [[vid|] st1].
    + destruct (dict_lookup rec "latitude"), (dict_lookup rec "longitude"),
        (dict_lookup rec "speed_kph"), (dict_lookup rec "timestamp_utc"), (dict_lookup rec "raw");
        try discriminate.
      apply IH in Hp. simpl. lia.
    + apply IH in Hp. simpl. lia.
Qed.

Lemma filter_partition_length {A : Type} (f : A -> bool) l :
  (length (filter f l) + length (filter (fun x => negb (f x)) l) = length l)%nat.
Proof. induction l as [|x l IH]; [reflexivity|]. simpl. destruct (f x); simpl; lia. Qed.

End SyncMore.

(** The counters of a completed pass add up: every fetched item is counted
    as normalized or as skipped by the normalizer, dedupe never adds
    records, and every deduped record is counted exactly once as stale, as an
    inserted position or as a skipped blocklisted vehicle. *)
Theorem run_sync_once_counts `{PyRuntime} env st rep st' :
  run_sync_once env st = (Some rep, st') ->
  (exists v e a c,
     env_vehicles env = Some v /\ env_equipment env = Some e /\
     env_assets_v1 env = Some a /\ env_cat env = Some c /\
     (rep_skipped_normalize rep + rep_normalized rep =
        length v + length e + length a + length c)%nat) /\
  (rep_deduped rep <= rep_normalized rep)%nat /\
  (rep_stale rep + rep_inserted_positions rep + rep_skipped_deleted rep = rep_deduped rep)%nat.
Proof.
  unfold run_sync_once, fetch_all_location_payloads, fetch_cat_positions.
  destruct (env_vehicles env) as [v|] eqn:Ev; [|intros E; discriminate].
  destruct (env_equipment env) as [e|] eqn:Ee; [|intros E; discriminate].
  destruct (env_assets_v1 env) as [a|] eqn:Ea; [|intros E; discriminate]. cbv iota.
  destruct (normalize_all "vehicles_v2" v) as [[vr vs]|] eqn:Nv;
    [|intros E; discriminate].
  destruct (normalize_all "equipment_v2" e) as [[er es]|] eqn:Ne;
    [|intros E; discriminate].
  destruct (normalize_all "assets_v1" a) as [[ar as_]|] eqn:Na;
    [|intros E; discriminate].
  pose proof (normalize_all_length _ _ _ _ Nv) as Lv.
  pose proof (normalize_all_length _ _ _ _ Ne) as Le.
  pose proof (normalize_all_length _ _ _ _ Na) as La.
  destruct (env_cat env) as [c|] eqn:Ec; [|intros E; discriminate]. cbv iota.
  destruct (mapM normalize_cat_position c) as [cr|] eqn:Ecr; [|intros E; discriminate].
  pose proof (mapM_length _ c cr Ecr) as Lc.
  destruct (dedupe_normalized_locations (vr ++ er ++ ar ++ cr)%list) as [dd|] eqn:Ed;
    [|intros E; discriminate].
  destruct (negb _); [intros E; discriminate|].
  destruct (persist_records (env_now env) st _ 0 0) as [st1 [[ins sk]|]] eqn:Ep;
    [|intros E; discriminate].
  intros E. inversion E; subst rep st'. cbn.
  pose proof (persist_records_counts _ _ _ _ _ _ _ _ Ep) as Hc.
  pose proof (filter_partition_length (is_fresh_record (env_now env)) dd) as Hf.
  destruct (dedupe_from_input _ _ Ed) as [_ [Hlen _]].
  rewrite !length_app in *. split; [|split].
  - exists v, e, a, c. repeat split; lia.
  - exact Hlen.
  - lia.
Qed.

Lemma run_sync_once_counts_witness :
  exists rep st', run_sync_once sample_env_ok empty_store = (Some rep, st') /\
                  (rep_deduped rep <= rep_normalized rep)%nat.
Proof.
  lazymatch eval vm_compute in (run_sync_once sample_env_ok empty_store) with
  | (Some ?r, ?s) =>
      assert (E : run_sync_once sample_env_ok empty_store = (Some r, s)) by (vm_compute; reflexivity);
      exists r, s; split; [exact E | exact (proj1 (proj2 (run_sync_once_counts _ _ _ _ E)))]
  end.
Defined.

Section StoreMore.
Context `{PyRuntime}.

Lemma vehicle_lookup_put i r vs i' ro :
  vehicle_lookup i' vs = Some ro ->
  vehicle_lookup i' (vehicle_put i r vs) = Some ro \/
  (vehicle_lookup i vs = Some ro /\ vehicle_lookup i' (vehicle_put i r vs) = Some r).
Proof.
  induction vs as [|[k x] vs IH]; simpl; [discriminate|].
  destruct (identity_eqb i k) eqn:Eik; simpl.
  - destruct (identity_eqb i' k); intros Hl.
    + inversion Hl; subst. right. split; reflexivity.
    + left. exact Hl.
  - destruct (identity_eqb i' k); intros Hl; [left; exact Hl|].
    destruct (IH Hl) as [L|[L1 L2]]; [left; exact L | right; split; assumption].
Qed.

Lemma vehicle_lookup_put_same i r vs ro :
  vehicle_lookup i vs = Some ro -> vehicle_lookup i (vehicle_put i r vs) = Some r.
Proof.
  induction vs as [|[k x] vs IH]; simpl; [discriminate|].
  destruct (identity_eqb i k) eqn:Eik; simpl; rewrite Eik; [reflexivity|exact IH].
Qed.

Lemma identity_eqb_str_refl o e s : identity_eqb (o, JStr e, JStr s) (o, JStr e, JStr s) = true.
Proof. simpl. rewrite !String.eqb_refl. reflexivity. Qed.

Lemma vehicle_lookup_put_new o e s r vs :
  vehicle_lookup (o, JStr e, JStr s) vs = None ->
  vehicle_lookup (o, JStr e, JStr s) (vehicle_put (o, JStr e, JStr s) r vs) = Some r.
Proof.
  induction vs as [|[k x] vs IH]; cbn [vehicle_put vehicle_lookup].
  - intros _. rewrite identity_eqb_str_refl. reflexivity.
  - destruct (identity_eqb (o, JStr e, JStr s) k) eqn:E; [discriminate|].
    cbn [vehicle_lookup]. rewrite E. exact IH.
Qed.

Lemma upsert_vehicle_rows now st org ext src name vtype res st' :
  upsert_vehicle now st org ext src name vtype = (res, st') ->
  forall i ro, vehicle_lookup i (st_vehicles st) = Some ro ->
  exists rn, vehicle_lookup i (st_vehicles st') = Some rn /\
             vr_id rn = vr_id ro /\ vr_is_deleted rn = vr_is_deleted ro.
Proof.
  unfold upsert_vehicle. intros Hu i ro Hl.
  destruct (vehicle_lookup (org, ext, src) (st_vehicles st)) as [row|] eqn:Er.
  - destruct (vr_is_deleted row) eqn:Ed.
    + inversion Hu; subst. exists ro. split; [exact Hl | split; reflexivity].
    + inversion Hu; subst. cbn [st_vehicles].
      destruct (vehicle_lookup_put (org, ext, src)
                  (mk_vehicle_row (vr_id row) false
                     (if is_none name then vr_name row else name)
                     (if is_none vtype then vr_type row else vtype) now)
                  (st_vehicles st) i ro Hl) as [L | [L1 L2]].
      * exists ro. split; [exact L | split; reflexivity].
      * rewrite Er in L1. inversion L1; subst ro. eexists. split; [exact L2|]. split; [reflexivity|].
        cbn [vr_is_deleted]. symmetry. exact Ed.
  - inversion Hu; subst. cbn [st_vehicles].
    destruct (vehicle_lookup_put (org, ext, src) (mk_vehicle_row (st_next_id st) false name vtype now)
                (st_vehicles st) i ro Hl) as [L | [L1 L2]].
    + exists ro. split; [exact L | split; reflexivity].
    + rewrite Er in L1. discriminate.
Qed.

Lemma persist_records_rows now recs : forall st ins sk st' res,
  persist_records now st recs ins sk = (st', res) ->
  forall i ro, vehicle_lookup i (st_vehicles st) = Some ro ->
  exists rn, vehicle_lookup i (st_vehicles st') = Some rn /\
             vr_id rn = vr_id ro /\ vr_is_deleted rn = vr_is_deleted ro.
Proof.
  induction recs as [|rec rest IH]; intros st ins sk st' res Hp i ro Hl; cbn [persist_records] in Hp.
  - inversion Hp; subst. exists ro. split; [exact Hl | split; reflexivity].
  - destruct (dict_lookup rec "external_id") as [ext|];
      [|inversion Hp; subst; exists ro; split; [exact Hl | split; reflexivity]].
    destruct (dict_lookup rec "source_system") as [src|];
      [|inversion Hp; subst; exists ro; split; [exact Hl | split; reflexivity]].
    destruct (dict_lookup rec "name") as [name|];
      [|inversion Hp; subst; exists ro; split; [exact Hl | split; reflexivity]].
    destruct (upsert_vehicle now st ORGANIZATION_ID ext src name (py_get rec "vehicle_type"))
      as [vid st1] eqn:Hu.
    destruct (upsert_vehicle_rows _ _ _ _ _ _ _ _ _ Hu i ro Hl) as [r1 [L1 [I1 D1]]].
    destruct vid as [vid|].
    + destruct (dict_lookup rec "latitude"), (dict_lookup rec "longitude"),
        (dict_lookup rec "speed_kph"), (dict_lookup rec "timestamp_utc"), (dict_lookup rec "raw");
        try (inversion Hp; subst; exists r1; split; [exact L1 | split; assumption]).
      destruct (IH _ _ _ _ _ Hp i r1 L1) as [rn [Ln [In_ Dn]]].
      exists rn. split; [exact Ln|]. split; congruence.
    + destruct (IH _ _ _ _ _ Hp i r1 L1) as [rn [Ln [In_ Dn]]].
      exists rn. split; [exact Ln|]. split; congruence.
Qed.

End StoreMore.

(** A sync pass never blocklists, restores or renumbers a vehicle: every
    vehicle row present before [run_sync_once] is still found under its
    identity afterwards, with the same id and the same [is_deleted] flag,
    whatever the pass fetched and however it ended. *)
Theorem run_sync_once_keeps_vehicle_flags `{PyRuntime} env st res st' :
  run_sync_once env st = (res, st') ->
  forall i ro, vehicle_lookup i (st_vehicles st) = Some ro ->
  exists rn, vehicle_lookup i (st_vehicles st') = Some rn /\
             vr_id rn = vr_id ro /\ vr_is_deleted rn = vr_is_deleted ro.
Proof.
  intros Hr i ro Hl.
  assert (Hsame : st' = st -> exists rn, vehicle_lookup i (st_vehicles st') = Some rn /\
             vr_id rn = vr_id ro /\ vr_is_deleted rn = vr_is_deleted ro)
    by (intros ->; exists ro; split; [exact Hl | split; reflexivity]).
  unfold run_sync_once in Hr.
  destruct (fetch_all_location_payloads env) as [[[v e] a]|];
    [|inversion Hr; apply Hsame; congruence].
  destruct (normalize_all "vehicles_v2" v) as [[vr vs]|];
    [|inversion Hr; apply Hsame; congruence].
  destruct (normalize_all "equipment_v2" e) as [[er es]|];
    [|inversion Hr; apply Hsame; congruence].
  destruct (normalize_all "assets_v1" a) as [[ar as_]|];
    [|inversion Hr; apply Hsame; congruence].
  destruct (fetch_cat_positions env) as [cr|]; [|inversion Hr; apply Hsame; congruence].
  destruct (dedupe_normalized_locations _) as [dd|]; [|inversion Hr; apply Hsame; congruence].
  destruct (negb _); [inversion Hr; apply Hsame; congruence|].
  destruct (persist_records (env_now env) st _ 0 0) as [st1 counts] eqn:Ep.
  assert (Hst : st' = st1) by (destruct counts as [[ins sk]|]; inversion Hr; reflexivity).
  subst st'. exact (persist_records_rows _ _ _ _ _ _ _ Ep i ro Hl).
Qed.

Lemma run_sync_once_keeps_vehicle_flags_witness :
  vehicle_lookup (ORGANIZATION_ID, JStr "281", JStr "samsara") (st_vehicles live_store) =
    Some (mk_vehicle_row 0 false (JStr "Truck 7") JNull 0) /\
  exists rn, vehicle_lookup (ORGANIZATION_ID, JStr "281", JStr "samsara")
               (st_vehicles (snd (run_sync_once sample_env_ok live_store))) = Some rn /\
             vr_id rn = 0%nat /\ vr_is_deleted rn = false.
Proof.
  split; [reflexivity|].
  exact (run_sync_once_keeps_vehicle_flags sample_env_ok live_store _ _ (surjective_pairing _)
           (ORGANIZATION_ID, JStr "281", JStr "samsara") _ eq_refl).
Defined.

(** [upsert_vehicle] on an identity [(organization_id, external_id,
    source_system)] of strings that is not stored yet creates a row that is
    not deleted, with the next id, which it returns; upserting the same
    identity again returns the same id, creates no row, keeps the row not
    deleted, and keeps the stored name when the new name is [None]. *)
Theorem upsert_vehicle_insert_then_update `{PyRuntime} now st org e s name vtype :
  vehicle_lookup (org, JStr e, JStr s) (st_vehicles st) = None ->
  exists st1,
    upsert_vehicle now st org (JStr e) (JStr s) name vtype = (Some (st_next_id st), st1) /\
    vehicle_lookup (org, JStr e, JStr s) (st_vehicles st1) =
      Some (mk_vehicle_row (st_next_id st) false name vtype now) /\
    forall now2 name2 vtype2, exists st2,
      upsert_vehicle now2 st1 org (JStr e) (JStr s) name2 vtype2 = (Some (st_next_id st), st2) /\
      st_next_id st2 = st_next_id st1 /\
      vehicle_lookup (org, JStr e, JStr s) (st_vehicles st2) =
        Some (mk_vehicle_row (st_next_id st) false (if is_none name2 then name else name2)
                (if is_none vtype2 then vtype else vtype2) now2).
Proof.
  intros Hn. unfold upsert_vehicle at 1. rewrite Hn.
  eexists. split; [reflexivity|]. cbn [st_vehicles st_next_id].
  split; [apply vehicle_lookup_put_new; exact Hn|].
  intros now2 name2 vtype2. unfold upsert_vehicle. cbn [st_vehicles st_next_id].
  rewrite (vehicle_lookup_put_new _ _ _ _ _ Hn). cbn [vr_is_deleted vr_id vr_name vr_type].
  eexists. split; [reflexivity|]. cbn [st_vehicles st_next_id]. split; [reflexivity|].
  eapply vehicle_lookup_put_same. apply vehicle_lookup_put_new. exact Hn.
Qed.

Lemma upsert_vehicle_insert_then_update_witness :
  vehicle_lookup (ORGANIZATION_ID, JStr "281", JStr "samsara") (st_vehicles empty_store) = None /\
  exists st1,
    upsert_vehicle NOW_2026_10_14 empty_store ORGANIZATION_ID (JStr "281") (JStr "samsara")
      (JStr "Truck 7") JNull = (Some 0%nat, st1).
Proof.
  split; [reflexivity|].
  destruct (upsert_vehicle_insert_then_update NOW_2026_10_14 empty_store ORGANIZATION_ID "281" "samsara"
              (JStr "Truck 7") JNull eq_refl) as [st1 [Hu _]].
  exists st1. exact Hu.
Defined.

Section MaintenanceMore.

Lemma jval_eqb_str_l e x : jval_eqb (JStr e) x = true -> x = JStr e.
Proof. destruct x; simpl; try discriminate. intros E. apply String.eqb_eq in E. subst. reflexivity. Qed.

Lemma jval_eqb_str_r e x : jval_eqb x (JStr e) = true <-> x = JStr e.
Proof.
  split; [destruct x; simpl; try discriminate; intros E; apply String.eqb_eq in E; subst; reflexivity|].
  intros ->. simpl. apply String.eqb_refl.
Qed.

Lemma identity_eqb_str o e s k :
  identity_eqb (o, JStr e, JStr s) k = true -> k = (o, JStr e, JStr s).
Proof.
  destruct k as [[o' x] y]. simpl. intros E.
  apply andb_prop in E as [E E3]. apply andb_prop in E as [E1 E2].
  apply String.eqb_eq in E1. apply jval_eqb_str_l in E2. apply jval_eqb_str_l in E3. subst. reflexivity.
Qed.

Lemma selector_valid_ext e s :
  selector_valid None (Some e) None (Some s) = true -> e <> "" /\ s <> "".
Proof.
  unfold selector_valid, opt_truthy. simpl.
  destruct (String.eqb e "") eqn:E; [discriminate|].
  destruct (String.eqb s "") eqn:S'; [discriminate|].
  intros _. split; intros ->; discriminate.
Qed.

Lemma selector_matches_ext org e s r :
  e <> "" -> s <> "" ->
  selector_matches org None (Some e) None (Some s) ((org, JStr e, JStr s), r) = true.
Proof.
  intros He Hs. unfold selector_matches, opt_truthy, opt_jstr.
  rewrite String.eqb_refl. apply String.eqb_neq in He. rewrite He. simpl.
  rewrite !String.eqb_refl. reflexivity.
Qed.

Lemma selector_matches_with_is_deleted org vid ext name src i flag r :
  selector_matches org vid ext name src (i, with_is_deleted flag r) =
  selector_matches org vid ext name src (i, r).
Proof. destruct i as [[o x] y]. reflexivity. Qed.

Lemma update_is_deleted_lookup_ext from to st org e s n st1 ro :
  from = negb to ->
  update_is_deleted from to st org None (Some e) None (Some s) = Some (n, st1) ->
  vehicle_lookup (org, JStr e, JStr s) (st_vehicles st) = Some ro ->
  exists r, vehicle_lookup (org, JStr e, JStr s) (st_vehicles st1) = Some r /\
            vr_id r = vr_id ro /\ vr_is_deleted r = to.
Proof.
  intros Hft. unfold update_is_deleted.
  destruct (selector_valid None (Some e) None (Some s)) eqn:Hv; [|discriminate].
  destruct (selector_valid_ext _ _ Hv) as [He Hs].
  cbn [negb]. intros Hu. inversion Hu; subst st1 n; clear Hu. cbn [st_vehicles].
  induction (st_vehicles st) as [|[k x] vs IH]; cbn [vehicle_lookup]; [discriminate|].
  cbn [map vehicle_lookup fst snd].
  destruct (identity_eqb (org, JStr e, JStr s) k) eqn:Ek.
  - apply identity_eqb_str in Ek. subst k. intros Hl. inversion Hl; subst ro; clear Hl.
    pose proof (selector_matches_ext org e s x He Hs) as Hm.
    set (sm := selector_matches _ _ _ _ _ _).
    assert (Hsm : sm = true) by exact Hm. rewrite Hsm, andb_true_r.
    destruct (Bool.eqb (vr_is_deleted x) from) eqn:Ed; cbn [fst snd].
    + rewrite identity_eqb_str_refl. eexists. split; [reflexivity|]. split; reflexivity.
    + rewrite identity_eqb_str_refl. eexists. split; [reflexivity|]. split; [reflexivity|].
      subst from. destruct (vr_is_deleted x), to; simpl in Ed; congruence.
  - intros Hl. destruct (_ && _); cbn [fst]; rewrite Ek; exact (IH Hl).
Qed.

Lemma delete_rows_lookup_none gone st i :
  (forall k r, identity_eqb i k = true -> gone (k, r) = true) ->
  vehicle_lookup i (st_vehicles (delete_rows gone st)) = None.
Proof.
  intros Hg. unfold delete_rows. cbn [st_vehicles].
  induction (st_vehicles st) as [|[k x] vs IH]; [reflexivity|].
  cbn [filter]. destruct (identity_eqb i k) eqn:Ek.
  - rewrite (Hg k x Ek). exact IH.
  - destruct (negb (gone (k, x))); [cbn [vehicle_lookup]; rewrite Ek|]; exact IH.
Qed.

Lemma map_filter_all_false {A} (hit : A -> bool) (f : A -> A) l :
  (forall e, hit (if hit e then f e else e) = false) ->
  filter hit (map (fun e => if hit e then f e else e) l) = [] /\
  map (fun e => if hit e then f e else e) (map (fun e => if hit e then f e else e) l) =
  map (fun e => if hit e then f e else e) l.
Proof.
  intros Hno. induction l as [|e l [IH1 IH2]]; [split; reflexivity|].
  cbn [map filter]. rewrite Hno, IH1. split; [reflexivity|].
  f_equal. exact IH2.
Qed.

Lemma update_is_deleted_again from to st org vid ext name src n st1 :
  from <> to ->
  update_is_deleted from to st org vid ext name src = Some (n, st1) ->
  update_is_deleted from to st1 org vid ext name src = Some (0%nat, st1).
Proof.
  intros Hft. unfold update_is_deleted.
  destruct (negb (selector_valid vid ext name src)); [discriminate|].
  intros Hu. inversion Hu; subst st1 n; clear Hu. cbn [st_vehicles st_next_id st_positions].
  set (hit := fun e : identity * VehicleRow =>
                Bool.eqb (vr_is_deleted (snd e)) from && selector_matches org vid ext name src e).
  assert (Hno : forall e, hit (if hit e then (fst e, with_is_deleted to (snd e)) else e) = false).
  { intros [i r]. destruct (hit (i, r)) eqn:Eh; [|exact Eh].
    unfold hit in *. cbn [fst snd] in *. rewrite selector_matches_with_is_deleted.
    cbn [vr_is_deleted with_is_deleted].
    apply andb_prop in Eh as [Ed _]. apply Bool.eqb_prop in Ed.
    destruct to, from; simpl; try reflexivity; congruence. }
  destruct (map_filter_all_false hit (fun e => (fst e, with_is_deleted to (snd e)))
              (st_vehicles st) Hno) as [Hf Hm].
  f_equal. f_equal.
  - exact (f_equal (@length _) Hf).
  - f_equal. exact Hm.
Qed.

Lemma delete_vehicle_ext_gone st org e s b st1 :
  delete_vehicle st org None (Some e) None (Some s) = Some (b, st1) ->
  vehicle_lookup (org, JStr e, JStr s) (st_vehicles st1) = None /\ st_next_id st1 = st_next_id st.
Proof.
  unfold delete_vehicle.
  destruct (selector_valid None (Some e) None (Some s)) eqn:Hv; [|discriminate].
  destruct (selector_valid_ext _ _ Hv) as [He Hs].
  cbn [negb]. intros Hu. inversion Hu; subst st1 b; clear Hu. split; [|reflexivity].
  apply delete_rows_lookup_none. intros k r Ek. apply identity_eqb_str in Ek. subst k.
  apply selector_matches_ext; assumption.
Qed.

End MaintenanceMore.

(** Soft delete is a blocklist that sync respects and [restore_vehicle]
    lifts: after [soft_delete_vehicle] by [(external_id, source_system)] of
    a stored vehicle, every [upsert_vehicle] of that identity returns [None]
    and leaves the store as it is; after [restore_vehicle] by the same
    selector, [upsert_vehicle] returns the vehicle's original id again. *)
Theorem soft_delete_blocks_restore_unblocks `{PyRuntime} st org e s ro now name vtype :
  vehicle_lookup (org, JStr e, JStr s) (st_vehicles st) = Some ro ->
  (forall n st1, soft_delete_vehicle st org None (Some e) None (Some s) = Some (n, st1) ->
     upsert_vehicle now st1 org (JStr e) (JStr s) name vtype = (None, st1)) /\
  (forall n st1, restore_vehicle st org None (Some e) None (Some s) = Some (n, st1) ->
     fst (upsert_vehicle now st1 org (JStr e) (JStr s) name vtype) = Some (vr_id ro)).
Proof.
  intros Hl. split; intros n st1 Hu.
  - destruct (update_is_deleted_lookup_ext false true st org e s n st1 ro eq_refl Hu Hl)
      as [r [Lr [_ Dr]]].
    unfold upsert_vehicle. rewrite Lr, Dr. reflexivity.
  - destruct (update_is_deleted_lookup_ext true false st org e s n st1 ro eq_refl Hu Hl)
      as [r [Lr [Ir Dr]]].
    unfold upsert_vehicle. rewrite Lr, Dr. cbn [fst]. rewrite Ir. reflexivity.
Qed.

Lemma soft_delete_blocks_restore_unblocks_witness :
  vehicle_lookup (ORGANIZATION_ID, JStr "281", JStr "samsara") (st_vehicles live_store) =
    Some (mk_vehicle_row 0 false (JStr "Truck 7") JNull 0) /\
  exists n st1,
    soft_delete_vehicle live_store ORGANIZATION_ID None (Some "281") None (Some "samsara") = Some (n, st1) /\
    upsert_vehicle NOW_2026_10_14 st1 ORGANIZATION_ID (JStr "281") (JStr "samsara")
      (JStr "Truck 7") JNull = (None, st1).
Proof.
  split; [reflexivity|].
  eexists. eexists. split; [vm_compute; reflexivity|].
  apply (proj1 (soft_delete_blocks_restore_unblocks live_store ORGANIZATION_ID "281" "samsara"
                  (mk_vehicle_row 0 false (JStr "Truck 7") JNull 0) NOW_2026_10_14 (JStr "Truck 7") JNull
                  eq_refl) 1%nat).
  vm_compute. reflexivity.
Defined.

Section MaintenanceMore2.

Lemma selector_matches_ext_iff org e s k r :
  e <> "" -> s <> "" ->
  selector_matches org None (Some e) None (Some s) (k, r) = true <-> k = (org, JStr e, JStr s).
Proof.
  intros He Hs. split.
  - destruct k as [[o x] y]. unfold selector_matches, opt_truthy, opt_jstr.
    apply String.eqb_neq in He. rewrite He. cbn [negb].
    intros E. apply andb_prop in E as [E1 E]. apply andb_prop in E as [E2 E3].
    apply String.eqb_eq in E1. apply jval_eqb_str_r in E2. apply jval_eqb_str_r in E3. subst. reflexivity.
  - intros ->. apply selector_matches_ext; assumption.
Qed.

Lemma filter_nonempty_iff {A} (f : A -> bool) l :
  negb (Nat.eqb (length (filter f l)) 0) = true <-> exists x, In x l /\ f x = true.
Proof.
  rewrite negb_true_iff. split.
  - intros Hn. destruct (filter f l) as [|x xs] eqn:Ef; [discriminate|].
    exists x. apply filter_In. rewrite Ef. left. reflexivity.
  - intros [x Hx]. apply filter_In in Hx. destruct (filter f l); [contradiction|reflexivity].
Qed.

End MaintenanceMore2.

(** Calling [soft_delete_vehicle] (or [restore_vehicle]) a second time
    with the same arguments updates nothing: it returns 0 and leaves the
    store unchanged. *)
Theorem soft_delete_restore_repeat_noop st org vid ext name src n st1 :
  (soft_delete_vehicle st org vid ext name src = Some (n, st1) ->
   soft_delete_vehicle st1 org vid ext name src = Some (0%nat, st1)) /\
  (restore_vehicle st org vid ext name src = Some (n, st1) ->
   restore_vehicle st1 org vid ext name src = Some (0%nat, st1)).
Proof.
  split; apply update_is_deleted_again; discriminate.
Qed.

Lemma soft_delete_restore_repeat_noop_witness :
  exists st1,
    soft_delete_vehicle live_store ORGANIZATION_ID None None (Some "Dozer") None = Some (1%nat, st1) /\
    soft_delete_vehicle st1 ORGANIZATION_ID None None (Some "Dozer") None = Some (0%nat, st1).
Proof.
  eexists. split; [vm_compute; reflexivity|].
  apply (proj1 (soft_delete_restore_repeat_noop live_store ORGANIZATION_ID None None (Some "Dozer") None
                  1%nat _)).
  vm_compute. reflexivity.
Defined.

(** Hard deletion by [(external_id, source_system)] is not a blocklist:
    [delete_vehicle] reports [True] exactly when a row of that identity
    existed, removes it together with its positions, and the next
    [upsert_vehicle] of the identity creates a new row under a fresh id. *)
Theorem delete_vehicle_then_upsert_recreates `{PyRuntime} st org e s b st1 now name vtype :
  delete_vehicle st org None (Some e) None (Some s) = Some (b, st1) ->
  (b = true <-> exists r, In ((org, JStr e, JStr s), r) (st_vehicles st)) /\
  (forall r p, In ((org, JStr e, JStr s), r) (st_vehicles st) -> In p (st_positions st1) ->
               fst p <> vr_id r) /\
  vehicle_lookup (org, JStr e, JStr s) (st_vehicles st1) = None /\
  fst (upsert_vehicle now st1 org (JStr e) (JStr s) name vtype) = Some (st_next_id st).
Proof.
  intros Hd.
  destruct (delete_vehicle_ext_gone _ _ _ _ _ _ Hd) as [Hn Hid].
  unfold delete_vehicle in Hd.
  destruct (selector_valid None (Some e) None (Some s)) eqn:Hv; [|discriminate].
  destruct (selector_valid_ext _ _ Hv) as [He Hs].
  cbn [negb] in Hd. inversion Hd; subst b st1; clear Hd.
  split; [|split; [|split]].
  - rewrite filter_nonempty_iff. split.
    + intros [[k r] [Hin Hm]]. apply (selector_matches_ext_iff org e s k r He Hs) in Hm. subst k.
      exists r. exact Hin.
    + intros [r Hin]. exists ((org, JStr e, JStr s), r). split; [exact Hin|].
      apply selector_matches_ext; assumption.
  - intros r p Hin Hp. unfold delete_rows in Hp. cbn [st_positions] in Hp.
    apply filter_In in Hp as [_ Hp]. apply negb_true_iff in Hp.
    intros Heq. rewrite <- not_true_iff_false in Hp. apply Hp.
    apply existsb_exists. exists (vr_id r). split; [|apply Nat.eqb_eq; exact Heq].
    apply in_map_iff. exists ((org, JStr e, JStr s), r). split; [reflexivity|].
    apply filter_In. split; [exact Hin|]. apply selector_matches_ext; assumption.
  - exact Hn.
  - unfold upsert_vehicle. rewrite Hn. cbn [fst]. rewrite Hid. reflexivity.
Qed.

Lemma delete_vehicle_then_upsert_recreates_witness :
  exists st1,
    delete_vehicle live_store ORGANIZATION_ID None (Some "281") None (Some "samsara") = Some (true, st1) /\
    fst (upsert_vehicle NOW_2026_10_14 st1 ORGANIZATION_ID (JStr "281") (JStr "samsara") (JStr "Truck 7") JNull)
      = Some 2%nat.
Proof.
  eexists. split; [vm_compute; reflexivity|].
  exact (proj2 (proj2 (proj2 (delete_vehicle_then_upsert_recreates live_store ORGANIZATION_ID "281" "samsara"
           true _ NOW_2026_10_14 (JStr "Truck 7") JNull ltac:(vm_compute; reflexivity))))).
Defined.

Section StaleMore.

Lemma delete_rows_nothing gone st :
  filter gone (st_vehicles st) = [] -> delete_rows gone st = st.
Proof.
  destruct st as [vs nid ps]. unfold delete_rows. cbn [st_vehicles st_next_id st_positions].
  intros H0. rewrite H0. cbn [map existsb negb]. f_equal.
  - induction vs as [|x vs IH]; [reflexivity|]. cbn [filter] in *.
    destruct (gone x); [discriminate|]. cbn [negb]. f_equal. exact (IH H0).
  - induction ps as [|p ps IH]; [reflexivity|]. cbn [filter]. f_equal. exact IH.
Qed.

Lemma delete_rows_vehicles gone st e :
  In e (st_vehicles (delete_rows gone st)) <-> In e (st_vehicles st) /\ gone e = false.
Proof.
  unfold delete_rows. cbn [st_vehicles]. rewrite filter_In, negb_true_iff. reflexivity.
Qed.

Lemma delete_rows_positions gone st p :
  In p (st_positions (delete_rows gone st)) <->
  In p (st_positions st) /\ forall e, In e (st_vehicles st) -> gone e = true -> vr_id (snd e) <> fst p.
Proof.
  unfold delete_rows. cbn [st_positions]. rewrite filter_In, negb_true_iff.
  split; intros [Hin Hx]; split; try exact Hin.
  - intros e He Hg Heq. rewrite <- not_true_iff_false in Hx. apply Hx.
    apply existsb_exists. exists (vr_id (snd e)). split; [|apply Nat.eqb_eq; symmetry; exact Heq].
    apply in_map_iff. exists e. split; [reflexivity|]. apply filter_In. split; assumption.
  - apply not_true_iff_false. intros Hx'. apply existsb_exists in Hx' as [id [Hid Heq]].
    apply in_map_iff in Hid as [e [Hide He]]. apply filter_In in He as [He Hg].
    apply Nat.eqb_eq in Heq. apply (Hx e He Hg). congruence.
Qed.

End StaleMore.

(** [delete_stale_vehicles(organization_id, stale_days)] removes exactly
    the vehicles of that organization last seen before the cutoff
    [now - stale_days days]: the rows left are the rows of other
    organizations and the rows seen at or after the cutoff, the count it
    returns is the number of rows removed, and the positions removed are
    exactly those of the removed vehicles. *)
Theorem delete_stale_vehicles_cutoff now st org days n st1 :
  delete_stale_vehicles now st org days = Some (n, st1) ->
  (forall o x y r, In ((o, x, y), r) (st_vehicles st1) <->
     In ((o, x, y), r) (st_vehicles st) /\
     (o <> org \/ now - days * MICROS_PER_DAY <= vr_last_seen_at r)) /\
  (n + length (st_vehicles st1) = length (st_vehicles st))%nat /\
  (forall p, In p (st_positions st1) <->
     In p (st_positions st) /\
     forall o x y r, In ((o, x, y), r) (st_vehicles st) -> o = org ->
       vr_last_seen_at r < now - days * MICROS_PER_DAY -> vr_id r <> fst p).
Proof.
  unfold delete_stale_vehicles.
  destruct (Z.abs days >? TIMEDELTA_MAX_DAYS); [discriminate|].
  destruct ((now - days * MICROS_PER_DAY <? 0) || (DATETIME_MAX_WALL <? now - days * MICROS_PER_DAY));
    [discriminate|].
  set (cutoff := now - days * MICROS_PER_DAY).
  set (stale := fun e : identity * VehicleRow =>
                  let '(o, _, _, row) := e in String.eqb o org && (vr_last_seen_at row <? cutoff)).
  intros Hs. injection Hs as <- Hst.
  assert (Hd : st1 = delete_rows stale st).
  { subst st1. destruct (Nat.eqb (length (filter stale (st_vehicles st))) 0) eqn:E0; [|reflexivity].
    symmetry. apply delete_rows_nothing. apply Nat.eqb_eq in E0. apply length_zero_iff_nil. exact E0. }
  clear Hst. subst st1.
  assert (Hstale : forall o x y r, stale ((o, x, y), r) = true <-> o = org /\ vr_last_seen_at r < cutoff).
  { intros o x y r. cbn. rewrite andb_true_iff, String.eqb_eq, Z.ltb_lt. reflexivity. }
  split; [|split].
  - intros o x y r. rewrite delete_rows_vehicles. rewrite <- not_true_iff_false, Hstale.
    split; intros [Hin Hc]; split; try exact Hin.
    + destruct (String.eqb_spec o org); [right | left; assumption].
      destruct (Z_lt_le_dec (vr_last_seen_at r) cutoff) as [Hlt|Hle]; [|exact Hle].
      exfalso. apply Hc. split; assumption.
    + intros [-> Hlt]. destruct Hc; [congruence | lia].
  - unfold delete_rows. cbn [st_vehicles]. apply filter_partition_length.
  - intros p. rewrite delete_rows_positions. split; intros [Hin Hx]; split; try exact Hin.
    + intros o x y r Hv Ho Hlt. apply (Hx _ Hv). apply Hstale. split; assumption.
    + intros [[[o x] y] r] Hv Hg. apply Hstale in Hg as [Ho Hlt]. exact (Hx o x y r Hv Ho Hlt).
Qed.

Lemma delete_stale_vehicles_cutoff_witness :
  exists st1,
    delete_stale_vehicles NOW_2026_10_14 live_store ORGANIZATION_ID 7 = Some (1%nat, st1) /\
    (1 + length (st_vehicles st1) = length (st_vehicles live_store))%nat.
Proof.
  eexists. split; [vm_compute; reflexivity|].
  exact (proj1 (proj2 (delete_stale_vehicles_cutoff NOW_2026_10_14 live_store ORGANIZATION_ID 7 1%nat _
                         ltac:(vm_compute; reflexivity)))).
Defined.

Section PositionMore.

Lemma position_put_in vid p0 ps v p :
  NoDup (map fst ps) ->
  In (v, p) (position_put vid p0 ps) <-> (v = vid /\ p = p0) \/ (v <> vid /\ In (v, p) ps).
Proof.
  induction ps as [|[w q] ps IH]; intros Hnd; cbn [position_put].
  - simpl. split; [intros [E|[]]; inversion E; subst; left; split; reflexivity|].
    intros [[-> ->]|[_ []]]; left; reflexivity.
  - cbn [map] in Hnd. inversion Hnd as [|? ? Hw Hnd']; subst.
    destruct (Nat.eqb_spec vid w) as [->|Hne].
    + cbn [In]. split.
      * intros [E|Hin]; [inversion E; subst; left; split; reflexivity|].
        right. split; [|right; exact Hin].
        intros Hvw. subst v. apply Hw. apply in_map_iff. exists (w, p). split; [reflexivity|exact Hin].
      * intros [[-> ->]|[Hne [E|Hin]]]; [left; reflexivity| |right; exact Hin].
        inversion E; subst. contradiction.
    + cbn [In]. rewrite (IH Hnd'). split.
      * intros [E|[H1|H1]]; [inversion E; subst; right; split; [intros ->; contradiction|left; reflexivity]
                            | left; exact H1 | right; destruct H1; split; [assumption|right; assumption]].
      * intros [H1|[Hv [E|Hin]]]; [right; left; exact H1 | left; exact E | right; right; split; assumption].
Qed.

Lemma position_put_keys vid p0 ps :
  map fst (position_put vid p0 ps) = if existsb (Nat.eqb vid) (map fst ps) then map fst ps
                                     else (map fst ps ++ [vid])%list.
Proof.
  induction ps as [|[w q] ps IH]; [reflexivity|]. cbn [position_put map existsb fst].
  destruct (Nat.eqb vid w) eqn:E; cbn [map fst orb].
  - apply Nat.eqb_eq in E. subst. reflexivity.
  - rewrite IH. destruct (existsb (Nat.eqb vid) (map fst ps)); reflexivity.
Qed.

Lemma position_put_nodup vid p0 ps :
  NoDup (map fst ps) -> NoDup (map fst (position_put vid p0 ps)).
Proof.
  intros Hnd. rewrite position_put_keys.
  destruct (existsb (Nat.eqb vid) (map fst ps)) eqn:E; [exact Hnd|].
  apply NoDup_app; [exact Hnd | constructor; [intros []|constructor] |].
  intros x Hx [Hx'|[]]. subst x. rewrite <- not_true_iff_false in E. apply E.
  apply existsb_exists. exists vid. split; [exact Hx | apply Nat.eqb_refl].
Qed.

Lemma persist_records_positions_nodup `{PyRuntime} now recs : forall st ins sk st' res,
  persist_records now st recs ins sk = (st', res) ->
  NoDup (map fst (st_positions st)) -> NoDup (map fst (st_positions st')).
Proof.
  induction recs as [|rec rest IH]; intros st ins sk st' res Hp Hnd; cbn [persist_records] in Hp.
  - inversion Hp; subst. exact Hnd.
  - destruct (dict_lookup rec "external_id") as [ext|]; [|inversion Hp; subst; exact Hnd].
    destruct (dict_lookup rec "source_system") as [src|]; [|inversion Hp; subst; exact Hnd].
    destruct (dict_lookup rec "name") as [name|]; [|inversion Hp; subst; exact Hnd].
    destruct (upsert_vehicle now st ORGANIZATION_ID ext src name (py_get rec "vehicle_type"))
      as [vid st1] eqn:Hu.
    assert (Hp1 : st_positions st1 = st_positions st).
    { unfold upsert_vehicle in Hu.
      destruct (vehicle_lookup _ (st_vehicles st)) as [row|]; [destruct (vr_is_deleted row)|];
        inversion Hu; reflexivity. }
    destruct vid as [vid|].
    + destruct (dict_lookup rec "latitude"), (dict_lookup rec "longitude"),
        (dict_lookup rec "speed_kph"), (dict_lookup rec "timestamp_utc"), (dict_lookup rec "raw");
        try (inversion Hp; subst; rewrite Hp1; exact Hnd).
      apply (IH _ _ _ _ _ Hp). cbn [insert_position st_positions].
      apply position_put_nodup. rewrite Hp1. exact Hnd.
    + apply (IH _ _ _ _ _ Hp). rewrite Hp1. exact Hnd.
Qed.

End PositionMore.

(** [insert_position] keeps one position row per vehicle: on a store
    where the vehicle ids of the position rows are distinct they stay
    distinct, the vehicle's row is replaced by (or, if absent, added as) the
    new position, and the rows of the other vehicles are unchanged. *)
Theorem insert_position_upsert_by_vehicle st org vid lat lon speed ts raw :
  NoDup (map fst (st_positions st)) ->
  let st' := insert_position st org vid lat lon speed ts raw in
  NoDup (map fst (st_positions st')) /\
  forall v p, In (v, p) (st_positions st') <->
    (v = vid /\ p = mk_position_row org lat lon speed ts raw) \/
    (v <> vid /\ In (v, p) (st_positions st)).
Proof.
  intros Hnd st'. split.
  - apply position_put_nodup. exact Hnd.
  - intros v p. apply position_put_in. exact Hnd.
Qed.

Lemma insert_position_upsert_by_vehicle_witness :
  NoDup (map fst (st_positions live_store)) /\
  In (0%nat, mk_position_row ORGANIZATION_ID (JFloat 1) (JFloat 1) JNull JNull (JObj []))
     (st_positions (insert_position live_store ORGANIZATION_ID 0 (JFloat 1) (JFloat 1) JNull JNull (JObj []))).
Proof.
  assert (Hnd : NoDup (map fst (st_positions live_store))) by (vm_compute; repeat constructor; simpl; lia).
  split; [exact Hnd|].
  apply (proj2 (insert_position_upsert_by_vehicle live_store ORGANIZATION_ID 0 (JFloat 1) (JFloat 1)
                  JNull JNull (JObj []) Hnd)).
  left. split; reflexivity.
Defined.

(** A sync pass keeps one position row per vehicle: if the vehicle ids of
    the position rows are distinct before [run_sync_once], they are
    distinct after it. *)
Theorem run_sync_once_positions_nodup `{PyRuntime} env st res st' :
  run_sync_once env st = (res, st') ->
  NoDup (map fst (st_positions st)) -> NoDup (map fst (st_positions st')).
Proof.
  intros Hr Hnd. unfold run_sync_once in Hr.
  destruct (fetch_all_location_payloads env) as [[[v e] a]|]; [|inversion Hr; subst; exact Hnd].
  destruct (normalize_all "vehicles_v2" v) as [[vr vs]|]; [|inversion Hr; subst; exact Hnd].
  destruct (normalize_all "equipment_v2" e) as [[er es]|]; [|inversion Hr; subst; exact Hnd].
  destruct (normalize_all "assets_v1" a) as [[ar as_]|]; [|inversion Hr; subst; exact Hnd].
  destruct (fetch_cat_positions env) as [cr|]; [|inversion Hr; subst; exact Hnd].
  destruct (dedupe_normalized_locations _) as [dd|]; [|inversion Hr; subst; exact Hnd].
  destruct (negb _); [inversion Hr; subst; exact Hnd|].
  destruct (persist_records (env_now env) st _ 0 0) as [st1 counts] eqn:Ep.
  assert (Hst : st' = st1) by (destruct counts as [[ins sk]|]; inversion Hr; reflexivity).
  subst st'. exact (persist_records_positions_nodup _ _ _ _ _ _ _ Ep Hnd).
Qed.

Lemma run_sync_once_positions_nodup_witness :
  NoDup (map fst (st_positions (snd (run_sync_once sample_env_ok live_store)))).
Proof.
  apply (run_sync_once_positions_nodup sample_env_ok live_store
           (fst (run_sync_once sample_env_ok live_store)) (snd (run_sync_once sample_env_ok live_store))
           (surjective_pairing _)).
  vm_compute. repeat constructor; simpl; lia.
Defined.

Section EnsureMore.
Context `{PyRuntime}.
Variable fromisoformat : string -> option datetime.

Lemma astimezone_utc_offset d d' : astimezone_utc d = Some d' -> dt_offset d' = Some 0.
Proof.
  unfold astimezone_utc. set (u := utc_instant d).
  destruct ((u <? 0) || (DATETIME_MAX_WALL <? u)); intros E; inversion E; reflexivity.
Qed.

Lemma fromtimestamp_utc_offset v d' : fromtimestamp_utc v = Some d' -> dt_offset d' = Some 0.
Proof.
  unfold fromtimestamp_utc. set (w := EPOCH_WALL + round_micros v).
  destruct ((w <? 0) || (DATETIME_MAX_WALL <? w)); intros E; inversion E; reflexivity.
Qed.

Lemma ensure_from_str_offset now s : dt_offset (ensure_from_str fromisoformat now s) = Some 0.
Proof.
  unfold ensure_from_str.
  destruct (fromisoformat _) as [dt|].
  - destruct (astimezone_utc _) as [d|] eqn:Ea; [exact (astimezone_utc_offset _ _ Ea)|].
    destruct (float_of_string _) as [v|]; cbn; [|reflexivity].
    destruct (fromtimestamp_utc _) as [d|] eqn:Ef; [exact (fromtimestamp_utc_offset _ _ Ef)|reflexivity].
  - destruct (float_of_string _) as [v|]; cbn; [|reflexivity].
    destruct (fromtimestamp_utc _) as [d|] eqn:Ef; [exact (fromtimestamp_utc_offset _ _ Ef)|reflexivity].
Qed.

Lemma round_micros_int z : round_micros (inject_Z z) = z * 1000000.
Proof.
  unfold round_micros, round_half_even, inject_Z. cbn [Qnum Qden].
  rewrite Z.div_1_r, Z.mod_1_r, Z.mul_0_r. change (0 <? 1) with true. cbv iota.
  destruct (Z.ltb_spec z 0); [rewrite Z.abs_neq by lia | rewrite Z.abs_eq by lia]; lia.
Qed.

Lemma round_micros_ms z : round_micros (inject_Z (1000 * z) / 1000) = z * 1000000.
Proof.
  unfold round_micros, round_half_even. cbn [Qdiv Qmult Qinv inject_Z Qnum Qden].
  replace (Z.abs (1000 * z * 1) * 1000000) with ((Z.abs z * 1000000) * Zpos (1 * 1000))
    by (rewrite Z.mul_1_r, Z.abs_mul; change (Z.abs 1000) with 1000; change (Zpos (1 * 1000)) with 1000; lia).
  rewrite Z.div_mul, Z_mod_mult, Z.mul_0_r by discriminate. change (0 <? Zpos (1 * 1000)) with true.
  cbv iota.
  destruct (Z.ltb_spec (1000 * z * 1) 0); [rewrite Z.abs_neq by lia | rewrite Z.abs_eq by lia]; lia.
Qed.

Lemma Qlt_bool_inject_Z a b : Qlt_bool (inject_Z a) (inject_Z b) = (a <? b).
Proof.
  unfold Qlt_bool, Qle_bool, inject_Z. cbn [Qnum Qden]. rewrite !Z.mul_1_r.
  destruct (Z.ltb_spec a b), (Z.leb_spec b a); reflexivity || lia.
Qed.

Lemma string_app_assoc (a b c : string) : ((a ++ b) ++ c = a ++ (b ++ c))%string.
Proof. induction a as [|x a IH]; [reflexivity|]. cbn. rewrite IH. reflexivity. Qed.

Lemma lstrip_ws_app s c t :
  is_py_space c = false -> lstrip_ws (s ++ String c t) = (lstrip_ws s ++ String c t)%string.
Proof.
  intros Hc. induction s as [|a s IH]; cbn; [rewrite Hc; reflexivity|].
  destruct (is_py_space a); [exact IH | reflexivity].
Qed.

Lemma rstrip_ws_last s c :
  is_py_space c = false -> rstrip_ws (s ++ String c "") = (s ++ String c "")%string.
Proof.
  intros Hc. induction s as [|a s IH]; cbn; [rewrite Hc; reflexivity|].
  rewrite IH. destruct s; reflexivity.
Qed.

Lemma ends_with_Z_app s : ends_with_Z (s ++ "Z") = true.
Proof. induction s as [|a s IH]; [reflexivity|]. cbn. destruct (s ++ "Z")%string eqn:E; [destruct s; discriminate|exact IH]. Qed.

Lemma drop_last_app s c : drop_last (s ++ String c "") = s.
Proof.
  induction s as [|a s IH]; [reflexivity|]. destruct s as [|b s]; [reflexivity|].
  cbn [append] in *.
  change (drop_last (String a (String b (s ++ String c ""))))
    with (String a (drop_last (String b (s ++ String c "")))).
  rewrite IH. reflexivity.
Qed.

Lemma ends_with_Z_utc s : ends_with_Z (s ++ "+00:00") = false.
Proof.
  induction s as [|a s IH]; [reflexivity|]. cbn.
  destruct (s ++ "+00:00")%string eqn:E; [destruct s; discriminate|exact IH].
Qed.

Lemma py_strip_Z s : py_strip (s ++ "Z") = (lstrip_ws s ++ "Z")%string.
Proof.
  unfold py_strip. rewrite lstrip_ws_app by reflexivity. apply rstrip_ws_last. reflexivity.
Qed.

Lemma py_strip_utc s : py_strip (s ++ "+00:00") = (lstrip_ws s ++ "+00:00")%string.
Proof.
  unfold py_strip. rewrite lstrip_ws_app by reflexivity.
  change "+00:00"%string with ("+00:0" ++ "0")%string. rewrite <- string_app_assoc.
  apply rstrip_ws_last. reflexivity.
Qed.

Lemma ensure_from_str_Z now s :
  ensure_from_str fromisoformat now (s ++ "Z") = ensure_from_str fromisoformat now (s ++ "+00:00").
Proof.
  unfold ensure_from_str. rewrite py_strip_Z, py_strip_utc, ends_with_Z_app, ends_with_Z_utc.
  rewrite drop_last_app. reflexivity.
Qed.

End EnsureMore.

(** Whatever [_ensure_datetime_utc] returns is an aware datetime in UTC
    (offset 0), in each of its branches: datetimes, numbers, strings and
    the fallback [now]. *)
Theorem ensure_datetime_utc_aware `{PyRuntime} fromisoformat now ts d :
  _ensure_datetime_utc fromisoformat now ts = Some d -> dt_offset d = Some 0.
Proof.
  unfold _ensure_datetime_utc.
  destruct ts as [|s|dt|v].
  - intros E. inversion E. reflexivity.
  - intros E. inversion E. apply ensure_from_str_offset.
  - destruct (dt_offset dt); [apply astimezone_utc_offset | intros E; inversion E; reflexivity].
  - destruct v; cbv beta iota; try (intros E; inversion E; reflexivity);
      try (destruct (py_float _); [apply fromtimestamp_utc_offset | discriminate]).
    intros E. inversion E. apply ensure_from_str_offset.
Qed.

Lemma ensure_datetime_utc_aware_witness :
  exists d, _ensure_datetime_utc sample_fromisoformat NOW_2026_10_14 (TsOther (JInt 1760400000)) = Some d /\
            dt_offset d = Some 0.
Proof.
  eexists. split; [vm_compute; reflexivity|].
  apply (ensure_datetime_utc_aware sample_fromisoformat NOW_2026_10_14 (TsOther (JInt 1760400000))).
  vm_compute. reflexivity.
Defined.

(** An integer timestamp up to [10^12] is read as Unix seconds: it gives
    the UTC datetime [z] seconds after 1970-01-01, and raises (no fallback
    to [now]) when that instant is before year 1 or after year 9999.  An
    integer above [10^12] is read as milliseconds: [1000 * z] gives the same
    result as [z] for every [z] with [10^9 < z <= 10^12]. *)
Theorem ensure_datetime_utc_epoch_int `{PyRuntime} fromisoformat now z :
  z <= 10 ^ 12 ->
  _ensure_datetime_utc fromisoformat now (TsOther (JInt z)) =
    (if (z <? -62135596800) || (253402300800 <=? z) then None
     else Some (mk_datetime (EPOCH_WALL + z * 1000000) (Some 0))) /\
  (10 ^ 9 < z ->
   _ensure_datetime_utc fromisoformat now (TsOther (JInt (1000 * z))) =
   _ensure_datetime_utc fromisoformat now (TsOther (JInt z))).
Proof.
  intros Hz.
  assert (Hlim : 10 ^ 16 < FLOAT_INT_LIMIT) by (apply Z.ltb_lt; vm_compute; reflexivity).
  assert (Hf : forall y, Z.abs y < FLOAT_INT_LIMIT -> py_float (JInt y) = Some (inject_Z y)).
  { intros y Hy. unfold py_float; cbn [py_float_res].
    destruct (Z.leb_spec FLOAT_INT_LIMIT (Z.abs y)); [lia|reflexivity]. }
  destruct (Z.leb_spec FLOAT_INT_LIMIT (Z.abs z)) as [Hbig|Hsmall].
  { split; [|intros; lia].
    unfold _ensure_datetime_utc, py_float. cbn [py_float_res].
    rewrite (proj2 (Z.leb_le _ _) Hbig).
    replace (z <? -62135596800) with true by (symmetry; apply Z.ltb_lt; lia). reflexivity. }
  assert (Hs : _ensure_datetime_utc fromisoformat now (TsOther (JInt z)) =
               fromtimestamp_utc (inject_Z z)).
  { unfold _ensure_datetime_utc. cbv beta iota. rewrite (Hf z Hsmall). cbv beta iota.
    unfold epoch_seconds.
    rewrite Qlt_bool_inject_Z. destruct (Z.ltb_spec (10 ^ 12) z); [lia|reflexivity]. }
  split.
  - rewrite Hs. unfold fromtimestamp_utc. rewrite round_micros_int.
    unfold EPOCH_WALL, DATETIME_MAX_WALL.
    destruct (Z.ltb_spec z (-62135596800)), (Z.leb_spec 253402300800 z),
      (Z.ltb_spec (719162 * 86400000000 + z * 1000000) 0),
      (Z.ltb_spec (3652059 * 86400000000 - 1) (719162 * 86400000000 + z * 1000000));
      cbn [orb]; reflexivity || lia.
  - intros Hz9. rewrite Hs. unfold _ensure_datetime_utc. cbv beta iota.
    rewrite (Hf (1000 * z)) by lia. cbv beta iota. unfold epoch_seconds.
    rewrite Qlt_bool_inject_Z. destruct (Z.ltb_spec (10 ^ 12) (1000 * z)); [|lia].
    unfold fromtimestamp_utc. rewrite round_micros_ms, round_micros_int. reflexivity.
Qed.

Lemma ensure_datetime_utc_epoch_int_witness :
  _ensure_datetime_utc sample_fromisoformat NOW_2026_10_14 (TsOther (JInt 1760400000000)) =
  _ensure_datetime_utc sample_fromisoformat NOW_2026_10_14 (TsOther (JInt 1760400000)).
Proof.
  apply (proj2 (ensure_datetime_utc_epoch_int sample_fromisoformat NOW_2026_10_14 1760400000
                  ltac:(lia))). lia.
Defined.

(** A timestamp string ending in ["Z"] is read exactly as the same string
    with ["+00:00"] in place of the ["Z"], whatever the parser and whatever
    surrounds it. *)
Theorem ensure_datetime_utc_Z_suffix `{PyRuntime} fromisoformat now s :
  _ensure_datetime_utc fromisoformat now (TsStr (s ++ "Z")) =
  _ensure_datetime_utc fromisoformat now (TsStr (s ++ "+00:00")).
Proof.
  unfold _ensure_datetime_utc. rewrite ensure_from_str_Z. reflexivity.
Qed.

Section PaginationMore.

Lemma dict_lookup_set_same d k v : dict_lookup (dict_set d k v) k = Some v.
Proof.
  induction d as [|[k' v'] d IH]; cbn; [rewrite String.eqb_refl; reflexivity|].
  destruct (String.eqb k k') eqn:E; cbn; rewrite E; [reflexivity|exact IH].
Qed.

Lemma dict_lookup_set_other d k k2 v : k2 <> k -> dict_lookup (dict_set d k v) k2 = dict_lookup d k2.
Proof.
  intros Hne. apply String.eqb_neq in Hne.
  induction d as [|[k' v'] d IH]; cbn; [rewrite Hne; reflexivity|].
  destruct (String.eqb k k') eqn:E; cbn.
  - apply String.eqb_eq in E. subst k'. rewrite Hne. reflexivity.
  - destruct (String.eqb k2 k'); [reflexivity|exact IH].
Qed.

Lemma chain_lookup_nodup c items pre sfx :
  NoDup (map fst (pre ++ (c, items) :: sfx)) ->
  chain_lookup c (pre ++ (c, items) :: sfx) = Some (items, option_map fst (hd_error sfx)).
Proof.
  induction pre as [|[c0 i0] pre IH]; cbn.
  - rewrite String.eqb_refl. reflexivity.
  - intros Hnd. inversion Hnd as [|? ? Hn Hnd']; subst.
    destruct (String.eqb_spec c c0) as [->|_]; [|exact (IH Hnd')].
    exfalso. apply Hn. rewrite map_app. apply in_or_app. right. left. reflexivity.
Qed.

Lemma paginate_page http_get url data_key P cur acc items next f :
  data_key <> "pagination" ->
  http_get url (if truthy cur then dict_set P "after" cur else P) =
    Some (200, Some (cursor_page data_key items next)) ->
  paginate_loop http_get (S f) url data_key P cur acc =
  match next with
  | Some c =>
      if String.eqb c "" then PagesDone (acc ++ items)
      else paginate_loop http_get f url data_key (if truthy cur then dict_set P "after" cur else P)
             (JStr c) (acc ++ items)
  | None => PagesDone (acc ++ items)
  end.
Proof.
  intros Hk Hg. cbn [paginate_loop]. rewrite Hg. cbn [negb Z.eqb].
  unfold cursor_page, py_get_default, py_get. cbn [dict_lookup].
  rewrite String.eqb_refl.
  assert (Hp : String.eqb "pagination" data_key = false) by (apply String.eqb_neq; congruence).
  unfold py_get_default. cbn [dict_lookup]. rewrite Hp.
  destruct next as [c|]; cbn; [|reflexivity].
  destruct (String.eqb c ""); reflexivity.
Qed.

End PaginationMore.

(** [_fetch_paginated] follows the cursors to the end: against an endpoint
    that serves a first page and then a chain of pages by their cursors
    (distinct, non-empty), it returns the items of all pages, in page
    order, provided the caller's params hold no [after] and [data_key] is
    not ["pagination"]. *)
Theorem fetch_paginated_follows_cursors fuel tok path data_key params limit first rest :
  tok <> "" -> data_key <> "pagination" ->
  NoDup (map fst rest) -> Forall (fun c => c <> "") (map fst rest) ->
  dict_lookup params "after" = None -> (length rest < fuel)%nat ->
  _fetch_paginated (chain_server data_key first rest) fuel (Some tok) path data_key (Some params) limit =
  PagesDone (first ++ concat (map snd rest)).
Proof.
  intros Htok Hk Hnd Hne Haf Hf.
  set (srv := chain_server data_key first rest).
  assert (Hloop : forall f sfx pre acc P c items,
             rest = (pre ++ (c, items) :: sfx)%list -> (length sfx < f)%nat ->
             paginate_loop srv f (SAMSARA_BASE_URL ++ path) data_key P (JStr c) acc =
             PagesDone (acc ++ items ++ concat (map snd sfx))).
  { induction f as [|f IH]; intros sfx pre acc P c items Hr Hl; [lia|].
    assert (Hc : c <> "") by
      (rewrite Forall_forall in Hne; apply Hne; rewrite Hr, map_app; apply in_or_app; right; left;
       reflexivity).
    assert (Ht : truthy (JStr c) = true) by (cbn; apply negb_true_iff, String.eqb_neq; exact Hc).
    assert (Hs : srv (SAMSARA_BASE_URL ++ path) (if truthy (JStr c) then dict_set P "after" (JStr c) else P) =
                 Some (200, Some (cursor_page data_key items (option_map fst (hd_error sfx))))).
    { rewrite Ht. unfold srv, chain_server. rewrite dict_lookup_set_same.
      rewrite Hr in Hnd |- *. rewrite (chain_lookup_nodup _ _ _ _ Hnd). reflexivity. }
    rewrite (paginate_page _ _ _ _ _ _ _ _ _ Hk Hs). rewrite Ht.
    destruct sfx as [|[c' items'] sfx]; cbn [hd_error option_map fst].
    - rewrite app_nil_r. reflexivity.
    - assert (Hc' : c' <> "") by
        (rewrite Forall_forall in Hne; apply Hne; rewrite Hr, map_app; apply in_or_app; right; right;
         left; reflexivity).
      apply String.eqb_neq in Hc'. rewrite Hc'.
      rewrite (IH sfx (pre ++ [(c, items)])%list (acc ++ items)%list _ c' items').
      + rewrite <- !app_assoc. reflexivity.
      + rewrite Hr, <- app_assoc. reflexivity.
      + cbn in Hl. lia. }
  unfold _fetch_paginated. apply String.eqb_neq in Htok. rewrite Htok.
  set (P0 := dict_setdefault params "limit" (JInt limit)).
  assert (HP0 : dict_lookup P0 "after" = None).
  { unfold P0, dict_setdefault. destruct (dict_lookup params "limit"); [exact Haf|].
    rewrite dict_lookup_set_other by discriminate. exact Haf. }
  destruct fuel as [|fuel]; [lia|].
  assert (Hs0 : srv (SAMSARA_BASE_URL ++ path) (if truthy JNull then dict_set P0 "after" JNull else P0) =
                Some (200, Some (cursor_page data_key first (option_map fst (hd_error rest)))))
    by (cbn [truthy]; unfold srv, chain_server; rewrite HP0; reflexivity).
  rewrite (paginate_page srv _ data_key P0 JNull [] _ _ fuel Hk Hs0).
  destruct rest as [|[c items] rest'] eqn:Er; cbn [hd_error option_map fst].
  - rewrite !app_nil_r. reflexivity.
  - assert (Hc : c <> "") by (inversion Hne; assumption).
    apply String.eqb_neq in Hc. rewrite Hc.
    cbn [truthy app]. rewrite (Hloop fuel rest' [] first P0 c items) by (reflexivity || (cbn in Hf; lia)).
    reflexivity.
Qed.

Lemma fetch_paginated_follows_cursors_witness :
  _fetch_paginated (chain_server "data" [JInt 1; JInt 2] [("c1", [JInt 3]); ("c2", [JInt 4; JInt 5])])
    5 (Some "token") "/fleet/vehicles/stats" "data" (Some []) 200 =
  PagesDone [JInt 1; JInt 2; JInt 3; JInt 4; JInt 5].
Proof.
  apply (fetch_paginated_follows_cursors 5 "token" "/fleet/vehicles/stats" "data" [] 200 [JInt 1; JInt 2]
           [("c1", [JInt 3]); ("c2", [JInt 4; JInt 5])]).
  - discriminate.
  - discriminate.
  - cbn. constructor; [intros [E|[]]; discriminate|]. constructor; [intros []|constructor].
  - cbn. constructor; [discriminate|]. constructor; [discriminate|constructor].
  - reflexivity.
  - cbn. lia.
Defined.

Section CatPagingMore.
Context `{PyRuntime}.
Variable url_path : string -> option string.
Variable int_of_string : string -> option Z.
Variable fetch_page : Z -> option JVal.

Lemma cat_pages_self_loop p raw items n acc :
  fetch_page p = Some raw ->
  mapM normalize_cat_item (_extract_items_from_fleet_json raw) = Some items ->
  _get_next_page_number url_path int_of_string raw = Some (Some p) -> p <> 0 ->
  cat_pages url_path int_of_string fetch_page n p acc = Some (acc ++ concat (repeat items n))%list.
Proof.
  intros Hf Hm Hn Hp. revert acc. induction n as [|n IH]; intros acc.
  - cbn. rewrite app_nil_r. reflexivity.
  - cbn [cat_pages]. rewrite Hf, Hm, Hn.
    destruct (Z.eqb_spec p 0) as [E|_]; [contradiction|].
    rewrite IH. cbn [repeat concat]. rewrite app_assoc. reflexivity.
Qed.

End CatPagingMore.

(** [fetch_cat_positions] has no loop detection: when a page's [Next] link
    leads back to the same page number, it fetches that page again on every
    round and returns its machines once per round, [max_pages] times. *)
Theorem fetch_cat_positions_self_link `{PyRuntime} url_path int_of_string fetch_page p raw items max_pages :
  fetch_page p = Some raw ->
  mapM normalize_cat_item (_extract_items_from_fleet_json raw) = Some items ->
  _get_next_page_number url_path int_of_string raw = Some (Some p) -> p <> 0 ->
  fetch_cat_positions_paged url_path int_of_string fetch_page p max_pages =
  Some (concat (repeat items (Z.to_nat max_pages))).
Proof.
  intros Hf Hm Hn Hp. unfold fetch_cat_positions_paged.
  exact (cat_pages_self_loop url_path int_of_string fetch_page p raw items _ [] Hf Hm Hn Hp).
Qed.

Lemma fetch_cat_positions_self_link_witness :
  exists items,
    mapM normalize_cat_item (_extract_items_from_fleet_json sample_cat_page) = Some items /\
    fetch_cat_positions_paged sample_url_path sample_int_of_string (fun _ => Some sample_cat_page) 1 3 =
    Some (items ++ items ++ items)%list.
Proof.
  eexists. split; [vm_compute; reflexivity|].
  rewrite (fetch_cat_positions_self_link sample_url_path sample_int_of_string (fun _ => Some sample_cat_page)
             1 sample_cat_page _ 3 eq_refl ltac:(vm_compute; reflexivity) ltac:(vm_compute; reflexivity)
             ltac:(discriminate)).
  reflexivity.
Defined.

(** Every CAT machine whose header has a falsy [EquipmentID] and a falsy
    [SerialNumber] is normalized with [external_id] ["unknown"] and
    [source_system] ["cat"]: all such machines share one vehicle identity,
    the key [upsert_vehicle] writes on. *)
Theorem cat_anonymous_machines_share_identity `{PyRuntime} raw header rec :
  sub_dict raw "EquipmentHeader" = Some header ->
  truthy (py_get header "EquipmentID") = false ->
  truthy (py_get header "SerialNumber") = false ->
  normalize_cat_position raw = Some rec ->
  dict_lookup rec "external_id" = Some (JStr "unknown") /\
  dict_lookup rec "source_system" = Some (JStr "cat").
Proof.
  intros Hh He Hs. unfold normalize_cat_position. rewrite Hh.
  destruct (sub_dict raw "Location"); [|discriminate].
  destruct (sub_dict raw "Distance"); [|discriminate].
  intros E. inversion E; subst rec; clear E.
  unfold py_or at 1 2. rewrite He, Hs. split; reflexivity.
Qed.

Lemma cat_anonymous_machines_share_identity_witness :
  exists rec,
    normalize_cat_position (sample_cat_anonymous (JStr "D6")) = Some rec /\
    dict_lookup rec "external_id" = Some (JStr "unknown").
Proof.
  eexists. split; [vm_compute; reflexivity|].
  refine (proj1 (cat_anonymous_machines_share_identity (sample_cat_anonymous (JStr "D6"))
                   [("EquipmentID", JNull); ("SerialNumber", JStr ""); ("Model", JStr "D6")] _
                   eq_refl eq_refl eq_refl _)).
  vm_compute. reflexivity.
Defined.

(** [normalize_vehicle_record] returns [None] exactly when the item lacks
    an [id] that is not [None], a non-empty dict under [gps] (or else
    [gpsLocation]), or in that dict a latitude, a longitude and a [time] (or
    else [receivedAt]) that are not [None].  An item that has them all gives
    a record, unless its odometer value (under [obdOdometerMeters], or else
    [gpsOdometerMeters], or the ["value"] of that dict) is an int too large
    for a double: [float] then raises OverflowError, which the
    [except (TypeError, ValueError)] does not catch. *)
Theorem normalize_vehicle_record_outcomes `{PyRuntime} raw :
  (normalize_vehicle_record raw = Some None <->
   ~ (py_get raw "id" <> JNull /\
    exists gps, py_or (py_get raw "gps") (py_get raw "gpsLocation") = JObj gps /\ gps <> [] /\
      py_get gps "latitude" <> JNull /\ py_get gps "longitude" <> JNull /\
      py_or (py_get gps "time") (py_get gps "receivedAt") <> JNull)) /\
  (normalize_vehicle_record raw = None <->
   (py_get raw "id" <> JNull /\
    exists gps, py_or (py_get raw "gps") (py_get raw "gpsLocation") = JObj gps /\ gps <> [] /\
      py_get gps "latitude" <> JNull /\ py_get gps "longitude" <> JNull /\
      py_or (py_get gps "time") (py_get gps "receivedAt") <> JNull) /\
   py_float_res (match py_or (py_get raw "obdOdometerMeters") (py_get raw "gpsOdometerMeters") with
                 | JObj o => py_get o "value"
                 | odo => odo
                 end) = FloatOverflow).
Proof.
  unfold normalize_vehicle_record.
  assert (Hnone : forall v, is_none v = false <-> v <> JNull)
    by (intros []; cbn; split; congruence || (intros _; discriminate) || auto).
  destruct (is_none (py_get raw "id")) eqn:Ei.
  { assert (NC : ~ (py_get raw "id" <> JNull /\
    exists gps, py_or (py_get raw "gps") (py_get raw "gpsLocation") = JObj gps /\ gps <> [] /\
      py_get gps "latitude" <> JNull /\ py_get gps "longitude" <> JNull /\
      py_or (py_get gps "time") (py_get gps "receivedAt") <> JNull))
      by (intros [Hid _]; destruct (py_get raw "id"); [contradiction Hid; reflexivity|discriminate..]).
    split; [split; [intros _; exact NC | intros _; reflexivity]
           | split; [intros Hx; discriminate Hx | intros [Cc _]; contradiction (NC Cc)]]. }
  apply Hnone in Ei.
  destruct (py_or (py_get raw "gps") (py_get raw "gpsLocation")) as [|b|z|q|s|xs|g] eqn:Eg;
    cbn [truthy negb].
  all: try (assert (NC : ~ (py_get raw "id" <> JNull /\
    exists gps, py_or (py_get raw "gps") (py_get raw "gpsLocation") = JObj gps /\ gps <> [] /\
      py_get gps "latitude" <> JNull /\ py_get gps "longitude" <> JNull /\
      py_or (py_get gps "time") (py_get gps "receivedAt") <> JNull)) by (intros [_ [gps [E _]]]; rewrite Eg in E; discriminate E); rewrite Eg in NC;
            split; [split; [intros _; exact NC | intros _;
                            repeat match goal with |- context [if ?c then _ else _] => destruct c end;
                            reflexivity]
                   | split; [intros Hx; exfalso; revert Hx;
                             repeat match goal with |- context [if ?c then _ else _] => destruct c end;
                             discriminate
                            | intros [Cc _]; contradiction (NC Cc)]]).
  destruct g as [|kv g].
  { assert (NC : ~ (py_get raw "id" <> JNull /\
    exists gps, py_or (py_get raw "gps") (py_get raw "gpsLocation") = JObj gps /\ gps <> [] /\
      py_get gps "latitude" <> JNull /\ py_get gps "longitude" <> JNull /\
      py_or (py_get gps "time") (py_get gps "receivedAt") <> JNull))
      by (intros [_ [gps [E [Hne _]]]]; rewrite Eg in E; inversion E; subst; contradiction Hne; reflexivity).
    rewrite Eg in NC.
    split; [split; [intros _; exact NC | intros _; reflexivity]
           | split; [intros Hx; discriminate Hx | intros [Cc _]; contradiction (NC Cc)]]. }
  cbn [negb].
  set (gps := kv :: g).
  destruct (is_none (py_get gps "latitude")) eqn:Ela; cbn [orb].
  { assert (NC : ~ (py_get raw "id" <> JNull /\
    exists gps, py_or (py_get raw "gps") (py_get raw "gpsLocation") = JObj gps /\ gps <> [] /\
      py_get gps "latitude" <> JNull /\ py_get gps "longitude" <> JNull /\
      py_or (py_get gps "time") (py_get gps "receivedAt") <> JNull)).
    { intros [_ [gps' [E [_ [Hla _]]]]]. rewrite Eg in E. inversion E; subst gps'.
      apply Hnone in Hla. fold gps in Hla. congruence. }
    rewrite Eg in NC.
    split; [split; [intros _; exact NC | intros _; reflexivity]
           | split; [intros Hx; discriminate Hx | intros [Cc _]; contradiction (NC Cc)]]. }
  destruct (is_none (py_get gps "longitude")) eqn:Elo; cbn [orb].
  { assert (NC : ~ (py_get raw "id" <> JNull /\
    exists gps, py_or (py_get raw "gps") (py_get raw "gpsLocation") = JObj gps /\ gps <> [] /\
      py_get gps "latitude" <> JNull /\ py_get gps "longitude" <> JNull /\
      py_or (py_get gps "time") (py_get gps "receivedAt") <> JNull)).
    { intros [_ [gps' [E [_ [_ [Hlo _]]]]]]. rewrite Eg in E. inversion E; subst gps'.
      apply Hnone in Hlo. fold gps in Hlo. congruence. }
    rewrite Eg in NC.
    split; [split; [intros _; exact NC | intros _; reflexivity]
           | split; [intros Hx; discriminate Hx | intros [Cc _]; contradiction (NC Cc)]]. }
  destruct (is_none (py_or (py_get gps "time") (py_get gps "receivedAt"))) eqn:Ets.
  { assert (NC : ~ (py_get raw "id" <> JNull /\
    exists gps, py_or (py_get raw "gps") (py_get raw "gpsLocation") = JObj gps /\ gps <> [] /\
      py_get gps "latitude" <> JNull /\ py_get gps "longitude" <> JNull /\
      py_or (py_get gps "time") (py_get gps "receivedAt") <> JNull)).
    { intros [_ [gps' [E [_ [_ [_ Hts]]]]]]. rewrite Eg in E. inversion E; subst gps'.
      apply Hnone in Hts. fold gps in Hts. congruence. }
    rewrite Eg in NC.
    split; [split; [intros _; exact NC | intros _; reflexivity]
           | split; [intros Hx; discriminate Hx | intros [Cc _]; contradiction (NC Cc)]]. }
  assert (Cc : (py_get raw "id" <> JNull /\
    exists gps, py_or (py_get raw "gps") (py_get raw "gpsLocation") = JObj gps /\ gps <> [] /\
      py_get gps "latitude" <> JNull /\ py_get gps "longitude" <> JNull /\
      py_or (py_get gps "time") (py_get gps "receivedAt") <> JNull)).
  { apply Hnone in Ela, Elo, Ets.
    split; [exact Ei|]. exists gps. split; [exact Eg|]. split; [discriminate|].
    split; [exact Ela|]. split; [exact Elo|exact Ets]. }
  rewrite Eg in Cc. fold gps in Cc.
  cbv beta iota zeta.
  destruct (py_or (py_get raw "obdOdometerMeters") (py_get raw "gpsOdometerMeters"))
    as [|b|z|q|s|xs|o]; cbv beta iota;
    [| | | | | | destruct (py_get o "value") as [|b|z|q|s|xs|o']];
    cbn [is_none py_float_res];
    repeat match goal with
           | |- context [match ?c with FloatOk _ => _ | FloatCaught => _ | FloatOverflow => _ end] =>
               destruct c
           | |- context [if ?c then _ else _] => destruct c
           | |- context [match float_of_string ?s with Some _ => _ | None => _ end] =>
               destruct (float_of_string s)
           end;
    cbv beta iota;
    first
      [ split; split; intros Hx;
        [ discriminate Hx | contradiction (Hx Cc) | discriminate Hx
        | destruct Hx as [_ Hx]; discriminate Hx ]
      | split; split; intros Hx;
        [ discriminate Hx | contradiction (Hx Cc) | split; [exact Cc | reflexivity] | reflexivity ] ].
Qed.

Lemma normalize_vehicle_record_outcomes_witness :
  normalize_vehicle_record
    [("id", JInt 1); ("gps", JObj [("latitude", JInt 0); ("longitude", JInt 0); ("time", JStr "t")]);
     ("obdOdometerMeters", JInt (10 ^ 400))] = None.
Proof.
  apply (proj2 (proj2 (normalize_vehicle_record_outcomes
    [("id", JInt 1); ("gps", JObj [("latitude", JInt 0); ("longitude", JInt 0); ("time", JStr "t")]);
     ("obdOdometerMeters", JInt (10 ^ 400))]))).
  split; [split; [discriminate|] | vm_compute; reflexivity].
  eexists. split; [reflexivity|]. split; [discriminate|]. split; [discriminate|].
  split; discriminate.
Defined.

Section AssignMore.
Variable haversine_miles : Q -> Q -> Q -> Q -> Q.

Lemma Qlt_bool_iff a b : Qlt_bool a b = true <-> (a < b)%Q.
Proof.
  unfold Qlt_bool. rewrite negb_true_iff. split.
  - intros H. apply Qnot_le_lt. intros Hle. apply Qle_bool_iff in Hle. congruence.
  - intros H. destruct (Qle_bool b a) eqn:E; [|reflexivity]. apply Qle_bool_iff in E.
    exfalso. apply (Qlt_not_le _ _ H E).
Qed.

(** The first index of the minimum of [L]. *)
Definition first_min_at (L : list Q) (idx : nat) : Prop :=
  exists d, nth_error L idx = Some d /\ (forall d', In d' L -> (d <= d')%Q) /\
            (forall k d', (k < idx)%nat -> nth_error L k = Some d' -> (d < d')%Q).

Lemma argmin_from_spec ds : forall pre bi b,
  nth_error pre bi = Some b -> (forall d', In d' pre -> (b <= d')%Q) ->
  (forall k d', (k < bi)%nat -> nth_error pre k = Some d' -> (b < d')%Q) ->
  first_min_at (pre ++ ds) (argmin_from (length pre) bi b ds).
Proof.
  induction ds as [|d ds IH]; intros pre bi b Hb Hall Hbef; cbn [argmin_from].
  - rewrite app_nil_r. exists b. split; [exact Hb|]. split; assumption.
  - assert (Hlt : (bi < length pre)%nat) by (apply nth_error_Some; congruence).
    replace (pre ++ d :: ds)%list with ((pre ++ [d]) ++ ds)%list by (rewrite <- app_assoc; reflexivity).
    replace (S (length pre)) with (length (pre ++ [d])) by (rewrite length_app; cbn; lia).
    destruct (Qlt_bool d b) eqn:E.
    + apply Qlt_bool_iff in E. apply IH.
      * rewrite nth_error_app2, Nat.sub_diag by lia. reflexivity.
      * intros d' Hd'. apply in_app_or in Hd' as [Hd'|[<-|[]]]; [|apply Qle_refl].
        apply Qlt_le_weak. apply (Qlt_le_trans _ b); [exact E | exact (Hall d' Hd')].
      * intros k d' Hk Hk'. rewrite nth_error_app1 in Hk' by exact Hk.
        apply (Qlt_le_trans _ b); [exact E|]. apply Hall. apply nth_error_In with k. exact Hk'.
    + assert (E' : (b <= d)%Q) by (apply Qnot_lt_le; intros C; apply Qlt_bool_iff in C; congruence).
      apply IH.
      * rewrite nth_error_app1 by exact Hlt. exact Hb.
      * intros d' Hd'. apply in_app_or in Hd' as [Hd'|[<-|[]]]; [exact (Hall d' Hd') | exact E'].
      * intros k d' Hk Hk'. rewrite nth_error_app1 in Hk' by lia. exact (Hbef k d' Hk Hk').
Qed.

Lemma np_argmin_spec ds idx : np_argmin ds = Some idx -> first_min_at ds idx.
Proof.
  destruct ds as [|d ds]; [discriminate|]. intros E. inversion E; subst idx.
  apply (argmin_from_spec ds [d] 0 d eq_refl).
  - intros d' [<-|[]]. apply Qle_refl.
  - intros k d' Hk. lia.
Qed.

Lemma mapM_Forall2 {A B} (f : A -> option B) xs ys :
  mapM f xs = Some ys -> Forall2 (fun x y => f x = Some y) xs ys.
Proof.
  revert ys. induction xs as [|x xs IH]; intros ys; cbn.
  - intros E. inversion E. constructor.
  - destruct (f x) eqn:Ef; [|discriminate]. destruct (mapM f xs) eqn:Em; [|discriminate].
    intros E. inversion E; subst. constructor; [exact Ef | apply IH; reflexivity].
Qed.

Lemma assign_row_spec thr jobs lat lon a :
  assign_row haversine_miles thr jobs (lat, lon) = Some a ->
  exists pre j suf,
    jobs = (pre ++ j :: suf)%list /\
    nearest_job_id a = jr_job_id j /\ nearest_job_name a = jr_job_name j /\
    nearest_distance_mi a = np_round3 (haversine_miles lat lon (jr_latitude j) (jr_longitude j)) /\
    (forall j', In j' jobs -> (haversine_miles lat lon (jr_latitude j) (jr_longitude j) <=
                              haversine_miles lat lon (jr_latitude j') (jr_longitude j'))%Q) /\
    (forall j', In j' pre -> (haversine_miles lat lon (jr_latitude j) (jr_longitude j) <
                             haversine_miles lat lon (jr_latitude j') (jr_longitude j'))%Q) /\
    assigned_bucket a =
      (if Qle_bool (np_round3 (haversine_miles lat lon (jr_latitude j) (jr_longitude j))) thr
       then jr_job_name j else "Other").
Proof.
  unfold assign_row.
  set (dist := fun j => haversine_miles lat lon (jr_latitude j) (jr_longitude j)).
  change (map (fun j => haversine_miles lat lon (jr_latitude j) (jr_longitude j)) jobs) with (map dist jobs).
  destruct (np_argmin (map dist jobs)) as [idx|] eqn:Ea; [|discriminate].
  destruct (nth_error jobs idx) as [j|] eqn:Ej; [|discriminate].
  destruct (nth_error (map dist jobs) idx) as [d|] eqn:Ed; [|discriminate].
  intros E. inversion E; subst a; clear E. cbn [nearest_job_id nearest_job_name nearest_distance_mi assigned_bucket].
  rewrite nth_error_map, Ej in Ed. inversion Ed; subst d; clear Ed.
  destruct (np_argmin_spec _ _ Ea) as [d [Hd [Hall Hbef]]].
  rewrite nth_error_map, Ej in Hd. inversion Hd; subst d; clear Hd.
  destruct (nth_error_split jobs idx Ej) as [l1 [l2 [Hj Hl]]].
  exists l1, j, l2.
  split; [exact Hj|split; [reflexivity|split; [reflexivity|split; [reflexivity|split; [|split; [|reflexivity]]]]]].
  - intros j' Hj'. apply (Hall (dist j')). apply in_map. exact Hj'.
  - intros j' Hj'. apply In_nth_error in Hj' as [k Hk].
    assert (Hki : (k < idx)%nat) by (subst idx; apply nth_error_Some; congruence).
    apply (Hbef k (dist j')); [exact Hki|].
    rewrite nth_error_map, Hj, nth_error_app1 by (subst idx; exact Hki). rewrite Hk. reflexivity.
Qed.

End AssignMore.

(** [assign_to_jobs] raises (ValueError of [np.argmin]) when there are
    vehicles but no jobs; otherwise it assigns each vehicle, in order, the
    first job at the least distance, with that distance rounded to three
    decimals and the bucket [job_name] when the rounded distance is within
    the threshold, ["Other"] otherwise. *)
Theorem assign_to_jobs_first_nearest haversine_miles vehicles jobs thr :
  (jobs = [] -> vehicles <> [] -> assign_to_jobs haversine_miles vehicles jobs thr = None) /\
  (forall asg, assign_to_jobs haversine_miles vehicles jobs thr = Some asg ->
   Forall2 (fun (row : Q * Q) a =>
     let '(lat, lon) := row in
     exists pre j suf,
       jobs = (pre ++ j :: suf)%list /\
       nearest_job_id a = jr_job_id j /\ nearest_job_name a = jr_job_name j /\
       nearest_distance_mi a = np_round3 (haversine_miles lat lon (jr_latitude j) (jr_longitude j)) /\
       (forall j', In j' jobs -> (haversine_miles lat lon (jr_latitude j) (jr_longitude j) <=
                                 haversine_miles lat lon (jr_latitude j') (jr_longitude j'))%Q) /\
       (forall j', In j' pre -> (haversine_miles lat lon (jr_latitude j) (jr_longitude j) <
                                haversine_miles lat lon (jr_latitude j') (jr_longitude j'))%Q) /\
       assigned_bucket a =
         (if Qle_bool (np_round3 (haversine_miles lat lon (jr_latitude j) (jr_longitude j))) thr
          then jr_job_name j else "Other")) vehicles asg).
Proof.
  split.
  - intros -> Hv. destruct vehicles as [|[lat lon] vs]; [contradiction Hv; reflexivity|]. reflexivity.
  - intros asg Ha. apply mapM_Forall2 in Ha.
    induction Ha as [|[lat lon] a vs asg Hr _ IH]; constructor; [|exact IH].
    exact (assign_row_spec haversine_miles thr jobs lat lon a Hr).
Qed.

Lemma assign_to_jobs_first_nearest_witness :
  exists asg,
    assign_to_jobs sample_haversine_miles [((2895 # 100000)%Q, 0%Q)]
      [mk_job_row "J1" "Site A" 0 0; mk_job_row "J2" "Site B" 0 0] 2 = Some asg /\
    Forall2 (fun _ a => nearest_job_id a = "J1") [((2895 # 100000)%Q, 0%Q)] asg.
Proof.
  eexists. split; [vm_compute; reflexivity|].
  assert (H := proj2 (assign_to_jobs_first_nearest sample_haversine_miles [((2895 # 100000)%Q, 0%Q)]
                        [mk_job_row "J1" "Site A" 0 0; mk_job_row "J2" "Site B" 0 0] 2) _
                 ltac:(vm_compute; reflexivity)).
  inversion H as [|x a l l' Hx _]; subst. constructor; [|constructor].
  destruct Hx as [pre [j [suf [Hj [Hid [_ [_ [_ [Hpre _]]]]]]]]].
  destruct pre as [|p pre].
  - inversion Hj; subst. exact Hid.
  - exfalso. inversion Hj; subst.
    specialize (Hpre (mk_job_row "J1" "Site A" 0 0) (or_introl eq_refl)). vm_compute in Hpre. discriminate.
Defined.
